(** * Part Plus API: clients and service reservations

    A shallow embedding of the request handlers of the Part Plus backend
    (Express + Mongoose) and of the parts of the schemas, middlewares and
    routes they rely on:

    - [models/Client.js], [models/Reservation.js]: the two schemas, their
      setters, validators and [pre("save")] hooks;
    - [controllers/clientsController.js], [controllers/reservationsController.js]:
      the handlers, written in a small state-and-exception monad whose
      operations are the awaited Mongoose calls;
    - [middlewares/validation.js]: [validateId], [handleValidationErrors]
      and [checkEmailUnique];
    - [routes/*.js]: the middleware chains of the routes that only use the
      above.

    Conventions.  A date is its number of milliseconds since the epoch
    ([new Date(x)] is the [Z] it denotes); a JSON number is a [Z]; a
    string is a byte string, so that the length of a text, its white space
    and its letters in upper case are those of a text in ASCII.  The body
    of an update is a set of fields of the schema.  The store is a pair of
    lists kept in insertion order.  Everything the handlers take from
    their environment
    (the clock, the salt drawn by [bcrypt.genSalt], the identifier drawn by
    [new ObjectId]) is read from an [Env] record; [bcrypt.hash] and the
    store's [$regex] operator are parameters of the development. *)

From Stdlib Require Import String Ascii List ZArith Lia Bool Sorted Permutation.
Import ListNotations.
Open Scope string_scope.
Open Scope Z_scope.

(* ---------------------------------------------------------------------- *)
(** * Text                                                                  *)
(* ---------------------------------------------------------------------- *)

Definition charCode (c : ascii) : nat := nat_of_ascii c.

Definition between (lo hi : nat) (c : ascii) : bool :=
  (Nat.leb lo (charCode c) && Nat.leb (charCode c) hi)%bool.

Definition isDigit (c : ascii) : bool := between 48 57 c.
Definition isUpper (c : ascii) : bool := between 65 90 c.
Definition isLower (c : ascii) : bool := between 97 122 c.

(** [\w] of a JavaScript regular expression. *)
Definition isWord (c : ascii) : bool :=
  (isDigit c || isUpper c || isLower c || Nat.eqb (charCode c) 95)%bool.

Definition isHexDigit (c : ascii) : bool :=
  (isDigit c || between 65 70 c || between 97 102 c)%bool.

(** White space removed by [String.prototype.trim] (the ASCII part). *)
Definition isSpace (c : ascii) : bool :=
  (between 9 13 c || Nat.eqb (charCode c) 32)%bool.

Definition lowerChar (c : ascii) : ascii :=
  if isUpper c then ascii_of_nat (charCode c + 32) else c.

Fixpoint toLowerCase (s : string) : string :=
  match s with
  | EmptyString => EmptyString
  | String c r => String (lowerChar c) (toLowerCase r)
  end.

Fixpoint trimStart (s : string) : string :=
  match s with
  | EmptyString => EmptyString
  | String c r => if isSpace c then trimStart r else s
  end.

Definition reverse (s : string) : string :=
  string_of_list_ascii (rev (list_ascii_of_string s)).

Definition trimEnd (s : string) : string := reverse (trimStart (reverse s)).

Definition trim (s : string) : string := trimEnd (trimStart s).

(** [s.length], of a text in ASCII. *)
Definition len (s : string) : Z := Z.of_nat (String.length s).

(** Truthiness of a string ([if (name)], [updateData.email && ...]). *)
Definition truthy (s : string) : bool := negb (s =? "")%string.

(** Truthiness of a key that may be missing from an object. *)
Definition truthy_opt (o : option string) : bool :=
  match o with Some s => truthy s | None => false end.

(* ---------------------------------------------------------------------- *)
(** * Regular expressions of the schemas                                    *)
(* ---------------------------------------------------------------------- *)

(** The two [match] patterns of [clientSchema] are regular, anchored at both
    ends and free of back-references, so [RegExp.prototype.test] on them is
    membership in the language, decided here by derivatives. *)

Inductive regex : Type :=
| Void : regex
| Eps : regex
| Chr : (ascii -> bool) -> regex
| Cat : regex -> regex -> regex
| Alt : regex -> regex -> regex
| Star : regex -> regex.

Fixpoint nullable (r : regex) : bool :=
  match r with
  | Void => false
  | Eps => true
  | Chr _ => false
  | Cat a b => nullable a && nullable b
  | Alt a b => nullable a || nullable b
  | Star _ => true
  end.

Definition cat (a b : regex) : regex :=
  match a, b with
  | Void, _ => Void
  | _, Void => Void
  | Eps, _ => b
  | _, _ => Cat a b
  end.

Definition alt (a b : regex) : regex :=
  match a, b with
  | Void, _ => b
  | _, Void => a
  | _, _ => Alt a b
  end.

Fixpoint deriv (c : ascii) (r : regex) : regex :=
  match r with
  | Void => Void
  | Eps => Void
  | Chr p => if p c then Eps else Void
  | Cat a b =>
      if nullable a then alt (cat (deriv c a) b) (deriv c b)
      else cat (deriv c a) b
  | Alt a b => alt (deriv c a) (deriv c b)
  | Star a => cat (deriv c a) (Star a)
  end.

Fixpoint test (r : regex) (s : string) : bool :=
  match s with
  | EmptyString => nullable r
  | String c rest => test (deriv c r) rest
  end.

Definition lit (c : ascii) : regex := Chr (Ascii.eqb c).
Definition plus (r : regex) : regex := Cat r (Star r).
Definition opt (r : regex) : regex := Alt Eps r.

(** [r{0,n}] *)
Fixpoint upto (n : nat) (r : regex) : regex :=
  match n with
  | O => Eps
  | S k => opt (Cat r (upto k r))
  end.

Definition word : regex := Chr isWord.
Definition dotOrDash : regex := Chr (fun c => Ascii.eqb c "." || Ascii.eqb c "-")%bool.

(** [/^\w+([.-]?\w+)*@\w+([.-]?\w+)*(\.\w{2,3})+$/] *)
Definition emailPattern : regex :=
  Cat (plus word)
 (Cat (Star (Cat (opt dotOrDash) (plus word)))
 (Cat (lit "@")
 (Cat (plus word)
 (Cat (Star (Cat (opt dotOrDash) (plus word)))
      (plus (Cat (lit ".") (Cat word (Cat word (opt word))))))))).

(** [/^[\+]?[1-9][\d]{0,15}$/] *)
Definition phonePattern : regex :=
  Cat (opt (lit "+")) (Cat (Chr (between 49 57)) (upto 15 (Chr isDigit))).

(* ---------------------------------------------------------------------- *)
(** * Identifiers                                                           *)
(* ---------------------------------------------------------------------- *)

(** An [ObjectId] is kept as the string [toString()] prints: 24
    hexadecimal digits in lower case. *)
Definition ObjectId := string.

Definition allChars (p : ascii -> bool) (s : string) : bool :=
  forallb p (list_ascii_of_string s).

(** [isHexadecimal] of validator.js, [/^(0x|0h)?[0-9A-F]+$/i]: one or more
    hexadecimal digits, after [0x] or [0h] or after nothing. *)
Definition hexDigits (s : string) : bool :=
  (negb (s =? "")%string && allChars isHexDigit s)%bool.

Definition isHexadecimal (s : string) : bool :=
  (hexDigits s
   || match s with
      | String a (String b rest) =>
          Ascii.eqb a "0"
          && (Ascii.eqb b "x" || Ascii.eqb b "X" || Ascii.eqb b "h" || Ascii.eqb b "H")
          && hexDigits rest
      | _ => false
      end)%bool.

(** [isMongoId] of express-validator, which is that of validator.js:
    [isHexadecimal(str) && str.length === 24].  An absent field is
    validated as the empty string. *)
Definition isMongoId (s : string) : bool :=
  (isHexadecimal s && Nat.eqb (String.length s) 24)%bool.

(** [mongoose.Types.ObjectId.isValid], on the strings a route can deliver:
    the 24-digit hexadecimal form.  (The driver also takes a string of 12
    bytes for an identifier; [isMongoId], which guards every route that
    carries one, does not let such a string through.) *)
Definition ObjectId_isValid (s : string) : bool :=
  (Nat.eqb (String.length s) 24 && allChars isHexDigit s)%bool.

(** Casting a string to an [ObjectId]: hexadecimal digits are read without
    regard to case. *)
Definition castObjectId (s : string) : option ObjectId :=
  if ObjectId_isValid s then Some (toLowerCase s) else None.

(* ---------------------------------------------------------------------- *)
(** * JSON values and responses                                             *)
(* ---------------------------------------------------------------------- *)

#[warnings="-register-all"]
Inductive Json : Type :=
| JNull : Json
| JBool : bool -> Json
| JNum : Z -> Json
| JStr : string -> Json
| JArr : list Json -> Json
| JObj : list (string * Json) -> Json.

Definition Object := list (string * Json).

Fixpoint get (k : string) (o : Object) : option Json :=
  match o with
  | [] => None
  | (k', v) :: r => if (k =? k')%string then Some v else get k r
  end.

(** [delete o[k]] *)
Definition delete (k : string) (o : Object) : Object :=
  filter (fun kv => negb (k =? fst kv)%string) o.

(** [res.status(n).json(v)] *)
Record Response := mkResponse { status : Z; json : Json }.

(** What a handler can catch: [error.code] and [error.message]. *)
Record JsError := mkError { code : option Z; message : string }.

(** Route parameters, [req.params].  A parameter the route does not bind is
    [undefined]; the validators and [ObjectId.isValid] reject it just as
    they reject the empty string, which stands for it here. *)
Definition Params := list (string * string).

Fixpoint param (k : string) (ps : Params) : string :=
  match ps with
  | [] => ""
  | (k', v) :: r => if (k =? k')%string then v else param k r
  end.

(** The value of a parameter, when the route binds it. *)
Fixpoint bound (k : string) (ps : Params) : option string :=
  match ps with
  | [] => None
  | (k', v) :: r => if (k =? k')%string then Some v else bound k r
  end.

(** An entry of [validationResult(req).array()] for a field.  The value of
    a field that was not sent is [undefined], which [res.json] leaves
    out. *)
Definition fieldError (value : option string) (msg path location : string) : Json :=
  JObj ([("type", JStr "field")]
        ++ match value with Some v => [("value", JStr v)] | None => [] end
        ++ [("msg", JStr msg); ("path", JStr path); ("location", JStr location)])%list.

(* ---------------------------------------------------------------------- *)
(** * Documents                                                             *)
(* ---------------------------------------------------------------------- *)

Module Client.

(** A document of the [Client] model.  [password] is [None] on a document
    loaded with [select("-password")]. *)
Record t := mk {
  _id : ObjectId;
  name : string;
  email : string;
  password : option string;
  phone : string;
  age : Z;
  createdAt : Z;
  updatedAt : Z
}.

Definition toObject (c : t) : Object :=
  ([("_id", JStr (_id c)); ("name", JStr (name c)); ("email", JStr (email c))]
   ++ match password c with Some p => [("password", JStr p)] | None => [] end
   ++ [("phone", JStr (phone c)); ("age", JNum (age c));
       ("createdAt", JNum (createdAt c)); ("updatedAt", JNum (updatedAt c))])%list.

(** [clientSchema.methods.toJSON] *)
Definition toJSON (c : t) : Json :=
  let client := toObject c in
  JObj (delete "password" client).

(** [.select("-password")] *)
Definition selectMinusPassword (c : t) : t :=
  mk (_id c) (name c) (email c) None (phone c) (age c) (createdAt c) (updatedAt c).

End Client.

Module Reservation.

Record t := mk {
  _id : ObjectId;
  clientId : ObjectId;
  vehicle : string;
  service : string;
  status : string;
  scheduledDate : Z;
  notes : option string;
  createdAt : Z;
  updatedAt : Z
}.

(** A reservation after [.populate("clientId", "name email phone")]: the
    reference is replaced by the selected fields of the client it
    resolves to, or by [null]. *)
Definition populated : Type := (t * option Client.t)%type.

Definition clientRef (c : option Client.t) : Json :=
  match c with
  | Some c =>
      JObj [("_id", JStr (Client._id c)); ("name", JStr (Client.name c));
            ("email", JStr (Client.email c)); ("phone", JStr (Client.phone c))]
  | None => JNull
  end.

Definition toJSON (p : populated) : Json :=
  let (r, c) := p in
  JObj ([("_id", JStr (_id r)); ("clientId", clientRef c);
         ("vehicle", JStr (vehicle r)); ("service", JStr (service r));
         ("status", JStr (status r)); ("scheduledDate", JNum (scheduledDate r))]
        ++ match notes r with Some n => [("notes", JStr n)] | None => [] end
        ++ [("createdAt", JNum (createdAt r)); ("updatedAt", JNum (updatedAt r))])%list.

End Reservation.

(** Request bodies, as the JSON parser and the field validators of the
    routes deliver them: mandatory keys present, optional keys possibly
    missing, dates and numbers already read. *)

Module ClientInput.
Record t := mk {
  name : string; email : string; password : string; phone : string; age : Z
}.
End ClientInput.

Module ClientPatch.
Record t := mk {
  name : option string; email : option string; password : option string;
  phone : option string; age : option Z
}.
End ClientPatch.

Module ReservationInput.
Record t := mk {
  clientId : string; vehicle : string; service : string;
  scheduledDate : Z; notes : option string;
  (** accepted by [validateReservation], not read by the handler *)
  status : option string
}.
End ReservationInput.

Module ReservationPatch.
Record t := mk {
  clientId : option string; vehicle : option string; service : option string;
  status : option string; scheduledDate : option Z; notes : option string
}.
End ReservationPatch.

(** Query strings of the list endpoints. *)
Module ClientsQuery.
Record t := mk {
  page : option Z; limit : option Z; name : option string; email : option string
}.
End ClientsQuery.

Module ClientReservationsQuery.
Record t := mk { status : option string; page : option Z; limit : option Z }.
End ClientReservationsQuery.

(* ---------------------------------------------------------------------- *)
(** * The store and the handler monad                                       *)
(* ---------------------------------------------------------------------- *)

Record Store := mkStore {
  clients : list Client.t;
  reservations : list Reservation.t
}.

(** What one request reads from outside the store.  [freshId] is an
    [ObjectId], in the form [castObjectId] returns. *)
Record Env := mkEnv {
  now : Z;              (** [new Date()] *)
  salt : string;        (** [await bcrypt.genSalt(10)] *)
  freshId : ObjectId    (** the [_id] given to a new document *)
}.

(** A handler runs against the store; every awaited store operation is a
    point where writes of other requests may land first.  [pending] lists
    those writes, one entry per store operation still to come; a request
    running alone has none. *)
Record World := mkWorld {
  store : Store;
  pending : list (Store -> Store)
}.

Definition Result (A : Type) : Type := (JsError + A)%type.

Definition M (A : Type) : Type := Env -> World -> Result A * World.

Definition ret {A} (a : A) : M A := fun _ w => (inr a, w).

Definition throw {A} (e : JsError) : M A := fun _ w => (inl e, w).

Definition bind {A B} (m : M A) (k : A -> M B) : M B :=
  fun env w =>
    match m env w with
    | (inr a, w') => k a env w'
    | (inl e, w') => (inl e, w')
    end.

(** [try { m } catch (error) { h error }] *)
Definition try_catch {A} (m : M A) (h : JsError -> M A) : M A :=
  fun env w =>
    match m env w with
    | (inr a, w') => (inr a, w')
    | (inl e, w') => h e env w'
    end.

Definition ask : M Env := fun env w => (inr env, w).

(** One store operation. *)
Definition await {A} (op : Store -> Result A * Store) : M A :=
  fun _ w =>
    let s := match pending w with [] => store w | g :: _ => g (store w) end in
    let (r, s') := op s in
    (r, mkWorld s' (tl (pending w))).

Definition read {A} (q : Store -> Result A) : M A :=
  await (fun s => (q s, s)).

Declare Scope handler_scope.
Delimit Scope handler_scope with handler.
Notation "x <- m ;; k" := (bind m (fun x => k))
  (at level 61, m at next level, right associativity) : handler_scope.
Notation "m ;; k" := (bind m (fun _ => k))
  (at level 61, right associativity) : handler_scope.
Open Scope handler_scope.

(** A handler that did not send a response would hang; every handler below
    ends in a [try]/[catch] whose two branches respond, so a run yields a
    response and the store it leaves. *)
Definition run (h : M Response) (env : Env) (w : World) : option Response * Store :=
  match h env w with
  | (inr r, w') => (Some r, store w')
  | (inl _, w') => (None, store w')
  end.

(** A request served with no other request in flight. *)
Definition serve (h : M Response) (env : Env) (s : Store) : option Response * Store :=
  run h env (mkWorld s []).

(* ---------------------------------------------------------------------- *)
(** * Schemas: setters and validators                                       *)
(* ---------------------------------------------------------------------- *)

(** A path runs its validators in declaration order and reports the first
    that fails. *)
Fixpoint firstFailure (checks : list (bool * string)) : option string :=
  match checks with
  | [] => None
  | (true, _) :: r => firstFailure r
  | (false, msg) :: _ => Some msg
  end.

(** Errors of a document: one entry [(path, message)] per failing path. *)
Definition PathErrors := list (string * string).

Definition onPath (path : string) (failure : option string) : PathErrors :=
  match failure with Some msg => [(path, msg)] | None => [] end.

Fixpoint describe (errs : PathErrors) : string :=
  match errs with
  | [] => ""
  | [(p, m)] => p ++ ": " ++ m
  | (p, m) :: r => p ++ ": " ++ m ++ ", " ++ describe r
  end.

Definition validationError (model : string) (errs : PathErrors) : JsError :=
  mkError None (model ++ " validation failed: " ++ describe errs).

(** The error of the update validators, which name no model. *)
Definition updateValidationError (errs : PathErrors) : JsError :=
  mkError None ("Validation failed: " ++ describe errs).

Definition castError (value : string) : JsError :=
  mkError None ("Cast to ObjectId failed for value " ++ value).

Definition duplicateKey (index : string) : JsError :=
  mkError (Some 11000) ("E11000 duplicate key error index: " ++ index).

Module clientSchema.

(** [trim: true], and for [email] also [lowercase: true]. *)
Definition setName (v : string) : string := trim v.
Definition setEmail (v : string) : string := toLowerCase (trim v).
Definition setPhone (v : string) : string := trim v.

Definition name (v : string) : option string :=
  firstFailure
    [(truthy v, "El nombre es obligatorio");
     (2 <=? len v, "El nombre debe tener al menos 2 caracteres");
     (len v <=? 50, "El nombre no puede exceder 50 caracteres")].

Definition email (v : string) : option string :=
  firstFailure
    [(truthy v, "El email es obligatorio");
     (test emailPattern v, "Por favor ingrese un email válido")].

Definition password (v : string) : option string :=
  firstFailure
    [(truthy v, "La contraseña es obligatoria");
     (6 <=? len v, "La contraseña debe tener al menos 6 caracteres")].

Definition phone (v : string) : option string :=
  firstFailure
    [(truthy v, "El teléfono es obligatorio");
     (test phonePattern v, "Por favor ingrese un número de teléfono válido")].

Definition age (v : Z) : option string :=
  firstFailure
    [(18 <=? v, "La edad mínima es 18 años");
     (v <=? 120, "La edad máxima es 120 años")].

(** Validation of a whole document (on [save]). *)
Definition validate (b : ClientInput.t) : PathErrors :=
  (onPath "name" (name (ClientInput.name b))
   ++ onPath "email" (email (ClientInput.email b))
   ++ onPath "password" (password (ClientInput.password b))
   ++ onPath "phone" (phone (ClientInput.phone b))
   ++ onPath "age" (age (ClientInput.age b)))%list.

Definition onPresent {A} (path : string) (v : A -> option string) (o : option A)
  : PathErrors :=
  match o with Some x => onPath path (v x) | None => [] end.

(** Validation of an update ([runValidators: true]): the paths the update
    sets, and only those. *)
Definition validateUpdate (u : ClientPatch.t) : PathErrors :=
  (onPresent "name" name (ClientPatch.name u)
   ++ onPresent "email" email (ClientPatch.email u)
   ++ onPresent "password" password (ClientPatch.password u)
   ++ onPresent "phone" phone (ClientPatch.phone u)
   ++ onPresent "age" age (ClientPatch.age u))%list.

(** The setters, applied to constructor arguments and to updates. *)
Definition cast (b : ClientInput.t) : ClientInput.t :=
  ClientInput.mk (setName (ClientInput.name b)) (setEmail (ClientInput.email b))
    (ClientInput.password b) (setPhone (ClientInput.phone b)) (ClientInput.age b).

Definition castUpdate (u : ClientPatch.t) : ClientPatch.t :=
  ClientPatch.mk (option_map setName (ClientPatch.name u))
    (option_map setEmail (ClientPatch.email u))
    (ClientPatch.password u)
    (option_map setPhone (ClientPatch.phone u)) (ClientPatch.age u).

End clientSchema.

Module reservationSchema.

Definition services : list string :=
  ["Mantenimiento preventivo"; "Cambio de aceite"; "Revisión de frenos";
   "Alineación y balanceo"; "Revisión de motor"; "Cambio de llantas";
   "Revisión eléctrica"; "Diagnóstico general"; "Otros"].

Definition statuses : list string :=
  ["Pendiente"; "En proceso"; "Completado"; "Cancelado"].

(** [default: "Pendiente"] *)
Definition defaultStatus : string := "Pendiente".

Definition oneOf (values : list string) (v : string) : bool :=
  existsb (String.eqb v) values.

Definition clientId (v : string) : option string :=
  firstFailure
    [(truthy v, "El ID del cliente es obligatorio");
     (ObjectId_isValid v, "Cast to ObjectId failed")].

Definition vehicle (v : string) : option string :=
  firstFailure
    [(truthy v, "El vehículo es obligatorio");
     (2 <=? len v, "El vehículo debe tener al menos 2 caracteres");
     (len v <=? 100, "El vehículo no puede exceder 100 caracteres")].

Definition service (v : string) : option string :=
  firstFailure
    [(truthy v, "El servicio es obligatorio");
     (oneOf services v, "Servicio no válido")].

Definition status (v : string) : option string :=
  firstFailure
    [(truthy v, "Path `status` is required.");
     (oneOf statuses v, "Estado no válido")].

(** [validator: function(date) { return date > new Date(); }] *)
Definition scheduledDate (today : Z) (date : Z) : option string :=
  firstFailure
    [(today <? date, "La fecha programada debe ser en el futuro")].

Definition notes (v : string) : option string :=
  firstFailure
    [(len v <=? 500, "Las notas no pueden exceder 500 caracteres")].

Definition onPresent {A} (path : string) (v : A -> option string) (o : option A)
  : PathErrors :=
  match o with Some x => onPath path (v x) | None => [] end.

(** Setters and defaults, applied to constructor arguments. *)
Definition cast (b : ReservationInput.t) : ReservationInput.t :=
  ReservationInput.mk (ReservationInput.clientId b)
    (trim (ReservationInput.vehicle b)) (trim (ReservationInput.service b))
    (ReservationInput.scheduledDate b)
    (option_map trim (ReservationInput.notes b))
    (Some match ReservationInput.status b with
          | Some s => s
          | None => defaultStatus
          end).

Definition validate (today : Z) (b : ReservationInput.t) : PathErrors :=
  (onPath "clientId" (clientId (ReservationInput.clientId b))
   ++ onPath "vehicle" (vehicle (ReservationInput.vehicle b))
   ++ onPath "service" (service (ReservationInput.service b))
   ++ onPresent "status" status (ReservationInput.status b)
   ++ onPath "scheduledDate" (scheduledDate today (ReservationInput.scheduledDate b))
   ++ onPresent "notes" notes (ReservationInput.notes b))%list.

Definition castUpdate (u : ReservationPatch.t) : ReservationPatch.t :=
  ReservationPatch.mk (ReservationPatch.clientId u)
    (option_map trim (ReservationPatch.vehicle u))
    (option_map trim (ReservationPatch.service u))
    (ReservationPatch.status u)
    (ReservationPatch.scheduledDate u)
    (option_map trim (ReservationPatch.notes u)).

Definition validateUpdate (today : Z) (u : ReservationPatch.t) : PathErrors :=
  (onPresent "clientId" clientId (ReservationPatch.clientId u)
   ++ onPresent "vehicle" vehicle (ReservationPatch.vehicle u)
   ++ onPresent "service" service (ReservationPatch.service u)
   ++ onPresent "status" status (ReservationPatch.status u)
   ++ onPresent "scheduledDate" (scheduledDate today) (ReservationPatch.scheduledDate u)
   ++ onPresent "notes" notes (ReservationPatch.notes u))%list.

End reservationSchema.

(* ---------------------------------------------------------------------- *)
(** * Queries                                                               *)
(* ---------------------------------------------------------------------- *)

(** A condition on a string path: [path: v], [path: { $in: vs }] or
    [path: { $regex: p, $options: "i" }], the last given by the test the
    pattern denotes. *)
Inductive Cond : Type :=
| Equals : string -> Cond
| AnyOf : list string -> Cond
| Matches : (string -> bool) -> Cond.

Record ClientFilter := mkClientFilter {
  whereIdNot : option string;      (** [_id: { $ne: id }] *)
  whereName : option Cond;
  whereEmail : option Cond
}.

Record ReservationFilter := mkReservationFilter {
  whereClientId : option string;
  whereStatus : option Cond
}.

Definition orElse {A} (o : option A) (d : A) : A :=
  match o with Some x => x | None => d end.

Fixpoint replaceFirst {A} (p : A -> bool) (x : A) (l : list A) : list A :=
  match l with
  | [] => []
  | y :: r => if p y then x :: r else y :: replaceFirst p x r
  end.

Fixpoint removeFirst {A} (p : A -> bool) (l : list A) : list A :=
  match l with
  | [] => []
  | y :: r => if p y then r else y :: removeFirst p r
  end.

Fixpoint insertBy {A} (le : A -> A -> bool) (x : A) (l : list A) : list A :=
  match l with
  | [] => [x]
  | y :: r => if le x y then x :: l else y :: insertBy le x r
  end.

(** A stable sort.  (The store leaves the order of the records with the
    same key open, and it may differ from one query to the next: what is
    stated below of the order of a listing holds of every such order, or
    is stated of records with different keys.) *)
Definition sortBy {A} (le : A -> A -> bool) (l : list A) : list A :=
  fold_right (insertBy le) [] l.

(** [.skip(n)] and [.limit(n)] of a cursor; a limit of zero is no limit and
    a negative limit is read as its absolute value. *)
Definition cursorSkip {A} (n : Z) (l : list A) : list A := skipn (Z.to_nat n) l.

Definition cursorLimit {A} (n : Z) (l : list A) : list A :=
  if n =? 0 then l else firstn (Z.to_nat (Z.abs n)) l.

Definition negativeSkip : JsError :=
  mkError (Some 2) "Skip value must be non-negative".

(** [Math.ceil(a / b)] as it is serialized: a division by zero gives
    [Infinity] or [NaN], both written [null]. *)
Definition Math_ceil_div (a b : Z) : Json :=
  if b =? 0 then JNull else JNum (- ((- a) / b)).

(** The query string of [GET /reservations]; a date bound that is given
    is a date. *)
Module ReservationsQuery.
Record t := mk {
  page : option Z; limit : option Z;
  clientId : option string; status : option string; service : option string;
  startDate : option Z; endDate : option Z
}.
End ReservationsQuery.

(** The filter of the reservations listing: beside the client and the
    status, [service: { $regex, $options: "i" }] and
    [scheduledDate: { $gte, $lte }]. *)
Record ReservationListFilter := mkReservationListFilter {
  whereReservation : ReservationFilter;
  whereService : option Cond;
  whereFrom : option Z;
  whereTo : option Z
}.

(* ---------------------------------------------------------------------- *)
(** * The models and the handlers                                           *)
(* ---------------------------------------------------------------------- *)

(** A document under construction ([new Model({...})]): the identifier it
    was given and the constructor's arguments. *)
Definition ClientDraft : Type := (ObjectId * ClientInput.t)%type.
Definition ReservationDraft : Type := (ObjectId * ReservationInput.t)%type.

Definition sameId (a b : ObjectId) : bool := (a =? b)%string.

Section Api.

(** [bcrypt.hash(password, salt)] *)
Variable bcrypt_hash : string -> string -> string.

(** The test a pattern denotes under [{ $regex: pattern, $options: "i" }]. *)
Variable regexI : string -> string -> bool.

(** ** Conditions *)

(** The value of a condition goes through the path's setters before it is
    compared (Mongoose casts query conditions with the schema). *)
Definition holds (set : string -> string) (c : Cond) (v : string) : bool :=
  match c with
  | Equals x => (v =? set x)%string
  | AnyOf xs => existsb (fun x => (v =? set x)%string) xs
  | Matches p => p v
  end.

Definition holdsOpt (set : string -> string) (c : option Cond) (v : string) : bool :=
  match c with Some c => holds set c v | None => true end.

Definition clientMatches (f : ClientFilter) (c : Client.t) : bool :=
  match whereIdNot f with
  | Some id => negb (sameId (Client._id c) (toLowerCase id))
  | None => true
  end
  && holdsOpt clientSchema.setName (whereName f) (Client.name c)
  && holdsOpt clientSchema.setEmail (whereEmail f) (Client.email c).

Definition reservationMatches (f : ReservationFilter) (r : Reservation.t) : bool :=
  match whereClientId f with
  | Some id => sameId (Reservation.clientId r) (toLowerCase id)
  | None => true
  end
  && holdsOpt (fun x => x) (whereStatus f) (Reservation.status r).

(** Casting a filter fails on an identifier that is not one. *)
Definition castId (id : option string) : option JsError :=
  match id with
  | Some id => if ObjectId_isValid id then None else Some (castError id)
  | None => None
  end.

Definition selectClients (f : ClientFilter) (s : Store) : Result (list Client.t) :=
  match castId (whereIdNot f) with
  | Some e => inl e
  | None => inr (filter (clientMatches f) (clients s))
  end.

Definition selectReservations (f : ReservationFilter) (s : Store)
  : Result (list Reservation.t) :=
  match castId (whereClientId f) with
  | Some e => inl e
  | None => inr (filter (reservationMatches f) (reservations s))
  end.

Definition clientById (oid : ObjectId) (s : Store) : option Client.t :=
  find (fun c => sameId (Client._id c) oid) (clients s).

Definition reservationById (oid : ObjectId) (s : Store) : option Reservation.t :=
  find (fun r => sameId (Reservation._id r) oid) (reservations s).

(** ** [Client] *)

Definition Client_findOne (f : ClientFilter) : M (option Client.t) :=
  read (fun s =>
    match selectClients f s with
    | inl e => inl e
    | inr cs => inr (hd_error cs)
    end).

Definition Client_findById (id : string) : M (option Client.t) :=
  read (fun s =>
    match castObjectId id with
    | None => inl (castError id)
    | Some oid => inr (clientById oid s)
    end).

(** [Client.find(f).limit(limit).skip(skip).sort({ createdAt: -1 })] *)
Definition Client_find (f : ClientFilter) (limit skip : Z) : M (list Client.t) :=
  read (fun s =>
    match selectClients f s with
    | inl e => inl e
    | inr cs =>
        if skip <? 0 then inl negativeSkip
        else
          let newestFirst :=
            sortBy (fun a b => Client.createdAt b <=? Client.createdAt a) cs in
          inr (cursorLimit limit (cursorSkip skip newestFirst))
    end).

Definition Client_countDocuments (f : ClientFilter) : M Z :=
  read (fun s =>
    match selectClients f s with
    | inl e => inl e
    | inr cs => inr (Z.of_nat (length cs))
    end).

(** [new Date()] *)
Definition new_Date : M Z := fun env w => (inr (now env), w).

Definition new_Client (fields : ClientInput.t) : M ClientDraft :=
  fun env w => (inr (freshId env, fields), w).

(** [clientSchema.pre("save")]: the password is hashed when it was
    modified, and only then. *)
Definition clientSchema_preSave (isModifiedPassword : bool) (password : string)
  : M string :=
  if negb isModifiedPassword then ret password
  else
    env <- ask ;;
    let salt := salt env in
    ret (bcrypt_hash password salt).

(** The insert, under the unique indexes on [_id] and on [email]. *)
Definition insertClient (doc : Client.t) (s : Store) : Result Client.t * Store :=
  if existsb (fun c => sameId (Client._id c) (Client._id doc)) (clients s)
  then (inl (duplicateKey "_id_"), s)
  else if existsb (fun c => (Client.email c =? Client.email doc)%string) (clients s)
  then (inl (duplicateKey "email_1"), s)
  else (inr doc, mkStore (clients s ++ [doc]) (reservations s)).

(** [save()] of a new document: validation, then the [pre("save")] hook
    (every path of a new document is modified), then the insert, which
    fills in the timestamps. *)
Definition Client_save (draft : ClientDraft) : M Client.t :=
  let (id, given) := draft in
  let fields := clientSchema.cast given in
  match clientSchema.validate fields with
  | [] =>
      password <- clientSchema_preSave true (ClientInput.password fields) ;;
      env <- ask ;;
      await (insertClient
               (Client.mk id (ClientInput.name fields) (ClientInput.email fields)
                  (Some password) (ClientInput.phone fields)
                  (ClientInput.age fields) (now env) (now env)))
  | errs => throw (validationError "Client" errs)
  end.

Definition applyClientPatch (u : ClientPatch.t) (today : Z) (c : Client.t)
  : Client.t :=
  Client.mk (Client._id c)
    (orElse (ClientPatch.name u) (Client.name c))
    (orElse (ClientPatch.email u) (Client.email c))
    (match ClientPatch.password u with
     | Some p => Some p
     | None => Client.password c
     end)
    (orElse (ClientPatch.phone u) (Client.phone c))
    (orElse (ClientPatch.age u) (Client.age c))
    (Client.createdAt c)
    today.

(** The update of one document, under the unique index on [email]. *)
Definition updateClientById (oid : ObjectId) (u : ClientPatch.t) (today : Z)
    (s : Store) : Result (option Client.t) * Store :=
  match clientById oid s with
  | None => (inr None, s)
  | Some c =>
      let c' := applyClientPatch u today c in
      if negb (Client.email c' =? Client.email c)%string
         && existsb (fun d => negb (sameId (Client._id d) oid)
                              && (Client.email d =? Client.email c')%string)
              (clients s)
      then (inl (duplicateKey "email_1"), s)
      else
        (inr (Some c'),
         mkStore (replaceFirst (fun d => sameId (Client._id d) oid) c' (clients s))
           (reservations s))
  end.

(** [Client.findByIdAndUpdate(id, update, { new: true, runValidators: true })]:
    the update is cast and validated, then applied by the store.  No
    [save] takes place, so no [pre("save")] hook runs. *)
Definition Client_findByIdAndUpdate (id : string) (update : ClientPatch.t)
  : M (option Client.t) :=
  match castObjectId id with
  | None => throw (castError id)
  | Some oid =>
      let u := clientSchema.castUpdate update in
      match clientSchema.validateUpdate u with
      | [] =>
          env <- ask ;;
          await (updateClientById oid u (now env))
      | errs => throw (updateValidationError errs)
      end
  end.

Definition Client_findByIdAndDelete (id : string) : M (option Client.t) :=
  match castObjectId id with
  | None => throw (castError id)
  | Some oid =>
      await (fun s =>
        match clientById oid s with
        | None => (inr None, s)
        | Some c =>
            (inr (Some c),
             mkStore (removeFirst (fun d => sameId (Client._id d) oid) (clients s))
               (reservations s))
        end)
  end.

(** ** [Reservation] *)

Definition Reservation_countDocuments (f : ReservationFilter) : M Z :=
  read (fun s =>
    match selectReservations f s with
    | inl e => inl e
    | inr rs => inr (Z.of_nat (length rs))
    end).

(** [Reservation.find(f).limit(limit).skip(skip).sort({ scheduledDate: 1 })] *)
Definition Reservation_find (f : ReservationFilter) (limit skip : Z)
  : M (list Reservation.t) :=
  read (fun s =>
    match selectReservations f s with
    | inl e => inl e
    | inr rs =>
        if skip <? 0 then inl negativeSkip
        else
          let soonestFirst :=
            sortBy (fun a b =>
                      Reservation.scheduledDate a <=? Reservation.scheduledDate b) rs in
          inr (cursorLimit limit (cursorSkip skip soonestFirst))
    end).

Definition Reservation_findById (id : string) : M (option Reservation.t) :=
  read (fun s =>
    match castObjectId id with
    | None => inl (castError id)
    | Some oid => inr (reservationById oid s)
    end).

(** [.populate("clientId", "name email phone")]: a second query. *)
Definition populate (rs : list Reservation.t) : M (list Reservation.populated) :=
  read (fun s =>
    inr (map (fun r => (r, clientById (Reservation.clientId r) s)) rs)).

Definition populateOne (r : option Reservation.t)
  : M (option Reservation.populated) :=
  match r with
  | None => ret None
  | Some r => ps <- populate [r] ;; ret (hd_error ps)
  end.

Definition new_Reservation (fields : ReservationInput.t) : M ReservationDraft :=
  fun env w => (inr (freshId env, fields), w).

(** [reservationSchema.pre("save")] *)
Definition reservationSchema_preSave (isNew isModifiedClientId : bool)
    (clientId : ObjectId) : M unit :=
  if isNew || isModifiedClientId then
    client <- Client_findById clientId ;;
    match client with
    | None => throw (mkError None "Cliente no encontrado")
    | Some _ => ret tt
    end
  else ret tt.

Definition insertReservation (doc : Reservation.t) (s : Store)
  : Result Reservation.t * Store :=
  if existsb (fun r => sameId (Reservation._id r) (Reservation._id doc))
       (reservations s)
  then (inl (duplicateKey "_id_"), s)
  else (inr doc, mkStore (clients s) (reservations s ++ [doc])).

(** [save()] of a new document: validation, the [pre("save")] hook, the
    insert. *)
Definition Reservation_save (draft : ReservationDraft) : M Reservation.t :=
  let (id, given) := draft in
  let fields := reservationSchema.cast given in
  env <- ask ;;
  match reservationSchema.validate (now env) fields with
  | [] =>
      let clientId := toLowerCase (ReservationInput.clientId fields) in
      reservationSchema_preSave true true clientId ;;
      await (insertReservation
               (Reservation.mk id clientId
                  (ReservationInput.vehicle fields)
                  (ReservationInput.service fields)
                  (orElse (ReservationInput.status fields)
                     reservationSchema.defaultStatus)
                  (ReservationInput.scheduledDate fields)
                  (ReservationInput.notes fields)
                  (now env) (now env)))
  | errs => throw (validationError "Reservation" errs)
  end.

Definition applyReservationPatch (u : ReservationPatch.t) (today : Z)
    (r : Reservation.t) : Reservation.t :=
  Reservation.mk (Reservation._id r)
    (orElse (option_map toLowerCase (ReservationPatch.clientId u))
       (Reservation.clientId r))
    (orElse (ReservationPatch.vehicle u) (Reservation.vehicle r))
    (orElse (ReservationPatch.service u) (Reservation.service r))
    (orElse (ReservationPatch.status u) (Reservation.status r))
    (orElse (ReservationPatch.scheduledDate u) (Reservation.scheduledDate r))
    (match ReservationPatch.notes u with
     | Some n => Some n
     | None => Reservation.notes r
     end)
    (Reservation.createdAt r)
    today.

(** [Reservation.findByIdAndUpdate(id, update, { new: true, runValidators: true })] *)
Definition Reservation_findByIdAndUpdate (id : string) (update : ReservationPatch.t)
  : M (option Reservation.t) :=
  match castObjectId id with
  | None => throw (castError id)
  | Some oid =>
      let u := reservationSchema.castUpdate update in
      env <- ask ;;
      match reservationSchema.validateUpdate (now env) u with
      | [] =>
          await (fun s =>
            match reservationById oid s with
            | None => (inr None, s)
            | Some r =>
                let r' := applyReservationPatch u (now env) r in
                (inr (Some r'),
                 mkStore (clients s)
                   (replaceFirst (fun d => sameId (Reservation._id d) oid) r'
                      (reservations s)))
            end)
      | errs => throw (updateValidationError errs)
      end
  end.

(** ** Responses *)

Definition failure (code : Z) (msg : string) : Response :=
  mkResponse code (JObj [("success", JBool false); ("message", JStr msg)]).

Definition serverError (msg : string) (error : JsError) : Response :=
  mkResponse 500
    (JObj [("success", JBool false); ("message", JStr msg);
           ("error", JStr (message error))]).

Definition pagination (totalKey : string) (page limit total : Z) : Json :=
  JObj [("currentPage", JNum (page * 1));
        ("totalPages", Math_ceil_div total limit);
        (totalKey, JNum total);
        ("hasNext", JBool (page * limit <? total));
        ("hasPrev", JBool (1 <? page))].

(** ** [controllers/clientsController.js] *)

Definition getAllClients (query : ClientsQuery.t) : M Response :=
  try_catch
    (let page := orElse (ClientsQuery.page query) 1 in
     let limit := orElse (ClientsQuery.limit query) 10 in
     let name := ClientsQuery.name query in
     let email := ClientsQuery.email query in
     let filters :=
       mkClientFilter None
         (if truthy_opt name then option_map (fun p => Matches (regexI p)) name
          else None)
         (if truthy_opt email then option_map (fun p => Matches (regexI p)) email
          else None) in
     let skip := (page - 1) * limit in
     found <- Client_find filters (limit * 1) skip ;;
     let clients := map Client.selectMinusPassword found in
     total <- Client_countDocuments filters ;;
     ret (mkResponse 200
            (JObj [("success", JBool true);
                   ("data", JArr (map Client.toJSON clients));
                   ("pagination", pagination "totalClients" page limit total)])))
    (fun error => ret (serverError "Error al obtener los clientes" error)).

Definition getClientById (params : Params) : M Response :=
  try_catch
    (let id := param "id" params in
     if negb (ObjectId_isValid id) then
       ret (failure 400 "ID de cliente no válido")
     else
       found <- Client_findById id ;;
       let client := option_map Client.selectMinusPassword found in
       match client with
       | None => ret (failure 404 "Cliente no encontrado")
       | Some client =>
           ret (mkResponse 200
                  (JObj [("success", JBool true); ("data", Client.toJSON client)]))
       end)
    (fun error => ret (serverError "Error al obtener el cliente" error)).

Definition createClient (body : ClientInput.t) : M Response :=
  try_catch
    (let name := ClientInput.name body in
     let email := ClientInput.email body in
     let password := ClientInput.password body in
     let phone := ClientInput.phone body in
     let age := ClientInput.age body in
     existingClient <- Client_findOne (mkClientFilter None None (Some (Equals email))) ;;
     match existingClient with
     | Some _ => ret (failure 400 "El email ya está registrado")
     | None =>
         newClient <- new_Client (ClientInput.mk name email password phone age) ;;
         savedClient <- Client_save newClient ;;
         ret (mkResponse 201
                (JObj [("success", JBool true);
                       ("message", JStr "Cliente creado exitosamente");
                       ("data", Client.toJSON savedClient)]))
     end)
    (fun error =>
       if match code error with Some c => c =? 11000 | None => false end then
         ret (failure 400 "El email ya está registrado")
       else ret (serverError "Error al crear el cliente" error)).

(** The statements of [updateClient] after its checks: the write and the
    response. *)
Definition updateClient_write (id : string) (updateData : ClientPatch.t)
  : M Response :=
  found <- Client_findByIdAndUpdate id updateData ;;
  let updatedClient := option_map Client.selectMinusPassword found in
  match updatedClient with
  | None => ret (failure 404 "Cliente no encontrado")
  | Some updatedClient =>
      ret (mkResponse 200
             (JObj [("success", JBool true);
                    ("message", JStr "Cliente actualizado exitosamente");
                    ("data", Client.toJSON updatedClient)]))
  end.

Definition updateClient (params : Params) (updateData : ClientPatch.t) : M Response :=
  try_catch
    (let id := param "id" params in
     if negb (ObjectId_isValid id) then
       ret (failure 400 "ID de cliente no válido")
     else if truthy_opt (ClientPatch.email updateData) then
       existingClient <-
         Client_findOne
           (mkClientFilter (Some id) None
              (option_map Equals (ClientPatch.email updateData))) ;;
       match existingClient with
       | Some _ => ret (failure 400 "El email ya está registrado")
       | None => updateClient_write id updateData
       end
     else updateClient_write id updateData)
    (fun error =>
       if match code error with Some c => c =? 11000 | None => false end then
         ret (failure 400 "El email ya está registrado")
       else ret (serverError "Error al actualizar el cliente" error)).

Definition deleteClient (params : Params) : M Response :=
  try_catch
    (let id := param "id" params in
     if negb (ObjectId_isValid id) then
       ret (failure 400 "ID de cliente no válido")
     else
       activeReservations <-
         Reservation_countDocuments
           (mkReservationFilter (Some id)
              (Some (AnyOf ["Pendiente"; "En proceso"]))) ;;
       if activeReservations >? 0 then
         ret (failure 400
                "No se puede eliminar el cliente porque tiene reservas activas")
       else
         deletedClient <- Client_findByIdAndDelete id ;;
         match deletedClient with
         | None => ret (failure 404 "Cliente no encontrado")
         | Some _ =>
             ret (mkResponse 200
                    (JObj [("success", JBool true);
                           ("message", JStr "Cliente eliminado exitosamente")]))
         end)
    (fun error => ret (serverError "Error al eliminar el cliente" error)).

(** ** [controllers/reservationsController.js] *)

Definition createReservation (body : ReservationInput.t) : M Response :=
  try_catch
    (let clientId := ReservationInput.clientId body in
     let vehicle := ReservationInput.vehicle body in
     let service := ReservationInput.service body in
     let scheduledDate := ReservationInput.scheduledDate body in
     let notes := ReservationInput.notes body in
     if negb (ObjectId_isValid clientId) then
       ret (failure 400 "ID de cliente no válido")
     else
       client <- Client_findById clientId ;;
       match client with
       | None => ret (failure 404 "Cliente no encontrado")
       | Some _ =>
           today <- new_Date ;;
           if scheduledDate <=? today then
             ret (failure 400 "La fecha programada debe ser en el futuro")
           else
             newReservation <-
               new_Reservation
                 (ReservationInput.mk clientId vehicle service scheduledDate notes
                    None) ;;
             savedReservation <- Reservation_save newReservation ;;
             found <- Reservation_findById (Reservation._id savedReservation) ;;
             populatedReservation <- populateOne found ;;
             ret (mkResponse 201
                    (JObj [("success", JBool true);
                           ("message", JStr "Reserva creada exitosamente");
                           ("data",
                            match populatedReservation with
                            | Some p => Reservation.toJSON p
                            | None => JNull
                            end)]))
       end)
    (fun error => ret (serverError "Error al crear la reserva" error)).

(** The statements of [updateReservation] after its checks: the write and
    the response. *)
Definition updateReservation_write (id : string) (updateData : ReservationPatch.t)
  : M Response :=
  found <- Reservation_findByIdAndUpdate id updateData ;;
  updatedReservation <- populateOne found ;;
  match updatedReservation with
  | None => ret (failure 404 "Reserva no encontrada")
  | Some updatedReservation =>
      ret (mkResponse 200
             (JObj [("success", JBool true);
                    ("message", JStr "Reserva actualizada exitosamente");
                    ("data", Reservation.toJSON updatedReservation)]))
  end.

(** ... and from the date check on. *)
Definition updateReservation_fromDate (id : string)
    (updateData : ReservationPatch.t) : M Response :=
  match ReservationPatch.scheduledDate updateData with
  | Some scheduledDate =>
      today <- new_Date ;;
      if scheduledDate <=? today then
        ret (failure 400 "La fecha programada debe ser en el futuro")
      else updateReservation_write id updateData
  | None => updateReservation_write id updateData
  end.

Definition updateReservation (params : Params) (updateData : ReservationPatch.t)
  : M Response :=
  try_catch
    (let id := param "id" params in
     if negb (ObjectId_isValid id) then
       ret (failure 400 "ID de reserva no válido")
     else if truthy_opt (ReservationPatch.clientId updateData) then
       let clientId := orElse (ReservationPatch.clientId updateData) "" in
       if negb (ObjectId_isValid clientId) then
         ret (failure 400 "ID de cliente no válido")
       else
         client <- Client_findById clientId ;;
         match client with
         | None => ret (failure 404 "Cliente no encontrado")
         | Some _ => updateReservation_fromDate id updateData
         end
     else updateReservation_fromDate id updateData)
    (fun error => ret (serverError "Error al actualizar la reserva" error)).

Definition getReservationsByClient (params : Params)
    (query : ClientReservationsQuery.t) : M Response :=
  try_catch
    (let clientId := param "clientId" params in
     let status := ClientReservationsQuery.status query in
     let page := orElse (ClientReservationsQuery.page query) 1 in
     let limit := orElse (ClientReservationsQuery.limit query) 10 in
     if negb (ObjectId_isValid clientId) then
       ret (failure 400 "ID de cliente no válido")
     else
       client <- Client_findById clientId ;;
       match client with
       | None => ret (failure 404 "Cliente no encontrado")
       | Some _ =>
           let filters :=
             mkReservationFilter (Some clientId)
               (if truthy_opt status then option_map Equals status else None) in
           let skip := (page - 1) * limit in
           found <- Reservation_find filters (limit * 1) skip ;;
           reservations <- populate found ;;
           total <- Reservation_countDocuments filters ;;
           ret (mkResponse 200
                  (JObj [("success", JBool true);
                         ("data", JArr (map Reservation.toJSON reservations));
                         ("pagination",
                          pagination "totalReservations" page limit total)]))
       end)
    (fun error => ret (serverError "Error al obtener las reservas del cliente" error)).

(** ** [controllers/reservationsController.js], the other handlers *)

Definition reservationListMatches (f : ReservationListFilter) (r : Reservation.t)
  : bool :=
  reservationMatches (whereReservation f) r
  && holdsOpt (fun x => x) (whereService f) (Reservation.service r)
  && match whereFrom f with
     | Some date => date <=? Reservation.scheduledDate r
     | None => true
     end
  && match whereTo f with
     | Some date => Reservation.scheduledDate r <=? date
     | None => true
     end.

Definition selectReservationList (f : ReservationListFilter) (s : Store)
  : Result (list Reservation.t) :=
  match castId (whereClientId (whereReservation f)) with
  | Some e => inl e
  | None => inr (filter (reservationListMatches f) (reservations s))
  end.

(** [Reservation.find(f).limit(limit).skip(skip).sort({ scheduledDate: 1 })],
    for the filter of the listing. *)
Definition Reservation_findWhere (f : ReservationListFilter) (limit skip : Z)
  : M (list Reservation.t) :=
  read (fun s =>
    match selectReservationList f s with
    | inl e => inl e
    | inr rs =>
        if skip <? 0 then inl negativeSkip
        else
          let soonestFirst :=
            sortBy (fun a b =>
                      Reservation.scheduledDate a <=? Reservation.scheduledDate b) rs in
          inr (cursorLimit limit (cursorSkip skip soonestFirst))
    end).

Definition Reservation_countWhere (f : ReservationListFilter) : M Z :=
  read (fun s =>
    match selectReservationList f s with
    | inl e => inl e
    | inr rs => inr (Z.of_nat (length rs))
    end).

Definition Reservation_findByIdAndDelete (id : string) : M (option Reservation.t) :=
  match castObjectId id with
  | None => throw (castError id)
  | Some oid =>
      await (fun s =>
        match reservationById oid s with
        | None => (inr None, s)
        | Some r =>
            (inr (Some r),
             mkStore (clients s)
               (removeFirst (fun d => sameId (Reservation._id d) oid)
                  (reservations s)))
        end)
  end.

(** The statements of [getAllReservations] after the filter on the client
    is settled. *)
Definition getAllReservations_list (query : ReservationsQuery.t)
    (clientId : option string) : M Response :=
  let page := orElse (ReservationsQuery.page query) 1 in
  let limit := orElse (ReservationsQuery.limit query) 10 in
  let status := ReservationsQuery.status query in
  let service := ReservationsQuery.service query in
  let filters :=
    mkReservationListFilter
      (mkReservationFilter clientId
         (if truthy_opt status then option_map Equals status else None))
      (if truthy_opt service then option_map (fun p => Matches (regexI p)) service
       else None)
      (ReservationsQuery.startDate query)
      (ReservationsQuery.endDate query) in
  let skip := (page - 1) * limit in
  found <- Reservation_findWhere filters (limit * 1) skip ;;
  reservations <- populate found ;;
  total <- Reservation_countWhere filters ;;
  ret (mkResponse 200
         (JObj [("success", JBool true);
                ("data", JArr (map Reservation.toJSON reservations));
                ("pagination", pagination "totalReservations" page limit total)])).

Definition getAllReservations (query : ReservationsQuery.t) : M Response :=
  try_catch
    (let clientId := ReservationsQuery.clientId query in
     if truthy_opt clientId then
       if negb (ObjectId_isValid (orElse clientId "")) then
         ret (failure 400 "ID de cliente no válido")
       else getAllReservations_list query clientId
     else getAllReservations_list query None)
    (fun error => ret (serverError "Error al obtener las reservas" error)).

Definition getReservationById (params : Params) : M Response :=
  try_catch
    (let id := param "id" params in
     if negb (ObjectId_isValid id) then
       ret (failure 400 "ID de reserva no válido")
     else
       found <- Reservation_findById id ;;
       reservation <- populateOne found ;;
       match reservation with
       | None => ret (failure 404 "Reserva no encontrada")
       | Some reservation =>
           ret (mkResponse 200
                  (JObj [("success", JBool true);
                         ("data", Reservation.toJSON reservation)]))
       end)
    (fun error => ret (serverError "Error al obtener la reserva" error)).

Definition deleteReservation (params : Params) : M Response :=
  try_catch
    (let id := param "id" params in
     if negb (ObjectId_isValid id) then
       ret (failure 400 "ID de reserva no válido")
     else
       deletedReservation <- Reservation_findByIdAndDelete id ;;
       match deletedReservation with
       | None => ret (failure 404 "Reserva no encontrada")
       | Some _ =>
           ret (mkResponse 200
                  (JObj [("success", JBool true);
                         ("message", JStr "Reserva eliminada exitosamente")]))
       end)
    (fun error => ret (serverError "Error al eliminar la reserva" error)).

(** ** [middlewares/validation.js] *)

(** A middleware either responds or calls [next()]. *)
Definition Middleware : Type := M (option Response).

(** [handleValidationErrors], on the errors the chain before it found. *)
Definition handleValidationErrors (errors : list Json) : option Response :=
  match errors with
  | [] => None
  | _ =>
      Some (mkResponse 400
              (JObj [("success", JBool false);
                     ("message", JStr "Errores de validación");
                     ("errors", JArr errors)]))
  end.

(** [param("id").isMongoId().withMessage("ID no válido")] *)
Definition param_id_isMongoId (params : Params) : list Json :=
  if isMongoId (param "id" params) then []
  else [fieldError (bound "id" params) "ID no válido" "id" "params"].

Definition validateId (params : Params) : Middleware :=
  ret (handleValidationErrors (param_id_isMongoId params)).

Definition checkEmailUnique (params : Params) (body : ClientPatch.t) : Middleware :=
  try_catch
    (let email := ClientPatch.email body in
     let id := param "id" params in
     if truthy_opt email then
       existingClient <-
         Client_findOne (mkClientFilter None None (option_map Equals email)) ;;
       match existingClient with
       | Some existingClient =>
           if negb (Client._id existingClient =? id)%string then
             ret (Some (failure 400 "El email ya está registrado"))
           else ret None
       | None => ret None
       end
     else ret None)
    (fun error => ret (Some (serverError "Error del servidor" error))).

(** ** [routes/clients.js], [routes/reservations.js] *)

(** [router.METHOD(path, m1, ..., handler)]: the first middleware that
    responds ends the request. *)
Definition through (m : Middleware) (next : M Response) : M Response :=
  answered <- m ;;
  match answered with
  | Some response => ret response
  | None => next
  end.

(** [router.get("/:id", validateId, getClientById)] *)
Definition GET_clients_id (id : string) : M Response :=
  let params := [("id", id)] in
  through (validateId params) (getClientById params).

(** [router.put("/:id", validateId, validateClientUpdate, checkEmailUnique,
    updateClient)], from [checkEmailUnique] on: [body] is what
    [validateClientUpdate] let through. *)
Definition PUT_clients_id (id : string) (body : ClientPatch.t) : M Response :=
  let params := [("id", id)] in
  through (validateId params)
    (through (checkEmailUnique params body) (updateClient params body)).

(** [router.delete("/:id", validateId, deleteClient)] *)
Definition DELETE_clients_id (id : string) : M Response :=
  let params := [("id", id)] in
  through (validateId params) (deleteClient params).

(** [router.get("/client/:clientId", validateId, getReservationsByClient)] *)
Definition GET_reservations_client_clientId (clientId : string)
    (query : ClientReservationsQuery.t) : M Response :=
  let params := [("clientId", clientId)] in
  through (validateId params) (getReservationsByClient params query).




End Api.

(* ---------------------------------------------------------------------- *)
(** * Vocabulary of the specification                                       *)
(* ---------------------------------------------------------------------- *)

(** The error taxonomy, as the responses that carry it. *)
Definition DuplicateEmail : Response := failure 400 "El email ya está registrado".
Definition InvalidReference : Response := failure 400 "ID de cliente no válido".
Definition ClientNotFound : Response := failure 404 "Cliente no encontrado".
Definition InvalidDate : Response :=
  failure 400 "La fecha programada debe ser en el futuro".
Definition HasActiveReservations : Response :=
  failure 400 "No se puede eliminar el cliente porque tiene reservas activas".

Definition ClientDeleted : Response :=
  mkResponse 200
    (JObj [("success", JBool true);
           ("message", JStr "Cliente eliminado exitosamente")]).

Definition ClientUpdated (c : Client.t) : Response :=
  mkResponse 200
    (JObj [("success", JBool true);
           ("message", JStr "Cliente actualizado exitosamente");
           ("data", Client.toJSON (Client.selectMinusPassword c))]).

Definition ClientCreated (c : Client.t) : Response :=
  mkResponse 201
    (JObj [("success", JBool true);
           ("message", JStr "Cliente creado exitosamente");
           ("data", Client.toJSON c)]).

Definition ClientFound (c : Client.t) : Response :=
  mkResponse 200
    (JObj [("success", JBool true);
           ("data", Client.toJSON (Client.selectMinusPassword c))]).

Definition ReservationCreated (p : Reservation.populated) : Response :=
  mkResponse 201
    (JObj [("success", JBool true);
           ("message", JStr "Reserva creada exitosamente");
           ("data", Reservation.toJSON p)]).

Definition ReservationUpdated (p : Reservation.populated) : Response :=
  mkResponse 200
    (JObj [("success", JBool true);
           ("message", JStr "Reserva actualizada exitosamente");
           ("data", Reservation.toJSON p)]).

Definition ReservationNotFound : Response := failure 404 "Reserva no encontrada".

(** The normalized form of an email: what the schema stores for it. *)
Definition normalized (email : string) : string := clientSchema.setEmail email.

(** An active reservation: one whose status is Pending or In progress. *)
Definition isActive (r : Reservation.t) : bool :=
  ((Reservation.status r =? "Pendiente") || (Reservation.status r =? "En proceso"))%string.

(** The active reservations a client owns. *)
Definition activeReservationsOf (client : ObjectId) (s : Store) : list Reservation.t :=
  filter (fun r => sameId (Reservation.clientId r) client && isActive r)
    (reservations s).

(** The reservations a client owns. *)
Definition reservationsOf (client : ObjectId) (s : Store) : list Reservation.t :=
  filter (fun r => sameId (Reservation.clientId r) client) (reservations s).

(** The store without one client. *)
Definition withoutClient (oid : ObjectId) (s : Store) : Store :=
  mkStore (removeFirst (fun d => sameId (Client._id d) oid) (clients s))
    (reservations s).

(** The store with one client replaced. *)
Definition withClient (oid : ObjectId) (c : Client.t) (s : Store) : Store :=
  mkStore (replaceFirst (fun d => sameId (Client._id d) oid) c (clients s))
    (reservations s).

(** The store with one reservation replaced. *)
Definition withReservation (oid : ObjectId) (r : Reservation.t) (s : Store) : Store :=
  mkStore (clients s)
    (replaceFirst (fun d => sameId (Reservation._id d) oid) r (reservations s)).

(** The check of the client reference on a reservation update: made when
    the patch carries a reference, passed when the reference is a valid
    identifier of a client of the store. *)
Definition referenceResolves (clientId : option string) (s : Store) : bool :=
  match clientId with
  | Some id =>
      if truthy id then
        ObjectId_isValid id
        && match clientById (toLowerCase id) s with Some _ => true | None => false end
      else true
  | None => true
  end.

(** The document [createClient] inserts for a body. *)
Definition newClientDoc (bcrypt_hash : string -> string -> string) (env : Env)
    (body : ClientInput.t) : Client.t :=
  Client.mk (freshId env)
    (clientSchema.setName (ClientInput.name body))
    (clientSchema.setEmail (ClientInput.email body))
    (Some (bcrypt_hash (ClientInput.password body) (salt env)))
    (clientSchema.setPhone (ClientInput.phone body))
    (ClientInput.age body) (now env) (now env).

(** The document [createReservation] inserts for a body. *)
Definition newReservationDoc (env : Env) (body : ReservationInput.t) : Reservation.t :=
  Reservation.mk (freshId env)
    (toLowerCase (ReservationInput.clientId body))
    (trim (ReservationInput.vehicle body))
    (trim (ReservationInput.service body))
    reservationSchema.defaultStatus
    (ReservationInput.scheduledDate body)
    (option_map trim (ReservationInput.notes body))
    (now env) (now env).

(** What [createReservation] passes to [new Reservation]: the body without
    its status. *)
Definition constructorArguments (body : ReservationInput.t) : ReservationInput.t :=
  ReservationInput.mk (ReservationInput.clientId body)
    (ReservationInput.vehicle body) (ReservationInput.service body)
    (ReservationInput.scheduledDate body) (ReservationInput.notes body) None.

Definition idTaken (oid : ObjectId) (s : Store) : bool :=
  existsb (fun c => sameId (Client._id c) oid) (clients s).

Definition emailHeld (email : string) (s : Store) : bool :=
  existsb (fun c => (Client.email c =? email)%string) (clients s).

(** The filter [getAllClients] builds from a query, and the clients it
    lists: those that match, newest first. *)
Definition listingFilter (regexI : string -> string -> bool) (query : ClientsQuery.t)
  : ClientFilter :=
  mkClientFilter None
    (if truthy_opt (ClientsQuery.name query)
     then option_map (fun p => Matches (regexI p)) (ClientsQuery.name query)
     else None)
    (if truthy_opt (ClientsQuery.email query)
     then option_map (fun p => Matches (regexI p)) (ClientsQuery.email query)
     else None).

Definition newestFirst (cs : list Client.t) : list Client.t :=
  sortBy (fun a b => Client.createdAt b <=? Client.createdAt a) cs.

Definition matchingClients (regexI : string -> string -> bool)
    (query : ClientsQuery.t) (s : Store) : list Client.t :=
  newestFirst (filter (clientMatches (listingFilter regexI query)) (clients s)).

Definition ClientsListed (cs : list Client.t) (pagination : Json) : Response :=
  mkResponse 200
    (JObj [("success", JBool true);
           ("data", JArr (map Client.toJSON (map Client.selectMinusPassword cs)));
           ("pagination", pagination)]).

(** The filter [getReservationsByClient] builds, and the reservations it
    lists: those of the client (with the status asked for, if any), soonest
    first. *)
Definition clientReservationsFilter (clientId : string)
    (query : ClientReservationsQuery.t) : ReservationFilter :=
  mkReservationFilter (Some clientId)
    (if truthy_opt (ClientReservationsQuery.status query)
     then option_map Equals (ClientReservationsQuery.status query)
     else None).

Definition soonestFirst (rs : list Reservation.t) : list Reservation.t :=
  sortBy (fun a b => Reservation.scheduledDate a <=? Reservation.scheduledDate b) rs.

Definition ReservationsListed (rs : list Reservation.populated) (pagination : Json)
  : Response :=
  mkResponse 200
    (JObj [("success", JBool true);
           ("data", JArr (map Reservation.toJSON rs));
           ("pagination", pagination)]).

(** The response of [handleValidationErrors] to a chain that found
    errors, and the error [validateId] finds: on a route that binds no
    [id], and on one that binds it. *)
Definition ValidationFailed (errors : list Json) : Response :=
  mkResponse 400
    (JObj [("success", JBool false);
           ("message", JStr "Errores de validación");
           ("errors", JArr errors)]).

Definition idNotValid : Json := fieldError None "ID no válido" "id" "params".


(** The field of a response body, and of its [data] object. *)
Definition bodyField (k : string) (r : Response) : option Json :=
  match json r with JObj o => get k o | _ => None end.

Definition dataField (k : string) (r : Response) : option Json :=
  match bodyField "data" r with Some (JObj o) => get k o | _ => None end.

(** The unique index on [email], as a property of a store. *)
Definition emailsUnique (s : Store) : Prop :=
  forall c d, In c (clients s) -> In d (clients s) ->
    Client.email c = Client.email d -> Client._id c = Client._id d.

(** The other requests in flight leave the store alone. *)
Definition quiet : Store -> Store := fun s => s.

(** The world of a request served with no other request in flight. *)
Definition alone (s : Store) : World := mkWorld s [].

(** The update of [c] into [c'] changes the email to one that another
    client of the store holds. *)
Definition emailTaken (oid : ObjectId) (c c' : Client.t) (s : Store) : bool :=
  negb (Client.email c' =? Client.email c)%string
  && existsb (fun d => negb (sameId (Client._id d) oid)
                       && (Client.email d =? Client.email c')%string) (clients s).

(* ---------------------------------------------------------------------- *)
(** * Sample data                                                           *)
(* ---------------------------------------------------------------------- *)

(** A stand-in for [bcrypt.hash] and one for the store's regular
    expressions, to run the handlers on the samples below. *)
Definition sampleHash (password salt : string) : string :=
  "$2a$10$" ++ salt ++ reverse password.

Fixpoint startsWith (p s : string) : bool :=
  match p, s with
  | EmptyString, _ => true
  | String a p', String b s' => Ascii.eqb a b && startsWith p' s'
  | _, _ => false
  end.

Fixpoint includes (p s : string) : bool :=
  startsWith p s || match s with EmptyString => false | String _ s' => includes p s' end.

Definition sampleRegexI (pattern subject : string) : bool :=
  includes (toLowerCase pattern) (toLowerCase subject).

Definition anaId : ObjectId := "507f1f77bcf86cd799439011".
Definition luisId : ObjectId := "507f1f77bcf86cd799439012".
Definition bookingId : ObjectId := "60f7b1b3b3f3b3f3b3f3b3f4".

Definition morning : Env := mkEnv 1000 "N9qo8uLOickgx2ZMRZoMye" anaId.
Definition noon : Env := mkEnv 2000 "IjZAgcfl7p92ldGxad68LJ" luisId.
Definition evening : Env := mkEnv 3000 "e0MYzXyjpJS7Pd0RVvHwHe" bookingId.

Definition anaRuiz : ClientInput.t :=
  ClientInput.mk "Ana Ruiz" "ana@x.com" "123456" "+573000000" 25.

Definition luisDiaz : ClientInput.t :=
  ClientInput.mk "Luis Diaz" "luis@x.com" "abcdef" "+573000001" 40.

Definition empty : Store := mkStore [] [].

(** The store after Ana registered in the morning. *)
Definition withAna : Store := snd (serve (createClient sampleHash anaRuiz) morning empty).

(** ... and Luis at noon. *)
Definition withAnaAndLuis : Store :=
  snd (serve (createClient sampleHash luisDiaz) noon withAna).

Definition oilChange : ReservationInput.t :=
  ReservationInput.mk anaId "Toyota Corolla 2020" "Cambio de aceite" 5000 None None.

(** The same request for a date that has passed by the evening. *)
Definition oilChangeLate : ReservationInput.t :=
  ReservationInput.mk anaId "Toyota Corolla 2020" "Cambio de aceite" 1000 None None.

(** The same request, sent with a status. *)
Definition oilChangeDone : ReservationInput.t :=
  ReservationInput.mk anaId "Toyota Corolla 2020" "Cambio de aceite" 5000 None
    (Some "Completado").

Definition newPassword : ClientPatch.t :=
  ClientPatch.mk None None (Some "newsecret") None None.

Definition newPhone : ClientPatch.t :=
  ClientPatch.mk None None None (Some "+573009999") None.

Definition toAnasEmail : ClientPatch.t :=
  ClientPatch.mk None (Some "ana@x.com") None None None.

Definition toYesterday : ReservationPatch.t :=
  ReservationPatch.mk None None None None (Some 1000) None.

Definition toCompleted : ReservationPatch.t :=
  ReservationPatch.mk None None None (Some "Completado") None None.

(** The store after Luis alone registered at noon. *)
Definition withLuis : Store := snd (serve (createClient sampleHash luisDiaz) noon empty).

(** ... and Ana booked an oil change in the evening. *)
Definition withBooking : Store :=
  snd (serve (createReservation oilChange) evening withAna).

Definition digit (n : nat) : ascii := ascii_of_nat (48 + n mod 10).

Definition twoDigits (n : nat) : string :=
  String (digit (n / 10)) (String (digit n) EmptyString).

(** Newest first, [n] clients registered at times [n], ..., [1]. *)
Fixpoint registered (n : nat) : list Client.t :=
  match n with
  | O => []
  | S k =>
      Client.mk ("60f7b1b3b3f3b3f3b3f3b3" ++ twoDigits n)
        ("Cliente " ++ twoDigits n) ("c" ++ twoDigits n ++ "@x.com")
        (Some "$2a$10$") "+573000000" 30 (Z.of_nat n) (Z.of_nat n)
      :: registered k
  end.

(** A store of 25 clients. *)
Definition crowded : Store := mkStore (registered 25) [].

(** Ana's document. *)
Definition ana : Client.t := newClientDoc sampleHash morning anaRuiz.

(** Ana's identifier, spelled in upper case. *)
Definition anaIdUpper : string := "507F1F77BCF86CD799439011".

(** Another request registers Ana while this one is between its check and
    its write. *)
Definition anaRegisters : Store -> Store :=
  fun s => snd (serve (createClient sampleHash anaRuiz) morning s).

(* ---------------------------------------------------------------------- *)
(** * Vocabulary of the properties of the code                              *)
(* ---------------------------------------------------------------------- *)

Definition ReservationFound (p : Reservation.populated) : Response :=
  mkResponse 200
    (JObj [("success", JBool true); ("data", Reservation.toJSON p)]).

Definition ReservationDeleted : Response :=
  mkResponse 200
    (JObj [("success", JBool true);
           ("message", JStr "Reserva eliminada exitosamente")]).

Definition InvalidReservationId : Response := failure 400 "ID de reserva no válido".

Definition InvalidClientId : Response := failure 400 "ID de cliente no válido".

(** The store without one reservation. *)
Definition withoutReservation (oid : ObjectId) (s : Store) : Store :=
  mkStore (clients s)
    (removeFirst (fun d => sameId (Reservation._id d) oid) (reservations s)).

(** A reservation with the client its reference resolves to in a store. *)
Definition populatedIn (s : Store) (r : Reservation.t) : Reservation.populated :=
  (r, clientById (Reservation.clientId r) s).

(** The filter [getAllReservations] builds from a query. *)
Definition listingFilterOf (regexI : string -> string -> bool)
    (query : ReservationsQuery.t) : ReservationListFilter :=
  mkReservationListFilter
    (mkReservationFilter
       (if truthy_opt (ReservationsQuery.clientId query)
        then ReservationsQuery.clientId query else None)
       (if truthy_opt (ReservationsQuery.status query)
        then option_map Equals (ReservationsQuery.status query) else None))
    (if truthy_opt (ReservationsQuery.service query)
     then option_map (fun p => Matches (regexI p)) (ReservationsQuery.service query)
     else None)
    (ReservationsQuery.startDate query)
    (ReservationsQuery.endDate query).

(** A program that leaves the store as it found it, when it runs alone. *)
Definition readOnly {A} (m : M A) : Prop :=
  forall env s, snd (m env (alone s)) = alone s.

Definition reservationIdTaken (oid : ObjectId) (s : Store) : bool :=
  existsb (fun r => sameId (Reservation._id r) oid) (reservations s).

(** The store with one more reservation. *)
Definition withNewReservation (r : Reservation.t) (s : Store) : Store :=
  mkStore (clients s) (reservations s ++ [r]).

(** The store with one more client. *)
Definition withNewClient (c : Client.t) (s : Store) : Store :=
  mkStore (clients s ++ [c]) (reservations s).

(** The outcomes of the two update handlers on a store, served alone: the
    response and the store that is left. *)
Definition updateClient_written (id : string) (u : ClientPatch.t) (env : Env)
    (s : Store) : option Response * Store :=
  match clientSchema.validateUpdate (clientSchema.castUpdate u) with
  | [] =>
      match clientById (toLowerCase id) s with
      | None => (Some ClientNotFound, s)
      | Some c =>
          let c' := applyClientPatch (clientSchema.castUpdate u) (now env) c in
          if emailTaken (toLowerCase id) c c' s then (Some DuplicateEmail, s)
          else (Some (ClientUpdated c'), withClient (toLowerCase id) c' s)
      end
  | errs =>
      (Some (serverError "Error al actualizar el cliente"
               (updateValidationError errs)), s)
  end.

(** Some client other than [id] holds the email of the patch. *)
Definition emailHeldByOther (id : string) (u : ClientPatch.t) (s : Store) : bool :=
  if truthy_opt (ClientPatch.email u) then
    match hd_error (filter (clientMatches
                              (mkClientFilter (Some id) None
                                 (option_map Equals (ClientPatch.email u))))
                      (clients s)) with
    | Some _ => true
    | None => false
    end
  else false.

Definition updateClient_outcome (id : string) (u : ClientPatch.t) (env : Env)
    (s : Store) : option Response * Store :=
  if negb (ObjectId_isValid id) then (Some InvalidClientId, s)
  else if emailHeldByOther id u s then (Some DuplicateEmail, s)
  else updateClient_written id u env s.

Definition updateReservation_written (id : string) (u : ReservationPatch.t)
    (env : Env) (s : Store) : option Response * Store :=
  match reservationSchema.validateUpdate (now env) (reservationSchema.castUpdate u) with
  | [] =>
      match reservationById (toLowerCase id) s with
      | None => (Some ReservationNotFound, s)
      | Some r =>
          let r' := applyReservationPatch (reservationSchema.castUpdate u) (now env) r in
          let s' := withReservation (toLowerCase id) r' s in
          (Some (ReservationUpdated (populatedIn s' r')), s')
      end
  | errs =>
      (Some (serverError "Error al actualizar la reserva"
               (updateValidationError errs)), s)
  end.

Definition updateReservation_outcome (id : string) (u : ReservationPatch.t)
    (env : Env) (s : Store) : option Response * Store :=
  if negb (ObjectId_isValid id) then (Some InvalidReservationId, s)
  else if referenceResolves (ReservationPatch.clientId u) s then
    match ReservationPatch.scheduledDate u with
    | Some date =>
        if date <=? now env then (Some InvalidDate, s)
        else updateReservation_written id u env s
    | None => updateReservation_written id u env s
    end
  else if ObjectId_isValid (orElse (ReservationPatch.clientId u) "")
  then (Some ClientNotFound, s)
  else (Some InvalidReference, s).

(** A program that, run alone, takes a store to one related to it by [R]. *)
Definition keeps (R : Store -> Store -> Prop) {A} (m : M A) : Prop :=
  forall env s, exists s', snd (m env (alone s)) = alone s' /\ R s s'.

Definition sameReservations (s s' : Store) : Prop := reservations s' = reservations s.

Definition sameClients (s s' : Store) : Prop := clients s' = clients s.

(** A call of one of the handlers, and the handler it reaches. *)
Inductive Call : Type :=
| GetAllClients (query : ClientsQuery.t)
| GetClientById (params : Params)
| CreateClient (body : ClientInput.t)
| UpdateClient (params : Params) (body : ClientPatch.t)
| DeleteClient (params : Params)
| GetAllReservations (query : ReservationsQuery.t)
| GetReservationById (params : Params)
| CreateReservation (body : ReservationInput.t)
| UpdateReservation (params : Params) (body : ReservationPatch.t)
| DeleteReservation (params : Params)
| GetReservationsByClient (params : Params) (query : ClientReservationsQuery.t).

Definition handler (bcrypt_hash : string -> string -> string)
    (regexI : string -> string -> bool) (call : Call) : M Response :=
  match call with
  | GetAllClients query => getAllClients regexI query
  | GetClientById params => getClientById params
  | CreateClient body => createClient bcrypt_hash body
  | UpdateClient params body => updateClient params body
  | DeleteClient params => deleteClient params
  | GetAllReservations query => getAllReservations regexI query
  | GetReservationById params => getReservationById params
  | CreateReservation body => createReservation body
  | UpdateReservation params body => updateReservation params body
  | DeleteReservation params => deleteReservation params
  | GetReservationsByClient params query => getReservationsByClient params query
  end.

(** The store after a sequence of calls served one after the other, each
    with its own reading of the environment. *)
Fixpoint served (bcrypt_hash : string -> string -> string)
    (regexI : string -> string -> bool) (calls : list (Env * Call)) (s : Store)
  : Store :=
  match calls with
  | [] => s
  | (env, call) :: rest =>
      served bcrypt_hash regexI rest
        (snd (serve (handler bcrypt_hash regexI call) env s))
  end.

(** A write of another request that keeps a property of the store. *)
Definition preserves (I : Store -> Prop) (g : Store -> Store) : Prop :=
  forall s, I s -> I (g s).

(** A world whose store has the property [I] and whose pending writes keep
    it. *)
Definition safe (I : Store -> Prop) (w : World) : Prop :=
  I (store w) /\ Forall (preserves I) (pending w).

(** A program that keeps [I], whatever other writes that keep [I] land
    between its store operations. *)
Definition invariant (I : Store -> Prop) {A} (m : M A) : Prop :=
  forall env w, safe I w -> safe I (snd (m env w)).

(** The unique indexes of the two collections. *)
Definition clientIdsUnique (s : Store) : Prop := NoDup (map Client._id (clients s)).

Definition reservationIdsUnique (s : Store) : Prop :=
  NoDup (map Reservation._id (reservations s)).

Definition uniqueKeys (s : Store) : Prop :=
  emailsUnique s /\ clientIdsUnique s /\ reservationIdsUnique s.

(** What the schemas demand of a stored document. *)
Definition clientAccepted (c : Client.t) : bool :=
  (2 <=? len (Client.name c)) && (len (Client.name c) <=? 50)
  && test emailPattern (Client.email c)
  && test phonePattern (Client.phone c)
  && (18 <=? Client.age c) && (Client.age c <=? 120).

Definition reservationAccepted (r : Reservation.t) : bool :=
  ObjectId_isValid (Reservation.clientId r)
  && (2 <=? len (Reservation.vehicle r)) && (len (Reservation.vehicle r) <=? 100)
  && reservationSchema.oneOf reservationSchema.services (Reservation.service r)
  && reservationSchema.oneOf reservationSchema.statuses (Reservation.status r)
  && match Reservation.notes r with Some n => len n <=? 500 | None => true end.

Definition schemasHold (s : Store) : Prop :=
  Forall (fun c => clientAccepted c = true
                   /\ normalized (Client.email c) = Client.email c) (clients s)
  /\ Forall (fun r => reservationAccepted r = true) (reservations s).

(** A text of ASCII characters: its length in code units is its length in
    bytes, and [trim] and [toLowerCase] do to it what they do here. *)
Definition isAscii (s : string) : bool :=
  allChars (fun c => Nat.ltb (charCode c) 128) s.

Definition asciiOpt (o : option string) : bool :=
  match o with Some s => isAscii s | None => true end.

(** A service in ASCII, or one of the services of the schema as it is
    written there. *)
Definition plainService (s : string) : bool :=
  isAscii s || reservationSchema.oneOf reservationSchema.services s.

(** A call whose body has its texts in ASCII.  (The body of an update is,
    by its type, a set of fields of the schema; a body made of update
    operators is not one.) *)
Definition plainCall (call : Call) : bool :=
  match call with
  | CreateClient body =>
      isAscii (ClientInput.name body) && isAscii (ClientInput.email body)
      && isAscii (ClientInput.password body) && isAscii (ClientInput.phone body)
  | UpdateClient _ body =>
      asciiOpt (ClientPatch.name body) && asciiOpt (ClientPatch.email body)
      && asciiOpt (ClientPatch.password body) && asciiOpt (ClientPatch.phone body)
  | CreateReservation body =>
      isAscii (ReservationInput.clientId body) && isAscii (ReservationInput.vehicle body)
      && plainService (ReservationInput.service body)
      && asciiOpt (ReservationInput.notes body)
  | UpdateReservation _ body =>
      asciiOpt (ReservationPatch.clientId body)
      && asciiOpt (ReservationPatch.vehicle body)
      && match ReservationPatch.service body with
         | Some service => plainService service
         | None => true
         end
      && asciiOpt (ReservationPatch.status body)
      && asciiOpt (ReservationPatch.notes body)
  | _ => true
  end.

Definition isUpdate (call : Call) : bool :=
  match call with
  | UpdateClient _ _ => true
  | UpdateReservation _ _ => true
  | _ => false
  end.

(** The characters a regular expression can read, and, for one without a
    star, the length of the longest string it accepts. *)
Fixpoint occurs (r : regex) (c : ascii) : bool :=
  match r with
  | Void => false
  | Eps => false
  | Chr p => p c
  | Cat a b => occurs a c || occurs b c
  | Alt a b => occurs a c || occurs b c
  | Star a => occurs a c
  end.

Fixpoint starFree (r : regex) : bool :=
  match r with
  | Void => true
  | Eps => true
  | Chr _ => true
  | Cat a b => starFree a && starFree b
  | Alt a b => starFree a && starFree b
  | Star _ => false
  end.

Fixpoint width (r : regex) : nat :=
  match r with
  | Void => 0
  | Eps => 0
  | Chr _ => 1
  | Cat a b => width a + width b
  | Alt a b => Nat.max (width a) (width b)
  | Star _ => 0
  end.

(** The characters of an email and of a phone number. *)
Definition emailChar (c : ascii) : bool :=
  isWord c || Ascii.eqb c "." || Ascii.eqb c "-" || Ascii.eqb c "@".

Definition phoneChar (c : ascii) : bool := isDigit c || Ascii.eqb c "+".

(** A request that was refused: answered with a status from 400 up. *)
Definition refused (o : option Response) : Prop :=
  match o with
  | Some r => 400 <= status r
  | None => True
  end.

(** A request that was turned down by a check of the handler: answered 400
    or 404. *)
Definition turnedDown (o : option Response) : Prop :=
  match o with
  | Some r => status r = 400 \/ status r = 404
  | None => False
  end.

(** The reservations [getAllReservations] lists for a query: those that
    match its filter, soonest first. *)
Definition matchingReservations (regexI : string -> string -> bool)
    (query : ReservationsQuery.t) (s : Store) : list Reservation.t :=
  soonestFirst
    (filter (reservationListMatches (listingFilterOf regexI query)) (reservations s)).

(** The records of a listing: the array under [data]. *)
Definition listed (o : option Response) : list Json :=
  match o with
  | Some r => match bodyField "data" r with Some (JArr l) => l | _ => [] end
  | None => []
  end.

(** A query for another page of the same listing. *)
Definition clientsPage (query : ClientsQuery.t) (page : Z) : ClientsQuery.t :=
  ClientsQuery.mk (Some page) (ClientsQuery.limit query) (ClientsQuery.name query)
    (ClientsQuery.email query).

Definition reservationsPage (query : ReservationsQuery.t) (page : Z)
  : ReservationsQuery.t :=
  ReservationsQuery.mk (Some page) (ReservationsQuery.limit query)
    (ReservationsQuery.clientId query) (ReservationsQuery.status query)
    (ReservationsQuery.service query) (ReservationsQuery.startDate query)
    (ReservationsQuery.endDate query).

(** The filter on the client of a listing of reservations is absent (or
    empty), or an identifier. *)
Definition clientFilterValid (query : ReservationsQuery.t) : bool :=
  negb (truthy_opt (ReservationsQuery.clientId query))
  || ObjectId_isValid (orElse (ReservationsQuery.clientId query) "").

(** The status a request was answered with, and the [data] of the answer. *)
Definition answered (code : Z) (o : option Response) : bool :=
  match o with
  | Some r => status r =? code
  | None => false
  end.

Definition dataOf (o : option Response) : option Json :=
  match o with
  | Some r => bodyField "data" r
  | None => None
  end.

(** A JSON value that has the key [k] in some object, at any depth. *)
Fixpoint mentions (k : string) (j : Json) : bool :=
  match j with
  | JArr l =>
      (fix any (l : list Json) : bool :=
         match l with
         | [] => false
         | x :: r => mentions k x || any r
         end) l
  | JObj o =>
      (fix any (o : list (string * Json)) : bool :=
         match o with
         | [] => false
         | (k', v) :: r => (k' =? k)%string || mentions k v || any r
         end) o
  | _ => false
  end.

(** A program all of whose results, under every interleaving, have the
    property [P]. *)
Definition yields {A} (P : A -> Prop) (m : M A) : Prop :=
  forall env w a w', m env w = (inr a, w') -> P a.

(** A field of the [pagination] object of an answer. *)
Definition paginationField (k : string) (o : option Response) : option Json :=
  match o with
  | Some r => match bodyField "pagination" r with Some (JObj p) => get k p | _ => None end
  | None => None
  end.

Definition isEmpty {A} (l : list A) : bool :=
  match l with [] => true | _ => false end.

(** No number occurs twice. *)
Fixpoint distinct (l : list Z) : bool :=
  match l with
  | [] => true
  | x :: r => negb (existsb (Z.eqb x) r) && distinct r
  end.

(* ---------------------------------------------------------------------- *)
(** * More sample data                                                      *)
(* ---------------------------------------------------------------------- *)

(** Ana's booking, as stored, and after the workshop completed it. *)
Definition booking : Reservation.t := newReservationDoc evening oilChange.

Definition bookingDone : Reservation.t :=
  applyReservationPatch (reservationSchema.castUpdate toCompleted) (now evening) booking.

(** The store after Ana's booking was completed. *)
Definition settled : Store :=
  snd (serve (updateReservation [("id", bookingId)] toCompleted) evening withBooking).

(** A booking for Luis, and a patch that hands a booking over to him. *)
Definition tyres : ReservationInput.t :=
  ReservationInput.mk luisId "Mazda 3" "Cambio de llantas" 5000 None None.

Definition toLuis : ReservationPatch.t :=
  ReservationPatch.mk (Some luisId) None None None None None.

(** The store with Ana, Luis and Ana's booking. *)
Definition busy : Store :=
  snd (serve (createReservation oilChange) evening withAnaAndLuis).

(** Writes of other requests: Luis is deleted; Ana books an oil change. *)
Definition luisLeaves : Store -> Store :=
  fun s => snd (serve (deleteClient [("id", luisId)]) noon s).

Definition anaBooks : Store -> Store :=
  fun s => snd (serve (createReservation oilChange) evening s).

(** Three calls, one after the other. *)
Definition threeCalls : list (Env * Call) :=
  [(morning, CreateClient anaRuiz); (noon, CreateClient luisDiaz);
   (evening, CreateReservation oilChange)].

(** Queries: Ana's reservations, and the clients ten by ten. *)
Definition anasReservations : ReservationsQuery.t :=
  ReservationsQuery.mk None None (Some anaId) None None None None.

Definition tenByTen : ClientsQuery.t := ClientsQuery.mk None (Some 10) None None.


(* ---------------------------------------------------------------------- *)
(** * Identifiers and lists                                                 *)
(* ---------------------------------------------------------------------- *)

Lemma lowerChar_idem c : lowerChar (lowerChar c) = lowerChar c.
Proof. destruct c as [[] [] [] [] [] [] [] []]; reflexivity. Qed.

Lemma isHexDigit_lower c : isHexDigit (lowerChar c) = isHexDigit c.
Proof. destruct c as [[] [] [] [] [] [] [] []]; reflexivity. Qed.

Lemma toLowerCase_idem s : toLowerCase (toLowerCase s) = toLowerCase s.
Proof.
  induction s as [|c r IH]; simpl; [reflexivity|].
  now rewrite lowerChar_idem, IH.
Qed.

Lemma length_toLowerCase s : String.length (toLowerCase s) = String.length s.
Proof. induction s; simpl; congruence. Qed.

Lemma isValid_toLowerCase s : ObjectId_isValid (toLowerCase s) = ObjectId_isValid s.
Proof.
  unfold ObjectId_isValid, allChars.
  rewrite length_toLowerCase. f_equal.
  induction s as [|c r IH]; simpl; [reflexivity|].
  now rewrite isHexDigit_lower, IH.
Qed.

(** What [ObjectId.isValid] takes, [isMongoId] takes. *)
Lemma isValid_isMongoId s : ObjectId_isValid s = true -> isMongoId s = true.
Proof.
  unfold ObjectId_isValid, isMongoId, isHexadecimal, hexDigits.
  intros H. apply andb_true_iff in H as [Hlen Hhex]. rewrite Hlen, Hhex.
  destruct s; [discriminate|reflexivity].
Qed.

Lemma castObjectId_valid s :
  ObjectId_isValid s = true -> castObjectId s = Some (toLowerCase s).
Proof. unfold castObjectId. now intros ->. Qed.

Lemma castObjectId_invalid s : ObjectId_isValid s = false -> castObjectId s = None.
Proof. unfold castObjectId. now intros ->. Qed.

(** A cast identifier casts to itself. *)
Lemma castObjectId_canonical s o : castObjectId s = Some o -> castObjectId o = Some o.
Proof.
  unfold castObjectId. destruct (ObjectId_isValid s) eqn:H; [|discriminate].
  intros [= <-]. now rewrite isValid_toLowerCase, H, toLowerCase_idem.
Qed.

Lemma sameId_eq a b : sameId a b = true <-> a = b.
Proof. apply String.eqb_eq. Qed.

Lemma sameId_refl a : sameId a a = true.
Proof. apply String.eqb_refl. Qed.

Lemma hd_error_filter_some {A} (p : A -> bool) l x :
  hd_error (filter p l) = Some x -> In x l /\ p x = true.
Proof.
  intros H. assert (In x (filter p l)) as Hin.
  { destruct (filter p l); simpl in H; [discriminate|]. injection H as ->. now left. }
  now apply filter_In in Hin.
Qed.

Lemma hd_error_filter_none {A} (p : A -> bool) l :
  (forall x, In x l -> p x = false) -> hd_error (filter p l) = None.
Proof.
  intros H. induction l as [|y r IH]; simpl; [reflexivity|].
  rewrite (H y (or_introl eq_refl)). apply IH. intros x Hx. apply H. now right.
Qed.

Lemma clientById_some oid s c :
  clientById oid s = Some c -> In c (clients s) /\ Client._id c = oid.
Proof.
  unfold clientById. intros H. apply find_some in H. now rewrite sameId_eq in H.
Qed.

(** Running the monad: one lemma per combinator and per store operation. *)

Lemma serve_try_catch (m : M Response) (h : JsError -> M Response) env s :
  serve (try_catch m h) env s =
  match m env (alone s) with
  | (inr r, w) => (Some r, store w)
  | (inl e, w) => run (h e) env w
  end.
Proof.
  unfold serve, run, try_catch, alone.
  destruct (m env _) as [[e|r] w]; reflexivity.
Qed.

Lemma bind_eq {A B} (m : M A) (k : A -> M B) env w :
  bind m k env w =
  match m env w with
  | (inr a, w') => k a env w'
  | (inl e, w') => (inl e, w')
  end.
Proof. reflexivity. Qed.

Lemma read_alone {A} (q : Store -> Result A) env s :
  read q env (alone s) = (q s, alone s).
Proof. reflexivity. Qed.

Lemma await_alone {A} (op : Store -> Result A * Store) env s :
  await op env (alone s) = (fst (op s), alone (snd (op s))).
Proof. unfold await, alone. simpl. now destruct (op s). Qed.

Lemma Client_findOne_alone f env s :
  Client_findOne f env (alone s) =
  (match selectClients f s with inl e => inl e | inr cs => inr (hd_error cs) end,
   alone s).
Proof. reflexivity. Qed.

Lemma Client_findById_alone id env s :
  ObjectId_isValid id = true ->
  Client_findById id env (alone s) = (inr (clientById (toLowerCase id) s), alone s).
Proof.
  intros H. unfold Client_findById. rewrite read_alone.
  now rewrite (castObjectId_valid _ H).
Qed.

Lemma updateClient_write_alone id u env s :
  ObjectId_isValid id = true ->
  updateClient_write id u env (alone s) =
  match clientSchema.validateUpdate (clientSchema.castUpdate u) with
  | [] =>
      match clientById (toLowerCase id) s with
      | None => (inr (failure 404 "Cliente no encontrado"), alone s)
      | Some c =>
          let c' := applyClientPatch (clientSchema.castUpdate u) (now env) c in
          if emailTaken (toLowerCase id) c c' s
          then (inl (duplicateKey "email_1"), alone s)
          else (inr (ClientUpdated c'), alone (withClient (toLowerCase id) c' s))
      end
  | errs => (inl (updateValidationError errs), alone s)
  end.
Proof.
  intros H. unfold updateClient_write, Client_findByIdAndUpdate.
  rewrite (castObjectId_valid _ H), bind_eq.
  destruct (clientSchema.validateUpdate _) eqn:E; [|reflexivity].
  rewrite bind_eq. unfold ask. rewrite await_alone. unfold updateClientById.
  destruct (clientById _ s) as [c|]; [|reflexivity].
  fold (emailTaken (toLowerCase id) c
          (applyClientPatch (clientSchema.castUpdate u) (now env) c) s).
  simpl. destruct (emailTaken _ _ _ _); reflexivity.
Qed.

Lemma emailTaken_other oid c c' s :
  emailTaken oid c c' s = true ->
  exists d, In d (clients s) /\ Client._id d <> oid /\ Client.email d = Client.email c'.
Proof.
  unfold emailTaken. rewrite andb_true_iff. intros [_ H].
  apply existsb_exists in H as [d [Hin H]]. rewrite andb_true_iff in H.
  destruct H as [Hid He]. exists d. repeat split; [exact Hin| |now apply String.eqb_eq].
  intros Heq. rewrite <- sameId_eq in Heq. now rewrite Heq in Hid.
Qed.

Lemma updateClient_eq id u env s :
  serve (updateClient [("id", id)] u) env s =
  if negb (ObjectId_isValid id) then (Some (failure 400 "ID de cliente no válido"), s)
  else
    let write :=
      match updateClient_write id u env (alone s) with
      | (inr r, w) => (Some r, store w)
      | (inl e, w) =>
          (Some (if match code e with Some c => c =? 11000 | None => false end
                 then DuplicateEmail
                 else serverError "Error al actualizar el cliente" e), store w)
      end in
    if truthy_opt (ClientPatch.email u) then
      match hd_error (filter (clientMatches
                                (mkClientFilter (Some id) None
                                   (option_map Equals (ClientPatch.email u))))
                        (clients s)) with
      | Some _ => (Some DuplicateEmail, s)
      | None => write
      end
    else write.
Proof.
  unfold updateClient. rewrite serve_try_catch.
  change (param "id" [("id", id)]) with id.
  destruct (ObjectId_isValid id) eqn:Hv; cbn [negb]; [|reflexivity].
  destruct (truthy_opt (ClientPatch.email u)); cbv iota zeta.
  - rewrite bind_eq, Client_findOne_alone. unfold selectClients. simpl castId.
    rewrite Hv. destruct (hd_error _); [reflexivity|].
    destruct (updateClient_write id u env (alone s)) as [[e|r] w]; [|reflexivity].
    unfold run.
    destruct (match code e with Some c => c =? 11000 | None => false end);
      reflexivity.
  - destruct (updateClient_write id u env (alone s)) as [[e|r] w]; [|reflexivity].
    unfold run.
    destruct (match code e with Some c => c =? 11000 | None => false end);
      reflexivity.
Qed.


(** A handler whose [catch] branch responds always responds. *)
Lemma try_catch_responds (m : M Response) (h : JsError -> M Response) env w :
  (forall e w1, exists r w2, h e env w1 = (inr r, w2)) ->
  exists r w', try_catch m h env w = (inr r, w').
Proof.
  intros Hh. unfold try_catch. destruct (m env w) as [[e|r] w1].
  - apply Hh.
  - now exists r, w1.
Qed.

Lemma handlers_respond h rx env w :
  (forall query, exists r w', getAllClients rx query env w = (inr r, w'))
  /\ (forall params, exists r w', getClientById params env w = (inr r, w'))
  /\ (forall body, exists r w', createClient h body env w = (inr r, w'))
  /\ (forall params patch, exists r w', updateClient params patch env w = (inr r, w'))
  /\ (forall params, exists r w', deleteClient params env w = (inr r, w'))
  /\ (forall body, exists r w', createReservation body env w = (inr r, w'))
  /\ (forall params patch, exists r w', updateReservation params patch env w = (inr r, w'))
  /\ (forall params query, exists r w',
         getReservationsByClient params query env w = (inr r, w')).
Proof.
  repeat split; intros; apply try_catch_responds; intros e w1;
    try (destruct (match code e with Some c => c =? 11000 | None => false end));
    eexists _, _; reflexivity.
Qed.

(* ---------------------------------------------------------------------- *)
(** * Unique emails                                                         *)
(* ---------------------------------------------------------------------- *)

Lemma createClient_rejects_taken_email h env s body c :
  In c (clients s) ->
  Client.email c = normalized (ClientInput.email body) ->
  serve (createClient h body) env s = (Some DuplicateEmail, s).
Proof.
  intros Hin He. unfold createClient. rewrite serve_try_catch, bind_eq.
  rewrite Client_findOne_alone. unfold selectClients. cbn [castId whereIdNot].
  destruct (hd_error (filter _ _)) eqn:E; [reflexivity|]. exfalso.
  assert (In c (filter (clientMatches
                          (mkClientFilter None None
                             (Some (Equals (ClientInput.email body)))))
                  (clients s))) as Hc.
  { apply filter_In. split; [exact Hin|].
    unfold clientMatches, holdsOpt, holds. simpl. rewrite He. apply String.eqb_refl. }
  destruct (filter _ (clients s)); [contradiction|discriminate].
Qed.

Lemma updateClient_duplicate_only env s id patch e :
  ClientPatch.email patch = Some e ->
  fst (serve (updateClient [("id", id)] patch) env s) = Some DuplicateEmail ->
  exists d, In d (clients s) /\ Client._id d <> toLowerCase id
            /\ Client.email d = normalized e.
Proof.
  intros He. rewrite updateClient_eq.
  destruct (ObjectId_isValid id) eqn:Hv; cbn [negb]; [|discriminate].
  assert (fst match updateClient_write id patch env (alone s) with
              | (inr r, w) => (Some r, store w)
              | (inl e, w) =>
                  (Some (if match code e with Some c => c =? 11000 | None => false end
                         then DuplicateEmail
                         else serverError "Error al actualizar el cliente" e), store w)
              end = Some DuplicateEmail ->
          exists d, In d (clients s) /\ Client._id d <> toLowerCase id
                    /\ Client.email d = normalized e) as Hw.
  { rewrite (updateClient_write_alone _ _ _ _ Hv).
    destruct (clientSchema.validateUpdate _); [|discriminate].
    destruct (clientById _ s) as [c|] eqn:Hc; [|discriminate].
    cbv zeta. destruct (emailTaken _ _ _ _) eqn:Ht; [|discriminate].
    intros _. apply emailTaken_other in Ht as [d [Hin [Hid Hem]]].
    exists d. repeat split; try assumption. rewrite Hem.
    unfold applyClientPatch, clientSchema.castUpdate. simpl. now rewrite He. }
  cbv zeta. destruct (truthy_opt (ClientPatch.email patch)); [|exact Hw].
  destruct (hd_error _) as [d|] eqn:Hd; [|exact Hw].
  intros _. apply hd_error_filter_some in Hd as [Hin Hm]. exists d.
  unfold clientMatches in Hm. rewrite He in Hm. simpl in Hm.
  rewrite !andb_true_iff in Hm. destruct Hm as [[Hid _] Hem].
  repeat split; [exact Hin| |now apply String.eqb_eq].
  intros Heq. apply sameId_eq in Heq. now rewrite Heq in Hid.
Qed.

Lemma updateClient_own_email env s id patch c e :
  ObjectId_isValid id = true ->
  clientById (toLowerCase id) s = Some c ->
  emailsUnique s ->
  ClientPatch.email patch = Some e ->
  normalized e = Client.email c ->
  clientSchema.validateUpdate (clientSchema.castUpdate patch) = [] ->
  let c' := applyClientPatch (clientSchema.castUpdate patch) (now env) c in
  serve (updateClient [("id", id)] patch) env s
  = (Some (ClientUpdated c'), withClient (toLowerCase id) c' s).
Proof.
  intros Hv Hc Hu He Hn Hval c'. rewrite updateClient_eq, Hv. cbn [negb].
  rewrite (updateClient_write_alone _ _ _ _ Hv), Hval, Hc. cbv zeta. fold c'.
  assert (Client.email c' = Client.email c) as Hsame.
  { unfold c', applyClientPatch, clientSchema.castUpdate. simpl. now rewrite He. }
  assert (emailTaken (toLowerCase id) c c' s = false) as ->.
  { unfold emailTaken. now rewrite Hsame, String.eqb_refl. }
  destruct (truthy_opt (ClientPatch.email patch)); [|reflexivity].
  rewrite hd_error_filter_none; [reflexivity|].
  intros d Hd. unfold clientMatches. rewrite He. simpl.
  apply clientById_some in Hc as [Hin Hid].
  destruct (Client.email d =? clientSchema.setEmail e)%string eqn:Hem;
    [|now rewrite andb_false_r].
  apply String.eqb_eq in Hem. fold (normalized e) in Hem. rewrite Hn in Hem.
  rewrite (Hu d c Hd Hin Hem), Hid, sameId_refl. reflexivity.
Qed.

(** C1.  A client whose normalized email is already held by a client of the
    store is not created: the response is DuplicateEmail (400) and the
    store is unchanged.  An update that carries an email is answered
    DuplicateEmail only if a client other than the one being updated holds
    that email; in particular a client that updates to its own current
    email is updated. *)
Theorem C1_email_uniqueness :
  (forall h env s body c,
      In c (clients s) ->
      Client.email c = normalized (ClientInput.email body) ->
      serve (createClient h body) env s = (Some DuplicateEmail, s))
  /\
  (forall env s id patch e,
      ClientPatch.email patch = Some e ->
      fst (serve (updateClient [("id", id)] patch) env s) = Some DuplicateEmail ->
      exists d, In d (clients s) /\ Client._id d <> toLowerCase id
                /\ Client.email d = normalized e)
  /\
  (forall env s id patch c e,
      ObjectId_isValid id = true ->
      clientById (toLowerCase id) s = Some c ->
      emailsUnique s ->
      ClientPatch.email patch = Some e ->
      normalized e = Client.email c ->
      clientSchema.validateUpdate (clientSchema.castUpdate patch) = [] ->
      let c' := applyClientPatch (clientSchema.castUpdate patch) (now env) c in
      serve (updateClient [("id", id)] patch) env s
      = (Some (ClientUpdated c'), withClient (toLowerCase id) c' s)).
Proof.
  split; [|split].
  - exact createClient_rejects_taken_email.
  - exact updateClient_duplicate_only.
  - exact updateClient_own_email.
Qed.

(* ---------------------------------------------------------------------- *)
(** * The guard on client deletion                                          *)
(* ---------------------------------------------------------------------- *)

Lemma activeFilter_matches id r :
  reservationMatches
    (mkReservationFilter (Some id) (Some (AnyOf ["Pendiente"; "En proceso"]))) r
  = sameId (Reservation.clientId r) (toLowerCase id) && isActive r.
Proof.
  unfold reservationMatches, holdsOpt, holds, isActive. simpl.
  now rewrite orb_false_r.
Qed.

Lemma countActive_alone id env s :
  ObjectId_isValid id = true ->
  Reservation_countDocuments
    (mkReservationFilter (Some id) (Some (AnyOf ["Pendiente"; "En proceso"])))
    env (alone s)
  = (inr (Z.of_nat (length (activeReservationsOf (toLowerCase id) s))), alone s).
Proof.
  intros Hv. unfold Reservation_countDocuments. rewrite read_alone.
  unfold selectReservations. cbn [castId whereClientId]. rewrite Hv.
  unfold activeReservationsOf.
  now rewrite (filter_ext _ _ (activeFilter_matches id)).
Qed.

Lemma Client_findByIdAndDelete_alone id env s :
  ObjectId_isValid id = true ->
  Client_findByIdAndDelete id env (alone s) =
  match clientById (toLowerCase id) s with
  | None => (inr None, alone s)
  | Some c => (inr (Some c), alone (withoutClient (toLowerCase id) s))
  end.
Proof.
  intros Hv. unfold Client_findByIdAndDelete.
  rewrite (castObjectId_valid _ Hv), await_alone.
  destruct (clientById _ s); reflexivity.
Qed.

Lemma deleteClient_eq id env s :
  ObjectId_isValid id = true ->
  serve (deleteClient [("id", id)]) env s =
  if Z.of_nat (length (activeReservationsOf (toLowerCase id) s)) >? 0
  then (Some HasActiveReservations, s)
  else
    match clientById (toLowerCase id) s with
    | None => (Some ClientNotFound, s)
    | Some c => (Some ClientDeleted, withoutClient (toLowerCase id) s)
    end.
Proof.
  intros Hv. unfold deleteClient. rewrite serve_try_catch.
  change (param "id" [("id", id)]) with id. rewrite Hv. cbn [negb].
  rewrite bind_eq, (countActive_alone _ _ _ Hv).
  destruct (_ >? 0); [reflexivity|].
  rewrite bind_eq, (Client_findByIdAndDelete_alone _ _ _ Hv).
  destruct (clientById _ s); reflexivity.
Qed.

(** C2.  Deleting a client that owns no reservation with status Pending or
    In progress succeeds (200) and removes the client; deleting one that
    owns at least one such reservation is answered HasActiveReservations
    (400) and leaves the store, hence the client and its reservations, as
    they were. *)
Theorem C2_delete_client_guard env s id c :
  ObjectId_isValid id = true ->
  clientById (toLowerCase id) s = Some c ->
  (length (activeReservationsOf (Client._id c) s) = 0%nat ->
     serve (deleteClient [("id", id)]) env s
     = (Some ClientDeleted, withoutClient (Client._id c) s))
  /\
  ((0 < length (activeReservationsOf (Client._id c) s))%nat ->
     serve (deleteClient [("id", id)]) env s = (Some HasActiveReservations, s)
     /\ clientById (Client._id c) (snd (serve (deleteClient [("id", id)]) env s))
        = Some c
     /\ reservationsOf (Client._id c) (snd (serve (deleteClient [("id", id)]) env s))
        = reservationsOf (Client._id c) s).
Proof.
  intros Hv Hc. rewrite (deleteClient_eq _ _ _ Hv), Hc.
  destruct (clientById_some _ _ _ Hc) as [_ ->].
  split; intros Hn.
  - now rewrite Hn.
  - destruct (_ >? 0) eqn:E; [auto|]. lia.
Qed.

(* ---------------------------------------------------------------------- *)
(** * Reservations refer to existing clients                                *)
(* ---------------------------------------------------------------------- *)

Lemma createReservation_invalid_reference env s body :
  ObjectId_isValid (ReservationInput.clientId body) = false ->
  serve (createReservation body) env s = (Some InvalidReference, s).
Proof.
  intros Hv. unfold createReservation. rewrite serve_try_catch.
  cbv zeta. now rewrite Hv.
Qed.

Lemma createReservation_client_not_found env s body :
  ObjectId_isValid (ReservationInput.clientId body) = true ->
  clientById (toLowerCase (ReservationInput.clientId body)) s = None ->
  serve (createReservation body) env s = (Some ClientNotFound, s).
Proof.
  intros Hv Hc. unfold createReservation. rewrite serve_try_catch.
  cbv zeta. rewrite Hv. cbn [negb].
  now rewrite bind_eq, (Client_findById_alone _ _ _ Hv), Hc.
Qed.

Lemma validate_clientId today fields :
  reservationSchema.validate today fields = [] ->
  ObjectId_isValid (ReservationInput.clientId fields) = true.
Proof.
  unfold reservationSchema.validate, reservationSchema.clientId.
  cbn [firstFailure].
  destruct (truthy _); [|discriminate].
  destruct (ObjectId_isValid _); [reflexivity|discriminate].
Qed.

(** The [pre("save")] hook of the reservation schema: a reservation whose
    client is not in the store is not saved. *)
Lemma Reservation_save_needs_client env s draft :
  clientById (toLowerCase (ReservationInput.clientId (snd draft))) s = None ->
  exists e, Reservation_save draft env (alone s) = (inl e, alone s).
Proof.
  destruct draft as [id given]. cbn [snd]. intros Hc.
  unfold Reservation_save. rewrite bind_eq. unfold ask.
  destruct (reservationSchema.validate _ _) eqn:Hval; [|eexists; reflexivity].
  apply validate_clientId in Hval.
  change (ReservationInput.clientId (reservationSchema.cast given))
    with (ReservationInput.clientId given) in *.
  rewrite bind_eq. unfold reservationSchema_preSave. cbn [orb].
  rewrite bind_eq, Client_findById_alone by now rewrite isValid_toLowerCase.
  rewrite toLowerCase_idem, Hc. eexists; reflexivity.
Qed.

(** C3.  A reservation-create request whose client identifier is not
    syntactically valid is answered InvalidReference (400); one whose
    identifier is valid but names no client is answered ClientNotFound
    (404); in both cases the store is unchanged.  The hook that runs on
    [save] throws, and inserts nothing, when the client is missing. *)
Theorem C3_create_reservation_reference :
  (forall env s body,
      ObjectId_isValid (ReservationInput.clientId body) = false ->
      serve (createReservation body) env s = (Some InvalidReference, s))
  /\
  (forall env s body,
      ObjectId_isValid (ReservationInput.clientId body) = true ->
      clientById (toLowerCase (ReservationInput.clientId body)) s = None ->
      serve (createReservation body) env s = (Some ClientNotFound, s))
  /\
  (forall env s draft,
      clientById (toLowerCase (ReservationInput.clientId (snd draft))) s = None ->
      exists e, Reservation_save draft env (alone s) = (inl e, alone s)).
Proof.
  split; [|split].
  - exact createReservation_invalid_reference.
  - exact createReservation_client_not_found.
  - exact Reservation_save_needs_client.
Qed.

(* ---------------------------------------------------------------------- *)
(** * Scheduled dates lie in the future                                     *)
(* ---------------------------------------------------------------------- *)

Lemma bind_inr {A B} (m : M A) (k : A -> M B) env w b w' :
  bind m k env w = (inr b, w') ->
  exists a w1, m env w = (inr a, w1) /\ k a env w1 = (inr b, w').
Proof.
  rewrite bind_eq. destruct (m env w) as [[e|a] w1]; [discriminate|].
  intros H. now exists a, w1.
Qed.

(** Past the two reference checks and the date check, [createReservation]
    answers 201 or, when the store throws, 500. *)
Lemma createReservation_save_status (body : ReservationInput.t) env w r w' :
  (newReservation <-
     new_Reservation
       (ReservationInput.mk (ReservationInput.clientId body)
          (ReservationInput.vehicle body) (ReservationInput.service body)
          (ReservationInput.scheduledDate body) (ReservationInput.notes body)
          None) ;;
   savedReservation <- Reservation_save newReservation ;;
   found <- Reservation_findById (Reservation._id savedReservation) ;;
   populatedReservation <- populateOne found ;;
   ret (mkResponse 201
          (JObj [("success", JBool true);
                 ("message", JStr "Reserva creada exitosamente");
                 ("data",
                  match populatedReservation with
                  | Some p => Reservation.toJSON p
                  | None => JNull
                  end)]))) env w = (inr r, w') ->
  status r = 201.
Proof.
  intros H.
  apply bind_inr in H as (? & ? & _ & H).
  apply bind_inr in H as (? & ? & _ & H).
  apply bind_inr in H as (? & ? & _ & H).
  apply bind_inr in H as (? & ? & _ & H).
  now injection H as <- _.
Qed.

Lemma createReservation_dated env s body c :
  ObjectId_isValid (ReservationInput.clientId body) = true ->
  clientById (toLowerCase (ReservationInput.clientId body)) s = Some c ->
  if ReservationInput.scheduledDate body <=? now env
  then serve (createReservation body) env s = (Some InvalidDate, s)
  else exists r s',
      serve (createReservation body) env s = (Some r, s')
      /\ (status r = 201 \/ status r = 500).
Proof.
  intros Hv Hc. unfold createReservation. rewrite serve_try_catch.
  cbv zeta. rewrite Hv. cbn [negb].
  rewrite bind_eq, (Client_findById_alone _ _ _ Hv), Hc, bind_eq.
  unfold new_Date. cbv beta iota.
  destruct (_ <=? now env); [reflexivity|].
  match goal with
  | |- context [match ?m env (alone s) with _ => _ end] =>
      destruct (m env (alone s)) as [[e|r] w] eqn:E
  end.
  - eexists _, _. split; [reflexivity|]. now right.
  - exists r, (store w). split; [reflexivity|]. left.
    exact (createReservation_save_status _ _ _ _ _ E).
Qed.

Lemma populateOne_alone r env s :
  populateOne r env (alone s) =
  (inr (option_map (fun r => (r, clientById (Reservation.clientId r) s)) r), alone s).
Proof. destruct r; reflexivity. Qed.

Lemma updateReservation_write_alone id u env s :
  ObjectId_isValid id = true ->
  updateReservation_write id u env (alone s) =
  match reservationSchema.validateUpdate (now env) (reservationSchema.castUpdate u) with
  | [] =>
      match reservationById (toLowerCase id) s with
      | None => (inr ReservationNotFound, alone s)
      | Some r =>
          let r' := applyReservationPatch (reservationSchema.castUpdate u) (now env) r in
          let s' := withReservation (toLowerCase id) r' s in
          (inr (ReservationUpdated (r', clientById (Reservation.clientId r') s')),
           alone s')
      end
  | errs => (inl (updateValidationError errs), alone s)
  end.
Proof.
  intros Hv. unfold updateReservation_write, Reservation_findByIdAndUpdate.
  rewrite (castObjectId_valid _ Hv), bind_eq, bind_eq. unfold ask.
  destruct (reservationSchema.validateUpdate _ _); [|reflexivity].
  rewrite await_alone.
  destruct (reservationById _ s) as [r|]; cbn [fst snd];
    now rewrite bind_eq, populateOne_alone.
Qed.

Lemma updateReservation_fromDate_alone id u env s :
  updateReservation_fromDate id u env (alone s) =
  match ReservationPatch.scheduledDate u with
  | Some date =>
      if date <=? now env then (inr InvalidDate, alone s)
      else updateReservation_write id u env (alone s)
  | None => updateReservation_write id u env (alone s)
  end.
Proof.
  unfold updateReservation_fromDate.
  destruct (ReservationPatch.scheduledDate u) as [date|]; [|reflexivity].
  rewrite bind_eq. unfold new_Date. cbv beta iota.
  destruct (date <=? now env); reflexivity.
Qed.

Lemma updateReservation_eq id u env s :
  serve (updateReservation [("id", id)] u) env s =
  let fromDate :=
    match updateReservation_fromDate id u env (alone s) with
    | (inr r, w) => (Some r, store w)
    | (inl e, w) => (Some (serverError "Error al actualizar la reserva" e), store w)
    end in
  if negb (ObjectId_isValid id) then (Some (failure 400 "ID de reserva no válido"), s)
  else if truthy_opt (ReservationPatch.clientId u) then
    let clientId := orElse (ReservationPatch.clientId u) "" in
    if negb (ObjectId_isValid clientId) then (Some InvalidReference, s)
    else
      match clientById (toLowerCase clientId) s with
      | None => (Some ClientNotFound, s)
      | Some _ => fromDate
      end
  else fromDate.
Proof.
  unfold updateReservation. rewrite serve_try_catch.
  change (param "id" [("id", id)]) with id. cbv zeta.
  destruct (ObjectId_isValid id); cbn [negb]; [|reflexivity].
  destruct (truthy_opt _).
  - destruct (ObjectId_isValid (orElse _ "")) eqn:Hv; cbn [negb]; [|reflexivity].
    rewrite bind_eq, (Client_findById_alone _ _ _ Hv).
    destruct (clientById _ s); [|reflexivity].
    destruct (updateReservation_fromDate _ _ _ _) as [[e|r] w]; reflexivity.
  - destruct (updateReservation_fromDate _ _ _ _) as [[e|r] w]; reflexivity.
Qed.

(** With the reference check passed, what remains is the date check. *)
Lemma updateReservation_resolved id u env s :
  ObjectId_isValid id = true ->
  referenceResolves (ReservationPatch.clientId u) s = true ->
  serve (updateReservation [("id", id)] u) env s =
  match updateReservation_fromDate id u env (alone s) with
  | (inr r, w) => (Some r, store w)
  | (inl e, w) => (Some (serverError "Error al actualizar la reserva" e), store w)
  end.
Proof.
  intros Hv Hr. rewrite updateReservation_eq, Hv. cbn [negb]. cbv zeta.
  unfold referenceResolves in Hr. unfold truthy_opt.
  destruct (ReservationPatch.clientId u) as [cid|]; [|reflexivity].
  cbn [orElse]. destruct (truthy cid); [|reflexivity].
  apply andb_true_iff in Hr as [-> Hc]. cbn [negb].
  destruct (clientById _ s); [reflexivity|discriminate].
Qed.

(** The responses of the write of [updateReservation]. *)
Lemma updateReservation_write_answers id u env s :
  ObjectId_isValid id = true ->
  forall r s',
    match updateReservation_write id u env (alone s) with
    | (inr r, w) => (Some r, store w)
    | (inl e, w) => (Some (serverError "Error al actualizar la reserva" e), store w)
    end = (Some r, s') ->
    status r = 200 \/ status r = 404 \/ status r = 500.
Proof.
  intros Hv r s'. rewrite (updateReservation_write_alone _ _ _ _ Hv).
  destruct (reservationSchema.validateUpdate _ _).
  - destruct (reservationById _ s); intros [= <- _]; auto.
  - intros [= <- _]. auto.
Qed.

Lemma validateUpdate_undated today today' u :
  ReservationPatch.scheduledDate u = None ->
  reservationSchema.validateUpdate today (reservationSchema.castUpdate u)
  = reservationSchema.validateUpdate today' (reservationSchema.castUpdate u).
Proof.
  intros H. unfold reservationSchema.validateUpdate, reservationSchema.castUpdate.
  cbn [ReservationPatch.scheduledDate ReservationPatch.clientId
       ReservationPatch.vehicle ReservationPatch.service ReservationPatch.status
       ReservationPatch.notes].
  now rewrite H.
Qed.

Lemma updateReservation_undated env s id patch :
  ReservationPatch.scheduledDate patch = None ->
  fst (serve (updateReservation [("id", id)] patch) env s) <> Some InvalidDate.
Proof.
  intros Hd. rewrite updateReservation_eq. cbv zeta.
  rewrite updateReservation_fromDate_alone, Hd.
  destruct (ObjectId_isValid id) eqn:Hv; cbn [negb]; [|discriminate].
  assert (fst match updateReservation_write id patch env (alone s) with
              | (inr r, w) => (Some r, store w)
              | (inl e, w) =>
                  (Some (serverError "Error al actualizar la reserva" e), store w)
              end <> Some InvalidDate) as Hw.
  { destruct (match updateReservation_write id patch env (alone s) with
              | (inr r, w) => (Some r, store w)
              | (inl e, w) =>
                  (Some (serverError "Error al actualizar la reserva" e), store w)
              end) as [[r|] s'] eqn:E; [|discriminate].
    apply (updateReservation_write_answers _ _ _ _ Hv) in E.
    cbn [fst]. intros [= ->]. cbn in E. lia. }
  destruct (truthy_opt _); [|exact Hw].
  destruct (ObjectId_isValid (orElse _ "")); cbn [negb]; [|discriminate].
  destruct (clientById _ s); [exact Hw|discriminate].
Qed.

Lemma updateReservation_undated_clock env env' s id patch :
  ReservationPatch.scheduledDate patch = None ->
  option_map status (fst (serve (updateReservation [("id", id)] patch) env s))
  = option_map status (fst (serve (updateReservation [("id", id)] patch) env' s)).
Proof.
  intros Hd. rewrite !updateReservation_eq. cbv zeta.
  rewrite !updateReservation_fromDate_alone, Hd.
  destruct (ObjectId_isValid id) eqn:Hv; cbn [negb]; [|reflexivity].
  assert (option_map status
            (fst match updateReservation_write id patch env (alone s) with
                 | (inr r, w) => (Some r, store w)
                 | (inl e, w) =>
                     (Some (serverError "Error al actualizar la reserva" e), store w)
                 end)
          = option_map status
              (fst match updateReservation_write id patch env' (alone s) with
                   | (inr r, w) => (Some r, store w)
                   | (inl e, w) =>
                       (Some (serverError "Error al actualizar la reserva" e), store w)
                   end)) as Hw.
  { rewrite !(updateReservation_write_alone _ _ _ _ Hv).
    rewrite (validateUpdate_undated (now env) (now env') _ Hd).
    destruct (reservationSchema.validateUpdate _ _); [|reflexivity].
    destruct (reservationById _ s); reflexivity. }
  destruct (truthy_opt _); [|exact Hw].
  destruct (ObjectId_isValid (orElse _ "")); cbn [negb]; [|reflexivity].
  destruct (clientById _ s); [exact Hw|reflexivity].
Qed.

(** C4.  A reservation create whose client reference resolves, and a
    reservation update whose reference check passes and whose patch
    carries a scheduled date, are answered InvalidDate (400) if and only if
    the date is not after the current time.  An update whose patch carries
    no date is never answered InvalidDate, and the status of its answer
    does not depend on the clock. *)
Theorem C4_future_date :
  (forall env s body c,
      ObjectId_isValid (ReservationInput.clientId body) = true ->
      clientById (toLowerCase (ReservationInput.clientId body)) s = Some c ->
      (fst (serve (createReservation body) env s) = Some InvalidDate
       <-> ReservationInput.scheduledDate body <= now env))
  /\
  (forall env s id patch date,
      ObjectId_isValid id = true ->
      referenceResolves (ReservationPatch.clientId patch) s = true ->
      ReservationPatch.scheduledDate patch = Some date ->
      (fst (serve (updateReservation [("id", id)] patch) env s) = Some InvalidDate
       <-> date <= now env))
  /\
  (forall env s id patch,
      ReservationPatch.scheduledDate patch = None ->
      fst (serve (updateReservation [("id", id)] patch) env s) <> Some InvalidDate)
  /\
  (forall env env' s id patch,
      ReservationPatch.scheduledDate patch = None ->
      option_map status (fst (serve (updateReservation [("id", id)] patch) env s))
      = option_map status (fst (serve (updateReservation [("id", id)] patch) env' s))).
Proof.
  split; [|split; [|split]].
  - intros env s body c Hv Hc.
    pose proof (createReservation_dated env s body c Hv Hc) as H.
    destruct (Z.leb_spec (ReservationInput.scheduledDate body) (now env)) as [Hle|Hgt].
    + rewrite H. now split.
    + destruct H as (r & s' & -> & Hst). split; [|lia].
      cbn [fst]. intros [= ->]. cbn in Hst. lia.
  - intros env s id patch date Hv Hr Hd.
    rewrite (updateReservation_resolved _ _ _ _ Hv Hr).
    rewrite updateReservation_fromDate_alone, Hd.
    destruct (Z.leb_spec date (now env)) as [Hle|Hgt]; [now split|].
    split; [|lia].
    destruct (match updateReservation_write id patch env (alone s) with
              | (inr r, w) => (Some r, store w)
              | (inl e, w) =>
                  (Some (serverError "Error al actualizar la reserva" e), store w)
              end) as [[r|] s'] eqn:E; [|discriminate].
    apply (updateReservation_write_answers _ _ _ _ Hv) in E.
    cbn [fst]. intros [= ->]. cbn in E. lia.
  - exact updateReservation_undated.
  - exact updateReservation_undated_clock.
Qed.

(** Without any assumption on the request: the answer of a reservation
    create or update is InvalidDate exactly when the checks before the date
    check pass and the date is not after the current time. *)
Lemma createReservation_invalid_date_iff env s body :
  fst (serve (createReservation body) env s) = Some InvalidDate
  <-> ObjectId_isValid (ReservationInput.clientId body) = true
      /\ clientById (toLowerCase (ReservationInput.clientId body)) s <> None
      /\ ReservationInput.scheduledDate body <= now env.
Proof.
  destruct (ObjectId_isValid (ReservationInput.clientId body)) eqn:Hv.
  2:{ rewrite (createReservation_invalid_reference _ _ _ Hv).
      split; [discriminate|]. now intros [? _]. }
  destruct (clientById (toLowerCase (ReservationInput.clientId body)) s) as [c|] eqn:Hc.
  2:{ rewrite (createReservation_client_not_found _ _ _ Hv Hc).
      split; [discriminate|]. now intros (_ & ? & _). }
  pose proof (createReservation_dated env s body c Hv Hc) as H.
  destruct (Z.leb_spec (ReservationInput.scheduledDate body) (now env)) as [Hle|Hgt].
  - rewrite H. split; [|reflexivity]. intros _. repeat split; [discriminate|exact Hle].
  - destruct H as (r & s' & -> & Hst). split; [|lia].
    cbn [fst]. intros [= ->]. cbn in Hst. lia.
Qed.

Lemma updateReservation_invalid_date_iff env s id patch :
  fst (serve (updateReservation [("id", id)] patch) env s) = Some InvalidDate
  <-> ObjectId_isValid id = true
      /\ referenceResolves (ReservationPatch.clientId patch) s = true
      /\ exists date, ReservationPatch.scheduledDate patch = Some date
                      /\ date <= now env.
Proof.
  destruct (ReservationPatch.scheduledDate patch) as [date|] eqn:Hd.
  2:{ split.
      - intros H. now apply updateReservation_undated in H.
      - intros (_ & _ & date & ? & _). discriminate. }
  destruct (ObjectId_isValid id) eqn:Hv.
  2:{ rewrite updateReservation_eq, Hv. cbn [negb]. cbv zeta.
      split; [discriminate|]. now intros [? _]. }
  destruct (referenceResolves (ReservationPatch.clientId patch) s) eqn:Hr.
  - rewrite (updateReservation_resolved _ _ _ _ Hv Hr).
    rewrite updateReservation_fromDate_alone, Hd.
    destruct (Z.leb_spec date (now env)) as [Hle|Hgt].
    + split; [|reflexivity]. intros _. repeat split. now exists date.
    + split.
      * destruct (match updateReservation_write id patch env (alone s) with
                  | (inr r, w) => (Some r, store w)
                  | (inl e, w) =>
                      (Some (serverError "Error al actualizar la reserva" e), store w)
                  end) as [[r|] s'] eqn:E; [|discriminate].
        apply (updateReservation_write_answers _ _ _ _ Hv) in E.
        cbn [fst]. intros [= ->]. cbn in E. lia.
      * intros (_ & _ & d & [= <-] & ?). lia.
  - split; [|now intros (_ & ? & _)].
    rewrite updateReservation_eq, Hv. cbn [negb]. cbv zeta.
    unfold referenceResolves in Hr. unfold truthy_opt.
    destruct (ReservationPatch.clientId patch) as [cid|]; [|discriminate].
    cbn [orElse]. destruct (truthy cid); [|discriminate].
    destruct (ObjectId_isValid cid); cbn [negb andb] in *; [|discriminate].
    destruct (clientById _ s); discriminate.
Qed.

(* ---------------------------------------------------------------------- *)
(** * Passwords                                                             *)
(* ---------------------------------------------------------------------- *)

Lemma Client_save_alone h env s id body :
  Client_save h (id, body) env (alone s) =
  match clientSchema.validate (clientSchema.cast body) with
  | [] =>
      let doc := newClientDoc h (mkEnv (now env) (salt env) id) body in
      if idTaken id s then (inl (duplicateKey "_id_"), alone s)
      else if emailHeld (Client.email doc) s then (inl (duplicateKey "email_1"), alone s)
      else (inr doc, alone (mkStore (clients s ++ [doc]) (reservations s)))
  | errs => (inl (validationError "Client" errs), alone s)
  end.
Proof.
  unfold Client_save. destruct (clientSchema.validate _); [|reflexivity].
  unfold clientSchema_preSave. cbn [negb].
  unfold bind, ask, ret. cbv beta iota. rewrite await_alone. unfold insertClient.
  cbv zeta. unfold idTaken, emailHeld, newClientDoc.
  cbn [freshId now salt Client._id Client.email clientSchema.cast
       ClientInput.name ClientInput.email ClientInput.password ClientInput.phone
       ClientInput.age].
  destruct (existsb _ (clients s)); [reflexivity|].
  destruct (existsb _ (clients s)); reflexivity.
Qed.

Lemma env_eta env : mkEnv (now env) (salt env) (freshId env) = env.
Proof. now destruct env. Qed.

Lemma body_eta (body : ClientInput.t) :
  ClientInput.mk (ClientInput.name body) (ClientInput.email body)
    (ClientInput.password body) (ClientInput.phone body) (ClientInput.age body)
  = body.
Proof. now destruct body. Qed.

Lemma createClient_eq h env s body :
  serve (createClient h body) env s =
  if emailHeld (normalized (ClientInput.email body)) s then (Some DuplicateEmail, s)
  else
    match clientSchema.validate (clientSchema.cast body) with
    | [] =>
        let doc := newClientDoc h env body in
        if idTaken (freshId env) s then (Some DuplicateEmail, s)
        else (Some (ClientCreated doc), mkStore (clients s ++ [doc]) (reservations s))
    | errs =>
        (Some (serverError "Error al crear el cliente" (validationError "Client" errs)),
         s)
    end.
Proof.
  destruct (emailHeld _ s) eqn:Held.
  - apply existsb_exists in Held as [c [Hin He]]. apply String.eqb_eq in He.
    now apply (createClient_rejects_taken_email h env s body c).
  - unfold createClient. rewrite serve_try_catch, bind_eq, Client_findOne_alone.
    unfold selectClients. cbn [castId whereIdNot].
    rewrite hd_error_filter_none.
    2:{ intros c Hc. unfold clientMatches, holdsOpt, holds. simpl.
        unfold emailHeld in Held.
        destruct (Client.email c =? _)%string eqn:E; [|reflexivity].
        assert (existsb
                  (fun c =>
                     (Client.email c =? normalized (ClientInput.email body))%string)
                  (clients s) = true) as Hex
            by (apply existsb_exists; now exists c).
        congruence. }
    cbv zeta. rewrite body_eta, bind_eq. unfold new_Client. rewrite bind_eq.
    rewrite Client_save_alone, env_eta.
    destruct (clientSchema.validate _); [|reflexivity].
    cbv zeta. destruct (idTaken _ s); [reflexivity|].
    change (Client.email (newClientDoc h env body))
      with (normalized (ClientInput.email body)).
    now rewrite Held.
Qed.

(** On creation the stored password is one application of [bcrypt.hash] to
    the plaintext and the drawn salt. *)
Lemma createClient_stores_hash h env s body r s' :
  serve (createClient h body) env s = (Some r, s') ->
  status r = 201 ->
  s' = mkStore (clients s ++ [newClientDoc h env body]) (reservations s)
  /\ Client.password (newClientDoc h env body)
     = Some (h (ClientInput.password body) (salt env)).
Proof.
  rewrite createClient_eq.
  destruct (emailHeld _ s); [now intros [= <- <-]|].
  destruct (clientSchema.validate _); [|now intros [= <- <-]].
  cbv zeta. destruct (idTaken _ s); [now intros [= <- <-]|].
  now intros [= <- <-].
Qed.

Lemma find_replaceFirst {A} (p : A -> bool) x l y :
  find p l = Some y -> p x = true -> find p (replaceFirst p x l) = Some x.
Proof.
  induction l as [|z r IH]; simpl; [discriminate|].
  destruct (p z) eqn:E; simpl.
  - intros _ ->. reflexivity.
  - rewrite E. exact IH.
Qed.

(** On update the stored password is the patch's, as given: the write goes
    through [findByIdAndUpdate], which runs no [save] hook. *)
Lemma updateClient_stores_password_as_given env s id c p :
  ObjectId_isValid id = true ->
  clientById (toLowerCase id) s = Some c ->
  clientSchema.password p = None ->
  let patch := ClientPatch.mk None None (Some p) None None in
  let s' := snd (serve (updateClient [("id", id)] patch) env s) in
  exists c', clientById (toLowerCase id) s' = Some c'
             /\ Client.password c' = Some p.
Proof.
  intros Hv Hc Hp patch s'. subst s'. rewrite updateClient_eq, Hv. cbn [negb].
  cbv zeta. cbn [truthy_opt ClientPatch.email patch].
  rewrite (updateClient_write_alone _ _ _ _ Hv).
  unfold clientSchema.validateUpdate, patch.
  cbn [clientSchema.castUpdate clientSchema.onPresent ClientPatch.name
       ClientPatch.email ClientPatch.password ClientPatch.phone ClientPatch.age
       option_map app].
  rewrite Hp. cbn [onPath app]. rewrite Hc. cbv zeta.
  unfold emailTaken. cbn [applyClientPatch Client.email orElse ClientPatch.email].
  rewrite String.eqb_refl. cbn [negb andb snd store alone].
  exists (applyClientPatch (clientSchema.castUpdate patch) (now env) c).
  split; [|reflexivity].
  unfold clientById, withClient. cbn [clients].
  apply (find_replaceFirst _ _ _ c); [exact Hc|].
  unfold applyClientPatch. cbn [Client._id].
  destruct (clientById_some _ _ _ Hc) as [_ ->]. apply sameId_refl.
Qed.

(** C5.  Ana registered with the password "123456": the store holds its
    hash.  She then changes her password to "newsecret" through the update
    endpoint: the request succeeds and the store holds "newsecret" itself. *)
Theorem C5_update_stores_plaintext :
  option_map Client.password (clientById anaId withAna)
  = Some (Some (sampleHash "123456" (salt morning)))
  /\ option_map status (fst (serve (updateClient [("id", anaId)] newPassword) noon withAna))
     = Some 200
  /\ option_map Client.password
       (clientById anaId
          (snd (serve (updateClient [("id", anaId)] newPassword) noon withAna)))
     = Some (Some "newsecret").
Proof. vm_compute. repeat split. Qed.

(* ---------------------------------------------------------------------- *)
(** * The status of a new reservation                                       *)
(* ---------------------------------------------------------------------- *)

Lemma find_none_existsb {A} (p : A -> bool) l :
  find p l = None -> existsb p l = false.
Proof.
  induction l as [|x r IH]; simpl; [reflexivity|].
  destruct (p x); [discriminate|exact IH].
Qed.

Lemma find_last {A} (p : A -> bool) l x :
  find p l = None -> p x = true -> find p (l ++ [x]) = Some x.
Proof.
  induction l as [|y r IH]; simpl.
  - now intros _ ->.
  - destruct (p y); [discriminate|exact IH].
Qed.

Lemma Reservation_save_alone env s id given :
  Reservation_save (id, given) env (alone s) =
  match reservationSchema.validate (now env) (reservationSchema.cast given) with
  | [] =>
      match clientById (toLowerCase (ReservationInput.clientId given)) s with
      | None => (inl (mkError None "Cliente no encontrado"), alone s)
      | Some _ =>
          let doc :=
            Reservation.mk id (toLowerCase (ReservationInput.clientId given))
              (trim (ReservationInput.vehicle given))
              (trim (ReservationInput.service given))
              (orElse (ReservationInput.status given) reservationSchema.defaultStatus)
              (ReservationInput.scheduledDate given)
              (option_map trim (ReservationInput.notes given))
              (now env) (now env) in
          if existsb (fun r => sameId (Reservation._id r) id) (reservations s)
          then (inl (duplicateKey "_id_"), alone s)
          else (inr doc, alone (mkStore (clients s) (reservations s ++ [doc])))
      end
  | errs => (inl (validationError "Reservation" errs), alone s)
  end.
Proof.
  unfold Reservation_save. rewrite bind_eq. unfold ask.
  destruct (reservationSchema.validate _ _) eqn:Hval; [|reflexivity].
  apply validate_clientId in Hval.
  change (ReservationInput.clientId (reservationSchema.cast given))
    with (ReservationInput.clientId given) in *.
  rewrite bind_eq. unfold reservationSchema_preSave. cbn [orb].
  rewrite bind_eq, Client_findById_alone by now rewrite isValid_toLowerCase.
  rewrite toLowerCase_idem.
  destruct (clientById _ s); [|reflexivity].
  unfold ret. rewrite await_alone. unfold insertReservation.
  cbn [Reservation._id reservationSchema.cast ReservationInput.vehicle
       ReservationInput.service ReservationInput.status
       ReservationInput.scheduledDate ReservationInput.notes].
  destruct (existsb _ (reservations s)); cbn [fst snd]; [reflexivity|].
  now destruct (ReservationInput.status given).
Qed.

(** A valid reservation-create request is answered 201 and inserts one
    reservation, whose status is the schema's default. *)
Lemma createReservation_created env s body c :
  ObjectId_isValid (ReservationInput.clientId body) = true ->
  clientById (toLowerCase (ReservationInput.clientId body)) s = Some c ->
  now env < ReservationInput.scheduledDate body ->
  reservationSchema.validate (now env)
    (reservationSchema.cast (constructorArguments body)) = [] ->
  castObjectId (freshId env) = Some (freshId env) ->
  reservationById (freshId env) s = None ->
  serve (createReservation body) env s
  = (Some (ReservationCreated (newReservationDoc env body, Some c)),
     mkStore (clients s) (reservations s ++ [newReservationDoc env body])).
Proof.
  intros Hv Hc Hd Hval Hid Hfresh.
  unfold createReservation. rewrite serve_try_catch.
  cbv zeta. rewrite Hv. cbn [negb].
  rewrite bind_eq, (Client_findById_alone _ _ _ Hv), Hc, bind_eq.
  unfold new_Date. cbv beta iota.
  destruct (Z.leb_spec (ReservationInput.scheduledDate body) (now env)); [lia|].
  rewrite bind_eq. unfold new_Reservation. rewrite bind_eq.
  fold (constructorArguments body).
  rewrite Reservation_save_alone, Hval.
  change (ReservationInput.clientId (constructorArguments body))
    with (ReservationInput.clientId body).
  rewrite Hc. cbv zeta.
  unfold reservationById in Hfresh.
  rewrite (find_none_existsb _ _ Hfresh).
  change (Reservation.mk _ _ _ _ _ _ _ _ _) with (newReservationDoc env body).
  rewrite bind_eq. unfold Reservation_findById. rewrite read_alone.
  change (Reservation._id (newReservationDoc env body)) with (freshId env).
  rewrite Hid. unfold reservationById at 1. cbn [reservations].
  rewrite (find_last _ _ (newReservationDoc env body) Hfresh) by apply sameId_refl.
  rewrite bind_eq, populateOne_alone. cbn [option_map].
  change (Reservation.clientId (newReservationDoc env body))
    with (toLowerCase (ReservationInput.clientId body)).
  unfold clientById at 1. cbn [clients].
  fold (clientById (toLowerCase (ReservationInput.clientId body)) s).
  now rewrite Hc.
Qed.

(** C6, as amended.  A valid reservation-create request creates a
    reservation whose status is Pending, whether or not the request
    supplies a status. *)
Theorem C6_created_status_is_pending env s body c :
  ObjectId_isValid (ReservationInput.clientId body) = true ->
  clientById (toLowerCase (ReservationInput.clientId body)) s = Some c ->
  now env < ReservationInput.scheduledDate body ->
  reservationSchema.validate (now env)
    (reservationSchema.cast (constructorArguments body)) = [] ->
  castObjectId (freshId env) = Some (freshId env) ->
  reservationById (freshId env) s = None ->
  exists r,
    serve (createReservation body) env s
    = (Some (ReservationCreated (r, Some c)),
       mkStore (clients s) (reservations s ++ [r]))
    /\ Reservation.status r = "Pendiente"
    /\ dataField "status" (ReservationCreated (r, Some c)) = Some (JStr "Pendiente").
Proof.
  intros Hv Hc Hd Hval Hid Hfresh. exists (newReservationDoc env body).
  split; [now apply createReservation_created|]. split; reflexivity.
Qed.

(** C6, as stated, fails: a valid request that supplies the status
    "Completado" creates a reservation whose status is "Pendiente". *)
Lemma C6_supplied_status_is_dropped :
  ReservationInput.status oilChangeDone = Some "Completado"
  /\ option_map status (fst (serve (createReservation oilChangeDone) evening withAna))
     = Some 201
  /\ map Reservation.status
       (reservations (snd (serve (createReservation oilChangeDone) evening withAna)))
     = ["Pendiente"]
  /\ "Pendiente" <> "Completado".
Proof. vm_compute. repeat split. discriminate. Qed.

(* ---------------------------------------------------------------------- *)
(** * What a client response shows                                          *)
(* ---------------------------------------------------------------------- *)

Lemma get_delete_same k o : get k (delete k o) = None.
Proof.
  unfold delete. induction o as [|[k' v] r IH]; simpl; [reflexivity|].
  destruct (k =? k')%string eqn:E; simpl; [exact IH|]. now rewrite E.
Qed.

Lemma get_delete_other k k' o : k' <> k -> get k' (delete k o) = get k' o.
Proof.
  intros Hk. unfold delete. induction o as [|[k0 v] r IH]; simpl; [reflexivity|].
  destruct (k =? k0)%string eqn:E; simpl.
  - apply String.eqb_eq in E. subst k0.
    destruct (k' =? k)%string eqn:E'; [|exact IH].
    apply String.eqb_eq in E'. contradiction.
  - now rewrite IH.
Qed.

Lemma toJSON_select c :
  Client.toJSON (Client.selectMinusPassword c) = Client.toJSON c.
Proof. unfold Client.toJSON, Client.toObject. now destruct c as [? ? ? [p|] ? ? ? ?]. Qed.

Lemma toJSON_no_password c o : Client.toJSON c = JObj o -> get "password" o = None.
Proof. unfold Client.toJSON. intros [= <-]. apply get_delete_same. Qed.

Lemma getClientById_eq params env s :
  serve (getClientById params) env s =
  if negb (ObjectId_isValid (param "id" params))
  then (Some (failure 400 "ID de cliente no válido"), s)
  else
    match clientById (toLowerCase (param "id" params)) s with
    | None => (Some ClientNotFound, s)
    | Some c => (Some (ClientFound c), s)
    end.
Proof.
  unfold getClientById. rewrite serve_try_catch. cbv zeta.
  destruct (ObjectId_isValid _) eqn:Hv; cbn [negb]; [|reflexivity].
  rewrite bind_eq, (Client_findById_alone _ _ _ Hv).
  destruct (clientById _ s); reflexivity.
Qed.

Lemma selectClients_listing rx query s :
  selectClients (listingFilter rx query) s
  = inr (filter (clientMatches (listingFilter rx query)) (clients s)).
Proof. reflexivity. Qed.

Lemma getAllClients_eq rx query env s :
  let page := orElse (ClientsQuery.page query) 1 in
  let limit := orElse (ClientsQuery.limit query) 10 in
  let all := matchingClients rx query s in
  serve (getAllClients rx query) env s =
  if (page - 1) * limit <? 0
  then (Some (serverError "Error al obtener los clientes" negativeSkip), s)
  else
    (Some (ClientsListed
             (cursorLimit (limit * 1) (cursorSkip ((page - 1) * limit) all))
             (pagination "totalClients" page limit
                (Z.of_nat (length (filter (clientMatches (listingFilter rx query))
                                     (clients s)))))),
     s).
Proof.
  intros page limit all. unfold getAllClients. rewrite serve_try_catch. cbv zeta.
  fold (listingFilter rx query). fold page. fold limit.
  rewrite bind_eq. unfold Client_find. rewrite read_alone, selectClients_listing.
  destruct (_ <? 0); [reflexivity|].
  rewrite bind_eq. unfold Client_countDocuments.
  rewrite read_alone, selectClients_listing. reflexivity.
Qed.

Lemma getClientById_no_password params env s r :
  fst (serve (getClientById params) env s) = Some r ->
  dataField "password" r = None.
Proof.
  rewrite getClientById_eq.
  destruct (negb _); [now intros [= <-]|].
  destruct (clientById _ s) as [c|]; [|now intros [= <-]].
  intros [= <-]. unfold dataField, bodyField, ClientFound. cbn [json].
  change (get "data" _) with (Some (Client.toJSON (Client.selectMinusPassword c))).
  unfold Client.toJSON. apply get_delete_same.
Qed.

Lemma getAllClients_no_password rx query env s r items o :
  fst (serve (getAllClients rx query) env s) = Some r ->
  bodyField "data" r = Some (JArr items) ->
  In (JObj o) items ->
  get "password" o = None.
Proof.
  pose proof (getAllClients_eq rx query env s) as H. cbv zeta in H. rewrite H.
  destruct (_ <? 0); [now intros [= <-]|].
  intros [= <-]. unfold bodyField, ClientsListed. cbn [json].
  change (get "data" _) with
    (Some (JArr (map Client.toJSON
                   (map Client.selectMinusPassword
                      (cursorLimit (orElse (ClientsQuery.limit query) 10 * 1)
                         (cursorSkip
                            ((orElse (ClientsQuery.page query) 1 - 1)
                             * orElse (ClientsQuery.limit query) 10)
                            (matchingClients rx query s))))))).
  intros [= <-] Hin. apply in_map_iff in Hin as [c [Hc _]].
  now apply toJSON_no_password in Hc.
Qed.

Lemma existsb_false_find {A} (p : A -> bool) l :
  existsb p l = false -> find p l = None.
Proof.
  induction l as [|x r IH]; simpl; [reflexivity|].
  destruct (p x); [discriminate|exact IH].
Qed.

(** A client that was created is found under the identifier it was given. *)
Lemma createClient_then_get h env env' s body r s' :
  serve (createClient h body) env s = (Some r, s') ->
  status r = 201 ->
  castObjectId (freshId env) = Some (freshId env) ->
  let doc := newClientDoc h env body in
  In doc (clients s')
  /\ serve (getClientById [("id", freshId env)]) env' s' = (Some (ClientFound doc), s').
Proof.
  intros Hcreate Hst Hid doc. revert Hcreate. rewrite createClient_eq.
  destruct (emailHeld _ s); [intros [= <- _]; discriminate|].
  destruct (clientSchema.validate _); [|intros [= <- _]; discriminate].
  cbv zeta. destruct (idTaken _ s) eqn:Hfresh; [intros [= <- _]; discriminate|].
  intros [= _ <-]. split.
  - cbn [clients]. apply in_or_app. right. now left.
  - rewrite getClientById_eq. change (param "id" [("id", freshId env)]) with (freshId env).
    unfold castObjectId in Hid.
    destruct (ObjectId_isValid (freshId env)); [|discriminate].
    injection Hid as Hid. rewrite Hid. cbn [negb].
    unfold clientById. cbn [clients].
    rewrite (find_last _ _ doc); [reflexivity| |apply sameId_refl].
    now apply existsb_false_find.
Qed.

Lemma updateClient_phone_only env s id c phone :
  ObjectId_isValid id = true ->
  clientById (toLowerCase id) s = Some c ->
  let patch := ClientPatch.mk None None None (Some phone) None in
  let s' := snd (serve (updateClient [("id", id)] patch) env s) in
  exists c', clientById (toLowerCase id) s' = Some c'
             /\ Client.name c' = Client.name c
             /\ Client.email c' = Client.email c
             /\ Client.age c' = Client.age c.
Proof.
  intros Hv Hc patch s'. subst s'. rewrite updateClient_eq, Hv. cbn [negb].
  cbv zeta. cbn [truthy_opt ClientPatch.email patch].
  rewrite (updateClient_write_alone _ _ _ _ Hv).
  destruct (clientSchema.validateUpdate _); [|now exists c].
  rewrite Hc. cbv zeta.
  unfold emailTaken. cbn [applyClientPatch Client.email orElse ClientPatch.email patch
                          clientSchema.castUpdate option_map].
  rewrite String.eqb_refl. cbn [negb andb snd store alone].
  eexists. split.
  - unfold clientById, withClient. cbn [clients].
    apply (find_replaceFirst _ _ _ c); [exact Hc|].
    unfold applyClientPatch. cbn [Client._id].
    destruct (clientById_some _ _ _ Hc) as [_ ->]. apply sameId_refl.
  - unfold applyClientPatch, patch. now cbn.
Qed.

(** C7.  A client that was created is returned by a fetch under its
    identifier with every stored field except the password: the creation
    stores one more client, with the identifier drawn for it, the name, the
    email and the phone of the body as the setters leave them, the hash of
    the password, the age of the body and the time of the creation; the
    fetch answers 200 with that identifier, name, email, phone, age and
    time, and nothing else.  No response of the read and list endpoints
    has a password key; an update whose patch has only the phone leaves
    name, email and age as they were. *)
Theorem C7_client_views :
  (forall h env env' s body r s',
      serve (createClient h body) env s = (Some r, s') ->
      status r = 201 ->
      castObjectId (freshId env) = Some (freshId env) ->
      clients s'
      = (clients s
         ++ [Client.mk (freshId env)
               (trim (ClientInput.name body))
               (toLowerCase (trim (ClientInput.email body)))
               (Some (h (ClientInput.password body) (salt env)))
               (trim (ClientInput.phone body))
               (ClientInput.age body)
               (now env) (now env)])%list
      /\ serve (getClientById [("id", freshId env)]) env' s'
         = (Some (mkResponse 200
                    (JObj [("success", JBool true);
                           ("data",
                            JObj [("_id", JStr (freshId env));
                                  ("name", JStr (trim (ClientInput.name body)));
                                  ("email",
                                   JStr (toLowerCase (trim (ClientInput.email body))));
                                  ("phone", JStr (trim (ClientInput.phone body)));
                                  ("age", JNum (ClientInput.age body));
                                  ("createdAt", JNum (now env));
                                  ("updatedAt", JNum (now env))])])),
            s'))
  /\
  (forall params env s r,
      fst (serve (getClientById params) env s) = Some r ->
      dataField "password" r = None)
  /\
  (forall rx query env s r items o,
      fst (serve (getAllClients rx query) env s) = Some r ->
      bodyField "data" r = Some (JArr items) ->
      In (JObj o) items ->
      get "password" o = None)
  /\
  (forall env s id c phone,
      ObjectId_isValid id = true ->
      clientById (toLowerCase id) s = Some c ->
      let patch := ClientPatch.mk None None None (Some phone) None in
      let s' := snd (serve (updateClient [("id", id)] patch) env s) in
      exists c', clientById (toLowerCase id) s' = Some c'
                 /\ Client.name c' = Client.name c
                 /\ Client.email c' = Client.email c
                 /\ Client.age c' = Client.age c).
Proof.
  split; [|split; [|split]].
  - intros h env env' s body r s' Hcreate Hst Hid.
    destruct (createClient_then_get h env env' s body r s' Hcreate Hst Hid)
      as [_ Hget].
    split; [|rewrite Hget; reflexivity].
    revert Hcreate. rewrite createClient_eq.
    destruct (emailHeld _ s); [intros [= <- _]; discriminate|].
    destruct (clientSchema.validate _); [|intros [= <- _]; discriminate].
    cbv zeta. destruct (idTaken _ s); [intros [= <- _]; discriminate|].
    intros [= _ <-]. reflexivity.
  - exact getClientById_no_password.
  - exact getAllClients_no_password.
  - exact updateClient_phone_only.
Qed.

(* ---------------------------------------------------------------------- *)
(** * Pagination                                                            *)
(* ---------------------------------------------------------------------- *)

Lemma length_insertBy {A} (le : A -> A -> bool) x l :
  length (insertBy le x l) = S (length l).
Proof.
  induction l as [|y r IH]; simpl; [reflexivity|].
  destruct (le x y); simpl; congruence.
Qed.

Lemma length_sortBy {A} (le : A -> A -> bool) l : length (sortBy le l) = length l.
Proof.
  unfold sortBy. induction l as [|x r IH]; simpl; [reflexivity|].
  now rewrite length_insertBy, IH.
Qed.

Lemma length_matchingClients rx query s :
  length (matchingClients rx query s)
  = length (filter (clientMatches (listingFilter rx query)) (clients s)).
Proof. apply length_sortBy. Qed.

(** [Math.ceil(total / limit)] is the least number of pages of [limit]
    records that hold [total] records. *)
Lemma ceil_div_bounds total limit :
  0 < limit ->
  let pages := - ((- total) / limit) in
  (pages - 1) * limit < total <= pages * limit.
Proof.
  intros Hl pages.
  pose proof (Z.mul_div_le (- total) limit Hl).
  pose proof (Z.mul_succ_div_gt (- total) limit Hl).
  subst pages. nia.
Qed.

Lemma cursorLimit_positive {A} limit (l : list A) :
  0 < limit -> cursorLimit (limit * 1) l = firstn (Z.to_nat limit) l.
Proof.
  intros Hl. unfold cursorLimit. rewrite Z.mul_1_r.
  destruct (Z.eqb_spec limit 0); [lia|]. now rewrite Z.abs_eq by lia.
Qed.

Lemma getAllClients_page rx query env s :
  let page := orElse (ClientsQuery.page query) 1 in
  let limit := orElse (ClientsQuery.limit query) 10 in
  let all := matchingClients rx query s in
  let total := Z.of_nat (length all) in
  0 < page -> 0 < limit ->
  serve (getAllClients rx query) env s
  = (Some (ClientsListed
             (firstn (Z.to_nat limit) (skipn (Z.to_nat ((page - 1) * limit)) all))
             (JObj [("currentPage", JNum page);
                    ("totalPages", JNum (- ((- total) / limit)));
                    ("totalClients", JNum total);
                    ("hasNext", JBool (page * limit <? total));
                    ("hasPrev", JBool (1 <? page))])),
     s).
Proof.
  intros page limit all total Hp Hl.
  pose proof (getAllClients_eq rx query env s) as H. cbv zeta in H. rewrite H.
  fold page limit all.
  destruct (Z.ltb_spec ((page - 1) * limit) 0) as [Hneg|_]; [nia|].
  rewrite (cursorLimit_positive _ _ Hl). unfold cursorSkip, pagination, Math_ceil_div.
  rewrite <- length_matchingClients. fold all total.
  destruct (Z.eqb_spec limit 0); [lia|]. now rewrite Z.mul_1_r.
Qed.

(** C8.  With positive page and limit, the list of clients is the slice of
    the matching clients (newest first) that starts at offset
    [(page - 1) * limit] and has at most [limit] records, and the summary
    has [totalPages = ceil(total / limit)], [hasNext = (page * limit <
    total)] and [hasPrev = (page > 1)].  With 25 matching clients and a
    limit of 10, page 1 is records 1 to 10 with a next and no previous
    page, and page 3 is records 21 to 25 with a previous and no next page,
    of 3 pages. *)
Theorem C8_pagination :
  (forall rx query env s,
      let page := orElse (ClientsQuery.page query) 1 in
      let limit := orElse (ClientsQuery.limit query) 10 in
      let all := matchingClients rx query s in
      let total := Z.of_nat (length all) in
      0 < page -> 0 < limit ->
      exists slice totalPages,
        serve (getAllClients rx query) env s
        = (Some (ClientsListed slice
                   (JObj [("currentPage", JNum page);
                          ("totalPages", JNum totalPages);
                          ("totalClients", JNum total);
                          ("hasNext", JBool (page * limit <? total));
                          ("hasPrev", JBool (1 <? page))])),
           s)
        /\ slice = firstn (Z.to_nat limit) (skipn (Z.to_nat ((page - 1) * limit)) all)
        /\ Z.of_nat (length slice) <= limit
        /\ (totalPages - 1) * limit < total <= totalPages * limit)
  /\
  (forall rx name email env s,
      let all := matchingClients rx (ClientsQuery.mk (Some 1) (Some 10) name email) s in
      length all = 25%nat ->
      serve (getAllClients rx (ClientsQuery.mk (Some 1) (Some 10) name email)) env s
      = (Some (ClientsListed (firstn 10 all)
                 (JObj [("currentPage", JNum 1); ("totalPages", JNum 3);
                        ("totalClients", JNum 25); ("hasNext", JBool true);
                        ("hasPrev", JBool false)])),
         s)
      /\ length (firstn 10 all) = 10%nat)
  /\
  (forall rx name email env s,
      let all := matchingClients rx (ClientsQuery.mk (Some 3) (Some 10) name email) s in
      length all = 25%nat ->
      serve (getAllClients rx (ClientsQuery.mk (Some 3) (Some 10) name email)) env s
      = (Some (ClientsListed (skipn 20 all)
                 (JObj [("currentPage", JNum 3); ("totalPages", JNum 3);
                        ("totalClients", JNum 25); ("hasNext", JBool false);
                        ("hasPrev", JBool true)])),
         s)
      /\ length (skipn 20 all) = 5%nat).
Proof.
  split; [|split].
  - intros rx query env s page limit all total Hp Hl.
    exists (firstn (Z.to_nat limit) (skipn (Z.to_nat ((page - 1) * limit)) all)),
      (- ((- total) / limit)).
    split; [now apply getAllClients_page|]. split; [reflexivity|]. split.
    + rewrite length_firstn. lia.
    + now apply ceil_div_bounds.
  - intros rx name email env s all Hlen.
    rewrite getAllClients_page by (cbn; lia). cbv zeta.
    cbn [orElse ClientsQuery.page ClientsQuery.limit].
    fold all. rewrite Hlen. split; [reflexivity|].
    rewrite length_firstn, Hlen. reflexivity.
  - intros rx name email env s all Hlen.
    rewrite getAllClients_page by (cbn; lia). cbv zeta.
    cbn [orElse ClientsQuery.page ClientsQuery.limit].
    fold all. rewrite Hlen.
    assert (firstn (Z.to_nat 10) (skipn (Z.to_nat ((3 - 1) * 10)) all)
            = skipn 20 all) as ->.
    { change (Z.to_nat ((3 - 1) * 10)) with 20%nat. change (Z.to_nat 10) with 10%nat.
      apply firstn_all2. rewrite length_skipn, Hlen. simpl. lia. }
    split; [reflexivity|]. rewrite length_skipn, Hlen. reflexivity.
Qed.

(* ---------------------------------------------------------------------- *)
(** * The reservations of one client                                        *)
(* ---------------------------------------------------------------------- *)

(** [validateId] looks for a parameter named [id]; the route binds
    [clientId], so the check is made on a missing value and fails. *)
Lemma GET_reservations_client_rejects env s clientId query :
  serve (GET_reservations_client_clientId clientId query) env s
  = (Some (ValidationFailed [idNotValid]), s).
Proof. reflexivity. Qed.

(** The handler behind the route, reached directly, lists the reservations
    of an existing client. *)
Lemma getReservationsByClient_lists env s id c query :
  ObjectId_isValid id = true ->
  clientById (toLowerCase id) s = Some c ->
  let page := orElse (ClientReservationsQuery.page query) 1 in
  let limit := orElse (ClientReservationsQuery.limit query) 10 in
  let all := filter (reservationMatches (clientReservationsFilter id query))
               (reservations s) in
  0 < page -> 0 < limit ->
  serve (getReservationsByClient [("clientId", id)] query) env s
  = (Some (ReservationsListed
             (map (fun r => (r, clientById (Reservation.clientId r) s))
                (firstn (Z.to_nat limit)
                   (skipn (Z.to_nat ((page - 1) * limit)) (soonestFirst all))))
             (pagination "totalReservations" page limit (Z.of_nat (length all)))),
     s).
Proof.
  intros Hv Hc page limit all Hp Hl.
  unfold getReservationsByClient. rewrite serve_try_catch.
  change (param "clientId" [("clientId", id)]) with id. cbv zeta.
  fold (clientReservationsFilter id query). fold page. fold limit.
  rewrite Hv. cbn [negb].
  rewrite bind_eq, (Client_findById_alone _ _ _ Hv), Hc, bind_eq.
  unfold Reservation_find. rewrite read_alone.
  unfold selectReservations. cbn [castId whereClientId clientReservationsFilter].
  rewrite Hv. fold (clientReservationsFilter id query). fold all.
  destruct (Z.ltb_spec ((page - 1) * limit) 0); [nia|].
  rewrite bind_eq. unfold populate. rewrite read_alone, bind_eq.
  unfold Reservation_countDocuments. rewrite read_alone.
  unfold selectReservations. cbn [castId whereClientId clientReservationsFilter].
  rewrite Hv. fold (clientReservationsFilter id query). fold all.
  now rewrite (cursorLimit_positive _ _ Hl).
Qed.

(** The routes that bind [id] are served as [validateId] intends: for an
    identifier of 24 hexadecimal digits the request reaches the handler. *)
Lemma GET_clients_id_valid env s id :
  isMongoId id = true ->
  serve (GET_clients_id id) env s = serve (getClientById [("id", id)]) env s.
Proof.
  intros Hv. unfold GET_clients_id, through, validateId, param_id_isMongoId.
  cbv zeta. change (param "id" [("id", id)]) with id. now rewrite Hv.
Qed.

Lemma DELETE_clients_id_valid env s id :
  isMongoId id = true ->
  serve (DELETE_clients_id id) env s = serve (deleteClient [("id", id)]) env s.
Proof.
  intros Hv. unfold DELETE_clients_id, through, validateId, param_id_isMongoId.
  cbv zeta. change (param "id" [("id", id)]) with id. now rewrite Hv.
Qed.

(** C9.  Every request to [GET /reservations/client/{clientId}] is
    answered 400 by [validateId], also when the identifier is valid and
    names an existing client: Ana is a client and has a booking, the
    handler alone would answer 200, the route answers 400. *)
Theorem C9_client_reservations_route_rejects :
  (forall env s clientId query,
      serve (GET_reservations_client_clientId clientId query) env s
      = (Some (ValidationFailed [idNotValid]), s))
  /\ ObjectId_isValid anaId = true
  /\ option_map Client.name (clientById anaId withBooking) = Some "Ana Ruiz"
  /\ option_map status
       (fst (serve (getReservationsByClient [("clientId", anaId)]
                      (ClientReservationsQuery.mk None None None)) noon withBooking))
     = Some 200
  /\ option_map status
       (fst (serve (GET_reservations_client_clientId anaId
                      (ClientReservationsQuery.mk None None None)) noon withBooking))
     = Some 400.
Proof.
  split; [exact GET_reservations_client_rejects|]. vm_compute. repeat split.
Qed.

(* ---------------------------------------------------------------------- *)
(** * Duplicate keys raised by the store                                    *)
(* ---------------------------------------------------------------------- *)

Lemma await_pending {A} (op : Store -> Result A * Store) env s g rest :
  await op env (mkWorld s (g :: rest))
  = (fst (op (g s)), mkWorld (snd (op (g s))) rest).
Proof. unfold await. simpl. now destruct (op (g s)). Qed.

Lemma insertClient_rejected doc s e :
  fst (insertClient doc s) = inl e -> snd (insertClient doc s) = s.
Proof.
  unfold insertClient. destruct (existsb _ (clients s)); [reflexivity|].
  destruct (existsb _ (clients s)); [reflexivity|discriminate].
Qed.

Lemma updateClientById_rejected oid u today s e :
  fst (updateClientById oid u today s) = inl e ->
  snd (updateClientById oid u today s) = s.
Proof.
  unfold updateClientById. destruct (clientById oid s); [|discriminate].
  destruct (_ && _); [reflexivity|discriminate].
Qed.

Lemma emailHeld_false_no_match email s :
  emailHeld (normalized email) s = false ->
  hd_error (filter (clientMatches (mkClientFilter None None (Some (Equals email))))
              (clients s)) = None.
Proof.
  intros Held. apply hd_error_filter_none. intros c Hc.
  unfold clientMatches, holdsOpt, holds. simpl.
  destruct (Client.email c =? _)%string eqn:E; [|reflexivity].
  assert (emailHeld (normalized email) s = true) as Hex
      by (apply existsb_exists; now exists c).
  congruence.
Qed.

(** The pre-check of [createClient] passes on the store [s]; before the
    insert, a write of another request turns the store into [other s], on
    which the insert raises a duplicate-key error. *)
Lemma createClient_duplicate_key h env s other body e :
  emailHeld (normalized (ClientInput.email body)) s = false ->
  clientSchema.validate (clientSchema.cast body) = [] ->
  fst (insertClient (newClientDoc h env body) (other s)) = inl e ->
  code e = Some 11000 ->
  run (createClient h body) env (mkWorld s [quiet; other])
  = (Some DuplicateEmail, other s).
Proof.
  intros Held Hval Hins Hcode.
  unfold run, createClient, try_catch. cbv zeta. rewrite body_eta.
  rewrite bind_eq. unfold Client_findOne, read. rewrite await_pending.
  unfold quiet, selectClients. cbn [castId whereIdNot fst snd].
  rewrite (emailHeld_false_no_match _ _ Held).
  rewrite bind_eq. unfold new_Client. rewrite bind_eq.
  unfold Client_save. rewrite Hval. unfold clientSchema_preSave. cbn [negb].
  unfold bind, ask, ret. cbv beta iota. rewrite await_pending.
  change (Client.mk _ _ _ _ _ _ _ _) with (newClientDoc h env body).
  rewrite Hins, (insertClient_rejected _ _ _ Hins), Hcode. reflexivity.
Qed.

(** The same for [updateClient]. *)
Lemma updateClient_duplicate_key env s other id patch email e :
  ObjectId_isValid id = true ->
  ClientPatch.email patch = Some email ->
  truthy email = true ->
  (forall d, In d (clients s) -> Client.email d = normalized email ->
             Client._id d = toLowerCase id) ->
  clientSchema.validateUpdate (clientSchema.castUpdate patch) = [] ->
  fst (updateClientById (toLowerCase id) (clientSchema.castUpdate patch) (now env)
         (other s)) = inl e ->
  code e = Some 11000 ->
  run (updateClient [("id", id)] patch) env (mkWorld s [quiet; other])
  = (Some DuplicateEmail, other s).
Proof.
  intros Hv He Ht Hfree Hval Hupd Hcode.
  unfold run, updateClient, try_catch.
  change (param "id" [("id", id)]) with id. cbv zeta. rewrite Hv. cbn [negb].
  rewrite He. cbn [truthy_opt option_map]. rewrite Ht.
  rewrite bind_eq. unfold Client_findOne, read. rewrite await_pending.
  unfold quiet, selectClients. cbn [castId whereIdNot fst snd]. rewrite Hv.
  rewrite hd_error_filter_none.
  2:{ intros d Hd. unfold clientMatches, holdsOpt, holds. simpl.
      destruct (Client.email d =? _)%string eqn:E; [|now rewrite andb_false_r].
      apply String.eqb_eq in E. rewrite (Hfree d Hd E), sameId_refl. reflexivity. }
  unfold updateClient_write, Client_findByIdAndUpdate.
  rewrite (castObjectId_valid _ Hv), Hval.
  unfold bind, ask, ret. cbv beta iota. rewrite await_pending.
  rewrite Hupd, (updateClientById_rejected _ _ _ _ _ Hupd), Hcode. reflexivity.
Qed.

(** C10.  When the email pre-check of a client create or update passes and
    the store then raises a duplicate-key error (code 11000) on the insert
    or the update, the response is the DuplicateEmail response (400) of the
    pre-check itself, not a 500. *)
Theorem C10_duplicate_key_is_duplicate_email :
  (forall h env s other body e,
      emailHeld (normalized (ClientInput.email body)) s = false ->
      clientSchema.validate (clientSchema.cast body) = [] ->
      fst (insertClient (newClientDoc h env body) (other s)) = inl e ->
      code e = Some 11000 ->
      run (createClient h body) env (mkWorld s [quiet; other])
      = (Some DuplicateEmail, other s))
  /\
  (forall env s other id patch email e,
      ObjectId_isValid id = true ->
      ClientPatch.email patch = Some email ->
      truthy email = true ->
      (forall d, In d (clients s) -> Client.email d = normalized email ->
                 Client._id d = toLowerCase id) ->
      clientSchema.validateUpdate (clientSchema.castUpdate patch) = [] ->
      fst (updateClientById (toLowerCase id) (clientSchema.castUpdate patch) (now env)
             (other s)) = inl e ->
      code e = Some 11000 ->
      run (updateClient [("id", id)] patch) env (mkWorld s [quiet; other])
      = (Some DuplicateEmail, other s))
  /\ status DuplicateEmail = 400
  /\ bodyField "message" DuplicateEmail = Some (JStr "El email ya está registrado").
Proof.
  split; [exact createClient_duplicate_key|].
  split; [exact updateClient_duplicate_key|]. split; reflexivity.
Qed.

(* ---------------------------------------------------------------------- *)
(** * The email check of the update route                                   *)
(* ---------------------------------------------------------------------- *)

Lemma checkEmailUnique_alone params body env s :
  checkEmailUnique params body env (alone s) =
  (inr (if truthy_opt (ClientPatch.email body) then
          match hd_error (filter (clientMatches
                                    (mkClientFilter None None
                                       (option_map Equals (ClientPatch.email body))))
                            (clients s)) with
          | Some existingClient =>
              if negb (Client._id existingClient =? param "id" params)%string
              then Some DuplicateEmail
              else None
          | None => None
          end
        else None),
   alone s).
Proof.
  unfold checkEmailUnique, try_catch. cbv zeta.
  destruct (truthy_opt _); [|reflexivity].
  rewrite bind_eq, Client_findOne_alone. unfold selectClients.
  cbn [castId whereIdNot].
  destruct (hd_error (filter _ _)); [|reflexivity].
  destruct (negb _); reflexivity.
Qed.

(** On the route, [checkEmailUnique] runs before [updateClient].  It
    compares the identifier of the client that holds the email with the
    path parameter as text.  For a parameter in the form identifiers are
    printed in, the route answers as the handler does. *)
Lemma PUT_clients_id_canonical env s id patch :
  ObjectId_isValid id = true ->
  toLowerCase id = id ->
  serve (PUT_clients_id id patch) env s
  = serve (updateClient [("id", id)] patch) env s.
Proof.
  intros Hv Hlow.
  assert (forall h : M Response,
             (let (r0, w') := h env (alone s) in
              match r0 with
              | inl _ => (None, store w')
              | inr r => (Some r, store w')
              end) = serve h env s) as Hserve by reflexivity.
  unfold PUT_clients_id, through. cbv zeta.
  unfold serve at 1, run. rewrite bind_eq.
  unfold validateId, ret, param_id_isMongoId.
  change (param "id" [("id", id)]) with id.
  rewrite (isValid_isMongoId _ Hv).
  cbn [handleValidationErrors].
  rewrite bind_eq. fold (alone s). rewrite checkEmailUnique_alone.
  change (param "id" [("id", id)]) with id.
  destruct (truthy_opt (ClientPatch.email patch)) eqn:Ht; [|now rewrite Hserve].
  destruct (ClientPatch.email patch) as [e|] eqn:He; [|discriminate].
  cbn [option_map].
  destruct (hd_error (filter (clientMatches (mkClientFilter None None (Some (Equals e))))
                        (clients s))) as [d|] eqn:Hd.
  - apply hd_error_filter_some in Hd as [Hin Hm].
    unfold clientMatches, holdsOpt, holds in Hm. simpl in Hm.
    apply String.eqb_eq in Hm.
    destruct (Client._id d =? id)%string eqn:Hid; cbn [negb].
    + now rewrite Hserve.
    + rewrite updateClient_eq, Hv, He. cbn [negb truthy_opt option_map] in *.
      rewrite Ht.
      assert (clientMatches (mkClientFilter (Some id) None (Some (Equals e))) d = true)
        as Hmatch.
      { unfold clientMatches, holdsOpt, holds. simpl.
        rewrite Hlow. unfold sameId. rewrite Hid, Hm. now rewrite String.eqb_refl. }
      assert (In d (filter (clientMatches (mkClientFilter (Some id) None (Some (Equals e))))
                      (clients s))) as Hf by (apply filter_In; now split).
      destruct (filter _ (clients s)) as [|d0 r]; [contradiction|reflexivity].
  - now rewrite Hserve.
Qed.

(** For another spelling of the same identifier the comparison fails: Ana,
    named by her identifier in upper case, is refused her own email by the
    route; the handler accepts it. *)
Lemma PUT_clients_id_upper_case :
  castObjectId anaIdUpper = Some anaId
  /\ serve (PUT_clients_id anaIdUpper toAnasEmail) noon withAna
     = (Some DuplicateEmail, withAna)
  /\ option_map status
       (fst (serve (updateClient [("id", anaIdUpper)] toAnasEmail) noon withAna))
     = Some 200.
Proof. vm_compute. repeat split. Qed.

(* ---------------------------------------------------------------------- *)
(** * The invariant: emails are unique                                      *)
(* ---------------------------------------------------------------------- *)

(** The store starts empty, and the three handlers that write clients keep
    emails unique when they run alone: the hypothesis [emailsUnique] of the
    statements above holds of every store they produce. *)

Lemma emailsUnique_empty : emailsUnique empty.
Proof. intros c d []. Qed.

Lemma In_replaceFirst {A} (p : A -> bool) x l y :
  In y (replaceFirst p x l) -> y = x \/ In y l.
Proof.
  induction l as [|z r IH]; simpl; [tauto|].
  destruct (p z); simpl.
  - intros [<-|H]; auto.
  - intros [<-|H]; auto. destruct (IH H); auto.
Qed.

Lemma In_removeFirst {A} (p : A -> bool) l y :
  In y (removeFirst p l) -> In y l.
Proof.
  induction l as [|z r IH]; simpl; [tauto|].
  destruct (p z); simpl; [auto|]. intros [<-|H]; auto.
Qed.

Lemma emailHeld_false email s c :
  emailHeld email s = false -> In c (clients s) -> Client.email c <> email.
Proof.
  intros Held Hin He.
  assert (emailHeld email s = true) as H.
  { apply existsb_exists. exists c. split; [exact Hin|]. now apply String.eqb_eq. }
  congruence.
Qed.

Lemma emailsUnique_createClient h env s body :
  emailsUnique s -> emailsUnique (snd (serve (createClient h body) env s)).
Proof.
  intros Hu. rewrite createClient_eq.
  destruct (emailHeld _ s) eqn:Held; [exact Hu|].
  destruct (clientSchema.validate _); [|exact Hu].
  cbv zeta. destruct (idTaken _ s); [exact Hu|].
  intros c d Hc Hd He. cbn [snd clients] in Hc, Hd.
  apply in_app_or in Hc, Hd.
  destruct Hc as [Hc|[<-|[]]], Hd as [Hd|[<-|[]]].
  - now apply Hu.
  - exfalso. now apply (emailHeld_false _ _ _ Held Hc).
  - exfalso. now apply (emailHeld_false _ _ _ Held Hd).
  - reflexivity.
Qed.

Lemma emailTaken_false oid c c' s d :
  emailTaken oid c c' s = false ->
  In d (clients s) -> Client.email d = Client.email c' ->
  Client.email c' = Client.email c \/ Client._id d = oid.
Proof.
  unfold emailTaken. intros H Hin He.
  destruct (Client.email c' =? Client.email c)%string eqn:E.
  - left. now apply String.eqb_eq.
  - right. cbn [negb andb] in H.
    destruct (sameId (Client._id d) oid) eqn:Hid; [now apply sameId_eq|].
    exfalso.
    assert (existsb (fun d => negb (sameId (Client._id d) oid)
                              && (Client.email d =? Client.email c')%string)
              (clients s) = true) as Hex.
    { apply existsb_exists. exists d. split; [exact Hin|].
      rewrite Hid. cbn [negb andb]. now apply String.eqb_eq. }
    congruence.
Qed.

Lemma emailsUnique_updateClient env s id patch :
  emailsUnique s ->
  emailsUnique (snd (serve (updateClient [("id", id)] patch) env s)).
Proof.
  intros Hu. rewrite updateClient_eq.
  destruct (ObjectId_isValid id) eqn:Hv; cbn [negb]; [|exact Hu].
  assert (emailsUnique
            (snd match updateClient_write id patch env (alone s) with
                 | (inr r, w) => (Some r, store w)
                 | (inl e, w) =>
                     (Some (if match code e with Some c => c =? 11000 | None => false end
                            then DuplicateEmail
                            else serverError "Error al actualizar el cliente" e),
                      store w)
                 end)) as Hw.
  { rewrite (updateClient_write_alone _ _ _ _ Hv).
    destruct (clientSchema.validateUpdate _); [|exact Hu].
    destruct (clientById _ s) as [c|] eqn:Hc; [|exact Hu].
    cbv zeta. destruct (emailTaken _ _ _ _) eqn:Ht; [exact Hu|].
    set (c' := applyClientPatch (clientSchema.castUpdate patch) (now env) c) in *.
    destruct (clientById_some _ _ _ Hc) as [Hin Hid].
    assert (Client._id c' = toLowerCase id) as Hid' by exact Hid.
    intros a b Ha Hb He. cbn [snd store alone withClient clients] in Ha, Hb.
    apply In_replaceFirst in Ha, Hb.
    destruct Ha as [->|Ha], Hb as [->|Hb].
    - reflexivity.
    - rewrite Hid'. symmetry in He.
      destruct (emailTaken_false _ _ _ _ _ Ht Hb He) as [Hsame|Hb']; [|now symmetry].
      rewrite Hsame in He. rewrite (Hu b c Hb Hin He). now symmetry.
    - rewrite Hid'.
      destruct (emailTaken_false _ _ _ _ _ Ht Ha He) as [Hsame|Ha']; [|exact Ha'].
      rewrite Hsame in He. rewrite (Hu a c Ha Hin He). exact Hid.
    - now apply Hu. }
  cbv zeta. destruct (truthy_opt _); [|exact Hw].
  destruct (hd_error _); [exact Hu|exact Hw].
Qed.

Lemma emailsUnique_deleteClient env s id :
  emailsUnique s -> emailsUnique (snd (serve (deleteClient [("id", id)]) env s)).
Proof.
  intros Hu. destruct (ObjectId_isValid id) eqn:Hv.
  - rewrite (deleteClient_eq _ _ _ Hv).
    destruct (_ >? 0); [exact Hu|].
    destruct (clientById _ s); [|exact Hu].
    intros a b Ha Hb. cbn [snd withoutClient clients] in Ha, Hb.
    apply In_removeFirst in Ha, Hb. now apply Hu.
  - unfold deleteClient. rewrite serve_try_catch.
    change (param "id" [("id", id)]) with id. rewrite Hv. exact Hu.
Qed.

(* ---------------------------------------------------------------------- *)
(** * The theorems on the sample data                                       *)
(* ---------------------------------------------------------------------- *)

Lemma emailsUnique_withAna : emailsUnique withAna.
Proof.
  intros c d Hc Hd _. vm_compute in Hc, Hd.
  destruct Hc as [<-|[]], Hd as [<-|[]]. reflexivity.
Defined.

(** Ana cannot register twice; Luis is refused Ana's email, which Ana
    holds; Ana may keep hers. *)
Lemma C1_email_uniqueness_sample :
  serve (createClient sampleHash anaRuiz) noon withAna = (Some DuplicateEmail, withAna)
  /\ (exists d, In d (clients withAnaAndLuis) /\ Client._id d <> toLowerCase luisId
                /\ Client.email d = normalized "ana@x.com")
  /\ serve (updateClient [("id", anaId)] toAnasEmail) noon withAna
     = (Some (ClientUpdated
                (applyClientPatch (clientSchema.castUpdate toAnasEmail) (now noon) ana)),
        withClient (toLowerCase anaId)
          (applyClientPatch (clientSchema.castUpdate toAnasEmail) (now noon) ana)
          withAna).
Proof.
  destruct C1_email_uniqueness as [Hcreate [Hupdate Hown]].
  split; [|split].
  - apply (Hcreate sampleHash noon withAna anaRuiz ana).
    + vm_compute. left. reflexivity.
    + vm_compute. reflexivity.
  - apply (Hupdate evening withAnaAndLuis luisId toAnasEmail "ana@x.com").
    + reflexivity.
    + vm_compute. reflexivity.
  - apply (Hown noon withAna anaId toAnasEmail ana "ana@x.com").
    + vm_compute. reflexivity.
    + vm_compute. reflexivity.
    + exact emailsUnique_withAna.
    + reflexivity.
    + vm_compute. reflexivity.
    + vm_compute. reflexivity.
Defined.

(** Ana can be deleted before she books, and not after. *)
Lemma C2_delete_client_guard_sample :
  serve (deleteClient [("id", anaId)]) noon withAna
  = (Some ClientDeleted, withoutClient (Client._id ana) withAna)
  /\ serve (deleteClient [("id", anaId)]) noon withBooking
     = (Some HasActiveReservations, withBooking).
Proof.
  split.
  - apply (C2_delete_client_guard noon withAna anaId ana).
    + vm_compute. reflexivity.
    + vm_compute. reflexivity.
    + vm_compute. reflexivity.
  - apply (C2_delete_client_guard noon withBooking anaId ana).
    + vm_compute. reflexivity.
    + vm_compute. reflexivity.
    + vm_compute. lia.
Defined.

(** A booking for a malformed identifier, one for Luis before he
    registered, and the save of the latter. *)
Lemma C3_create_reservation_reference_sample :
  serve (createReservation
           (ReservationInput.mk "ana" "Toyota Corolla 2020" "Cambio de aceite" 5000
              None None)) evening withAna
  = (Some InvalidReference, withAna)
  /\ serve (createReservation
              (ReservationInput.mk luisId "Toyota Corolla 2020" "Cambio de aceite"
                 5000 None None)) evening withAna
     = (Some ClientNotFound, withAna)
  /\ exists e,
       Reservation_save
         (bookingId,
          ReservationInput.mk luisId "Toyota Corolla 2020" "Cambio de aceite" 5000
            None None) evening (alone withAna)
       = (inl e, alone withAna).
Proof.
  destruct C3_create_reservation_reference as [Hinvalid [Hmissing Hsave]].
  split; [|split].
  - apply Hinvalid. vm_compute. reflexivity.
  - apply Hmissing; vm_compute; reflexivity.
  - apply (Hsave evening withAna
             (bookingId,
              ReservationInput.mk luisId "Toyota Corolla 2020" "Cambio de aceite"
                5000 None None)).
    vm_compute. reflexivity.
Defined.

(** In the evening a booking for the morning is refused, and so is moving
    Ana's booking to the morning; marking it completed is not a matter of
    dates, at any hour. *)
Lemma C4_future_date_sample :
  fst (serve (createReservation oilChangeLate) evening withAna) = Some InvalidDate
  /\ fst (serve (updateReservation [("id", bookingId)] toYesterday) evening withBooking)
     = Some InvalidDate
  /\ fst (serve (updateReservation [("id", bookingId)] toCompleted) evening withBooking)
     <> Some InvalidDate
  /\ option_map status
       (fst (serve (updateReservation [("id", bookingId)] toCompleted)
               evening withBooking))
     = option_map status
         (fst (serve (updateReservation [("id", bookingId)] toCompleted)
                 morning withBooking)).
Proof.
  destruct C4_future_date as [Hcreate [Hupdate [Hundated Hclock]]].
  split; [|split; [|split]].
  - apply (Hcreate evening withAna oilChangeLate ana).
    + vm_compute. reflexivity.
    + vm_compute. reflexivity.
    + vm_compute. discriminate.
  - apply (Hupdate evening withBooking bookingId toYesterday 1000).
    + vm_compute. reflexivity.
    + vm_compute. reflexivity.
    + reflexivity.
    + vm_compute. discriminate.
  - apply Hundated. reflexivity.
  - apply Hclock. reflexivity.
Defined.

(** Ana's oil change, sent as already completed, is created pending. *)
Lemma C6_created_status_is_pending_sample :
  exists r,
    serve (createReservation oilChangeDone) evening withAna
    = (Some (ReservationCreated (r, Some ana)),
       mkStore (clients withAna) (reservations withAna ++ [r]))
    /\ Reservation.status r = "Pendiente"
    /\ dataField "status" (ReservationCreated (r, Some ana)) = Some (JStr "Pendiente").
Proof.
  apply (C6_created_status_is_pending evening withAna oilChangeDone ana).
  - vm_compute. reflexivity.
  - vm_compute. reflexivity.
  - vm_compute. reflexivity.
  - vm_compute. reflexivity.
  - vm_compute. reflexivity.
  - vm_compute. reflexivity.
Defined.

(** Ana registers and is fetched; her phone changes and nothing else. *)
Lemma C7_client_views_sample :
  (clients withAna
   = [Client.mk anaId "Ana Ruiz" "ana@x.com"
        (Some (sampleHash "123456" "N9qo8uLOickgx2ZMRZoMye")) "+573000000" 25
        1000 1000]
   /\ serve (getClientById [("id", anaId)]) noon withAna
      = (Some (mkResponse 200
                 (JObj [("success", JBool true);
                        ("data",
                         JObj [("_id", JStr anaId); ("name", JStr "Ana Ruiz");
                               ("email", JStr "ana@x.com");
                               ("phone", JStr "+573000000"); ("age", JNum 25);
                               ("createdAt", JNum 1000);
                               ("updatedAt", JNum 1000)])])),
         withAna))
  /\ dataField "password" (ClientFound ana) = None
  /\ get "password" (delete "password" (Client.toObject ana)) = None
  /\ (exists c', clientById (toLowerCase anaId)
                   (snd (serve (updateClient [("id", anaId)] newPhone) noon withAna))
                 = Some c'
                 /\ Client.name c' = Client.name ana
                 /\ Client.email c' = Client.email ana
                 /\ Client.age c' = Client.age ana).
Proof.
  destruct C7_client_views as [Hround [Hread [Hlist Hphone]]].
  split; [|split; [|split]].
  - apply (Hround sampleHash morning noon empty anaRuiz (ClientCreated ana) withAna).
    + vm_compute. reflexivity.
    + reflexivity.
    + vm_compute. reflexivity.
  - apply (Hread [("id", anaId)] noon withAna (ClientFound ana)).
    vm_compute. reflexivity.
  - apply (Hlist sampleRegexI (ClientsQuery.mk None None None None) noon withAna
             (ClientsListed [ana]
                (pagination "totalClients" 1 10 1))
             [Client.toJSON ana] (delete "password" (Client.toObject ana))).
    + vm_compute. reflexivity.
    + vm_compute. reflexivity.
    + left. reflexivity.
  - apply (Hphone noon withAna anaId ana "+573009999").
    + vm_compute. reflexivity.
    + vm_compute. reflexivity.
Defined.

(** The third page of ten of the 25 clients, and the first and third pages
    again. *)
Lemma C8_pagination_sample :
  (exists slice totalPages,
      serve (getAllClients sampleRegexI (ClientsQuery.mk (Some 3) (Some 10) None None))
        noon crowded
      = (Some (ClientsListed slice
                 (JObj [("currentPage", JNum 3);
                        ("totalPages", JNum totalPages);
                        ("totalClients", JNum 25);
                        ("hasNext", JBool (3 * 10 <? 25));
                        ("hasPrev", JBool (1 <? 3))])),
         crowded)
      /\ slice = firstn 10 (skipn 20 (registered 25))
      /\ Z.of_nat (length slice) <= 10
      /\ (totalPages - 1) * 10 < 25 <= totalPages * 10)
  /\ serve (getAllClients sampleRegexI (ClientsQuery.mk (Some 1) (Some 10) None None))
       noon crowded
     = (Some (ClientsListed (firstn 10 (registered 25))
                (JObj [("currentPage", JNum 1); ("totalPages", JNum 3);
                       ("totalClients", JNum 25); ("hasNext", JBool true);
                       ("hasPrev", JBool false)])),
        crowded)
  /\ serve (getAllClients sampleRegexI (ClientsQuery.mk (Some 3) (Some 10) None None))
       noon crowded
     = (Some (ClientsListed (skipn 20 (registered 25))
                (JObj [("currentPage", JNum 3); ("totalPages", JNum 3);
                       ("totalClients", JNum 25); ("hasNext", JBool false);
                       ("hasPrev", JBool true)])),
        crowded).
Proof.
  destruct C8_pagination as [Hpage [Hfirst Hthird]].
  assert (matchingClients sampleRegexI (ClientsQuery.mk (Some 3) (Some 10) None None)
            crowded = registered 25) as H3 by (vm_compute; reflexivity).
  assert (matchingClients sampleRegexI (ClientsQuery.mk (Some 1) (Some 10) None None)
            crowded = registered 25) as H1 by (vm_compute; reflexivity).
  split; [|split].
  - pose proof (Hpage sampleRegexI (ClientsQuery.mk (Some 3) (Some 10) None None)
                  noon crowded) as H.
    cbv zeta in H. rewrite H3 in H.
    apply H; cbn; lia.
  - pose proof (Hfirst sampleRegexI None None noon crowded) as H.
    cbv zeta in H. rewrite H1 in H. apply H. reflexivity.
  - pose proof (Hthird sampleRegexI None None noon crowded) as H.
    cbv zeta in H. rewrite H3 in H. apply H. reflexivity.
Defined.

(** Ana registers twice at once, and Luis takes Ana's email while she
    registers: in both races the request that loses at the store is
    answered DuplicateEmail. *)
Lemma C10_duplicate_key_sample :
  run (createClient sampleHash anaRuiz) noon (mkWorld empty [quiet; anaRegisters])
  = (Some DuplicateEmail, anaRegisters empty)
  /\ run (updateClient [("id", luisId)] toAnasEmail) evening
       (mkWorld withLuis [quiet; anaRegisters])
     = (Some DuplicateEmail, anaRegisters withLuis).
Proof.
  destruct C10_duplicate_key_is_duplicate_email as [Hcreate [Hupdate _]].
  split.
  - apply (Hcreate sampleHash noon empty anaRegisters anaRuiz (duplicateKey "email_1")).
    + vm_compute. reflexivity.
    + vm_compute. reflexivity.
    + vm_compute. reflexivity.
    + reflexivity.
  - apply (Hupdate evening withLuis anaRegisters luisId toAnasEmail "ana@x.com"
             (duplicateKey "email_1")).
    + vm_compute. reflexivity.
    + reflexivity.
    + vm_compute. reflexivity.
    + intros d Hd He. vm_compute in Hd. destruct Hd as [<-|[]].
      vm_compute in He. discriminate.
    + vm_compute. reflexivity.
    + vm_compute. reflexivity.
    + reflexivity.
Defined.

(* ---------------------------------------------------------------------- *)
(** * Reads leave the store alone                                           *)
(* ---------------------------------------------------------------------- *)

Lemma readOnly_ret {A} (a : A) : readOnly (ret a).
Proof. intros env s. reflexivity. Qed.

Lemma readOnly_throw {A} (e : JsError) : readOnly (@throw A e).
Proof. intros env s. reflexivity. Qed.

Lemma readOnly_read {A} (q : Store -> Result A) : readOnly (read q).
Proof. intros env s. reflexivity. Qed.

Lemma readOnly_new_Date : readOnly new_Date.
Proof. intros env s. reflexivity. Qed.

Lemma readOnly_bind {A B} (m : M A) (k : A -> M B) :
  readOnly m -> (forall a, readOnly (k a)) -> readOnly (bind m k).
Proof.
  intros Hm Hk env s. rewrite bind_eq. specialize (Hm env s).
  destruct (m env (alone s)) as [[e|a] w]; cbn [snd] in *; subst w.
  - reflexivity.
  - apply Hk.
Qed.

Lemma readOnly_try_catch {A} (m : M A) (h : JsError -> M A) :
  readOnly m -> (forall e, readOnly (h e)) -> readOnly (try_catch m h).
Proof.
  intros Hm Hh env s. unfold try_catch. specialize (Hm env s).
  destruct (m env (alone s)) as [[e|a] w]; cbn [snd] in *; subst w.
  - apply Hh.
  - reflexivity.
Qed.

Lemma readOnly_serve (h : M Response) env s :
  readOnly h -> snd (serve h env s) = s.
Proof.
  intros Hh. unfold serve, run. fold (alone s). specialize (Hh env s).
  destruct (h env (alone s)) as [[e|r] w]; cbn [snd] in *; now subst w.
Qed.

Ltac read_only :=
  repeat first
    [ apply readOnly_ret | apply readOnly_throw | apply readOnly_read
    | apply readOnly_new_Date
    | apply readOnly_try_catch; [|intros ?]
    | apply readOnly_bind; [|intros ?]
    | match goal with
      | |- readOnly (if ?b then _ else _) => destruct b
      | |- readOnly (match ?x with _ => _ end) => destruct x
      end ].

Lemma readOnly_populateOne r : readOnly (populateOne r).
Proof. unfold populateOne, populate. read_only. Qed.

Lemma readOnly_getAllClients rx query : readOnly (getAllClients rx query).
Proof.
  unfold getAllClients, Client_find, Client_countDocuments. cbv zeta. read_only.
Qed.

Lemma readOnly_getClientById params : readOnly (getClientById params).
Proof. unfold getClientById, Client_findById. cbv zeta. read_only. Qed.

Lemma readOnly_getAllReservations rx query : readOnly (getAllReservations rx query).
Proof.
  unfold getAllReservations, getAllReservations_list, Reservation_findWhere,
    Reservation_countWhere, populate. cbv zeta. read_only.
Qed.

Lemma readOnly_getReservationById params : readOnly (getReservationById params).
Proof.
  unfold getReservationById, Reservation_findById. cbv zeta.
  read_only; apply readOnly_populateOne.
Qed.

Lemma readOnly_getReservationsByClient params query :
  readOnly (getReservationsByClient params query).
Proof.
  unfold getReservationsByClient, Client_findById, Reservation_find,
    Reservation_countDocuments, populate. cbv zeta. read_only.
Qed.

(** X1.  The five handlers that read never write: served alone, each leaves
    the store as it found it, whatever it is asked and whatever it answers. *)
Theorem reading_changes_nothing rx env s :
  (forall query, snd (serve (getAllClients rx query) env s) = s)
  /\ (forall params, snd (serve (getClientById params) env s) = s)
  /\ (forall query, snd (serve (getAllReservations rx query) env s) = s)
  /\ (forall params, snd (serve (getReservationById params) env s) = s)
  /\ (forall params query,
         snd (serve (getReservationsByClient params query) env s) = s).
Proof.
  repeat split; intros; apply readOnly_serve.
  - apply readOnly_getAllClients.
  - apply readOnly_getClientById.
  - apply readOnly_getAllReservations.
  - apply readOnly_getReservationById.
  - apply readOnly_getReservationsByClient.
Qed.

(* ---------------------------------------------------------------------- *)
(** * What the writes change                                                *)
(* ---------------------------------------------------------------------- *)

Lemma createReservation_eq env s body :
  castObjectId (freshId env) = Some (freshId env) ->
  serve (createReservation body) env s =
  if negb (ObjectId_isValid (ReservationInput.clientId body))
  then (Some InvalidReference, s)
  else
    match clientById (toLowerCase (ReservationInput.clientId body)) s with
    | None => (Some ClientNotFound, s)
    | Some c =>
        if ReservationInput.scheduledDate body <=? now env
        then (Some InvalidDate, s)
        else
          match reservationSchema.validate (now env)
                  (reservationSchema.cast (constructorArguments body)) with
          | [] =>
              if reservationIdTaken (freshId env) s
              then (Some (serverError "Error al crear la reserva"
                            (duplicateKey "_id_")), s)
              else (Some (ReservationCreated (newReservationDoc env body, Some c)),
                    withNewReservation (newReservationDoc env body) s)
          | errs =>
              (Some (serverError "Error al crear la reserva"
                       (validationError "Reservation" errs)), s)
          end
    end.
Proof.
  intros Hid.
  destruct (ObjectId_isValid (ReservationInput.clientId body)) eqn:Hv; cbn [negb].
  2:{ now apply createReservation_invalid_reference. }
  destruct (clientById _ s) as [c|] eqn:Hc.
  2:{ now apply createReservation_client_not_found. }
  destruct (Z.leb_spec (ReservationInput.scheduledDate body) (now env)) as [Hle|Hgt].
  { pose proof (createReservation_dated env s body c Hv Hc) as H.
    destruct (Z.leb_spec (ReservationInput.scheduledDate body) (now env)); [exact H|lia]. }
  destruct (reservationSchema.validate _ _) eqn:Hval.
  - destruct (reservationIdTaken _ s) eqn:Htaken.
    + unfold createReservation. rewrite serve_try_catch.
      cbv zeta. rewrite Hv. cbn [negb].
      rewrite bind_eq, (Client_findById_alone _ _ _ Hv), Hc, bind_eq.
      unfold new_Date. cbv beta iota.
      destruct (Z.leb_spec (ReservationInput.scheduledDate body) (now env)); [lia|].
      rewrite bind_eq. unfold new_Reservation. rewrite bind_eq.
      fold (constructorArguments body).
      rewrite Reservation_save_alone, Hval.
      change (ReservationInput.clientId (constructorArguments body))
        with (ReservationInput.clientId body).
      rewrite Hc. cbv zeta. unfold reservationIdTaken in Htaken. rewrite Htaken.
      reflexivity.
    + apply createReservation_created; try assumption.
      now apply existsb_false_find.
  - unfold createReservation. rewrite serve_try_catch.
    cbv zeta. rewrite Hv. cbn [negb].
    rewrite bind_eq, (Client_findById_alone _ _ _ Hv), Hc, bind_eq.
    unfold new_Date. cbv beta iota.
    destruct (Z.leb_spec (ReservationInput.scheduledDate body) (now env)); [lia|].
    rewrite bind_eq. unfold new_Reservation. rewrite bind_eq.
    fold (constructorArguments body).
    rewrite Reservation_save_alone, Hval. reflexivity.
Qed.

Lemma Reservation_findByIdAndDelete_alone id env s :
  ObjectId_isValid id = true ->
  Reservation_findByIdAndDelete id env (alone s) =
  match reservationById (toLowerCase id) s with
  | None => (inr None, alone s)
  | Some r => (inr (Some r), alone (withoutReservation (toLowerCase id) s))
  end.
Proof.
  intros Hv. unfold Reservation_findByIdAndDelete.
  rewrite (castObjectId_valid _ Hv), await_alone.
  destruct (reservationById _ s); reflexivity.
Qed.

Lemma deleteReservation_eq params env s :
  serve (deleteReservation params) env s =
  if negb (ObjectId_isValid (param "id" params)) then (Some InvalidReservationId, s)
  else
    match reservationById (toLowerCase (param "id" params)) s with
    | None => (Some ReservationNotFound, s)
    | Some _ =>
        (Some ReservationDeleted,
         withoutReservation (toLowerCase (param "id" params)) s)
    end.
Proof.
  unfold deleteReservation. rewrite serve_try_catch. cbv zeta.
  destruct (ObjectId_isValid _) eqn:Hv; cbn [negb]; [|reflexivity].
  rewrite bind_eq, (Reservation_findByIdAndDelete_alone _ _ _ Hv).
  destruct (reservationById _ s); reflexivity.
Qed.

Lemma getReservationById_eq params env s :
  serve (getReservationById params) env s =
  if negb (ObjectId_isValid (param "id" params)) then (Some InvalidReservationId, s)
  else
    match reservationById (toLowerCase (param "id" params)) s with
    | None => (Some ReservationNotFound, s)
    | Some r => (Some (ReservationFound (populatedIn s r)), s)
    end.
Proof.
  unfold getReservationById. rewrite serve_try_catch. cbv zeta.
  destruct (ObjectId_isValid _) eqn:Hv; cbn [negb]; [|reflexivity].
  rewrite bind_eq. unfold Reservation_findById. rewrite read_alone.
  rewrite (castObjectId_valid _ Hv), bind_eq, populateOne_alone.
  destruct (reservationById _ s); reflexivity.
Qed.

Lemma deleteClient_invalid id env s :
  ObjectId_isValid id = false ->
  serve (deleteClient [("id", id)]) env s = (Some InvalidClientId, s).
Proof.
  intros Hv. unfold deleteClient. rewrite serve_try_catch.
  change (param "id" [("id", id)]) with id. now rewrite Hv.
Qed.

(** The outcome of [updateReservation], in full. *)
Lemma updateReservation_is_outcome id u env s :
  serve (updateReservation [("id", id)] u) env s = updateReservation_outcome id u env s.
Proof.
  rewrite updateReservation_eq. unfold updateReservation_outcome. cbv zeta.
  destruct (ObjectId_isValid id) eqn:Hv; cbn [negb]; [|reflexivity].
  rewrite updateReservation_fromDate_alone, (updateReservation_write_alone _ _ _ _ Hv).
  assert (match
            match ReservationPatch.scheduledDate u with
            | Some date =>
                if date <=? now env then (inr InvalidDate, alone s)
                else
                  match reservationSchema.validateUpdate (now env)
                          (reservationSchema.castUpdate u) with
                  | [] =>
                      match reservationById (toLowerCase id) s with
                      | None => (inr ReservationNotFound, alone s)
                      | Some r =>
                          let r' := applyReservationPatch
                                      (reservationSchema.castUpdate u) (now env) r in
                          let s' := withReservation (toLowerCase id) r' s in
                          (inr (ReservationUpdated
                                  (r', clientById (Reservation.clientId r') s')),
                           alone s')
                      end
                  | errs => (inl (updateValidationError errs), alone s)
                  end
            | None =>
                match reservationSchema.validateUpdate (now env)
                        (reservationSchema.castUpdate u) with
                | [] =>
                    match reservationById (toLowerCase id) s with
                    | None => (inr ReservationNotFound, alone s)
                    | Some r =>
                        let r' := applyReservationPatch
                                    (reservationSchema.castUpdate u) (now env) r in
                        let s' := withReservation (toLowerCase id) r' s in
                        (inr (ReservationUpdated
                                (r', clientById (Reservation.clientId r') s')),
                         alone s')
                    end
                | errs => (inl (updateValidationError errs), alone s)
                end
            end
          with
          | (inr r, w) => (Some r, store w)
          | (inl e, w) =>
              (Some (serverError "Error al actualizar la reserva" e), store w)
          end
          = match ReservationPatch.scheduledDate u with
            | Some date =>
                if date <=? now env then (Some InvalidDate, s)
                else updateReservation_written id u env s
            | None => updateReservation_written id u env s
            end) as Hfrom.
  { unfold updateReservation_written.
    destruct (ReservationPatch.scheduledDate u) as [date|];
      [destruct (date <=? now env); [reflexivity|]|];
      (destruct (reservationSchema.validateUpdate _ _); [|reflexivity];
       destruct (reservationById _ s); reflexivity). }
  unfold referenceResolves, truthy_opt.
  destruct (ReservationPatch.clientId u) as [cid|]; [|exact Hfrom].
  cbn [orElse]. destruct (truthy cid); [|exact Hfrom].
  destruct (ObjectId_isValid cid); cbn [negb andb]; [|reflexivity].
  destruct (clientById _ s); [exact Hfrom|reflexivity].
Qed.

Lemma updateClient_is_outcome id u env s :
  serve (updateClient [("id", id)] u) env s = updateClient_outcome id u env s.
Proof.
  rewrite updateClient_eq. unfold updateClient_outcome. cbv zeta.
  destruct (ObjectId_isValid id) eqn:Hv; cbn [negb]; [|reflexivity].
  rewrite (updateClient_write_alone _ _ _ _ Hv).
  assert (match
            match clientSchema.validateUpdate (clientSchema.castUpdate u) with
            | [] =>
                match clientById (toLowerCase id) s with
                | None => (inr (failure 404 "Cliente no encontrado"), alone s)
                | Some c =>
                    let c' := applyClientPatch (clientSchema.castUpdate u) (now env) c in
                    if emailTaken (toLowerCase id) c c' s
                    then (inl (duplicateKey "email_1"), alone s)
                    else (inr (ClientUpdated c'),
                          alone (withClient (toLowerCase id) c' s))
                end
            | errs => (inl (updateValidationError errs), alone s)
            end
          with
          | (inr r, w) => (Some r, store w)
          | (inl e, w) =>
              (Some (if match code e with Some c => c =? 11000 | None => false end
                     then DuplicateEmail
                     else serverError "Error al actualizar el cliente" e), store w)
          end = updateClient_written id u env s) as Hw.
  { unfold updateClient_written.
    destruct (clientSchema.validateUpdate _); [|reflexivity].
    destruct (clientById _ s); [|reflexivity].
    cbv zeta. destruct (emailTaken _ _ _ _); reflexivity. }
  unfold emailHeldByOther.
  destruct (truthy_opt _); [|exact Hw].
  destruct (hd_error _); [reflexivity|exact Hw].
Qed.

Section Frame.

Variable R : Store -> Store -> Prop.
Hypothesis R_refl : forall s, R s s.
Hypothesis R_trans : forall a b c, R a b -> R b c -> R a c.

Lemma keeps_ret {A} (a : A) : keeps R (ret a).
Proof. intros env s. exists s. auto. Qed.

Lemma keeps_throw {A} (e : JsError) : keeps R (@throw A e).
Proof. intros env s. exists s. auto. Qed.

Lemma keeps_ask : keeps R ask.
Proof. intros env s. exists s. auto. Qed.

Lemma keeps_new_Date : keeps R new_Date.
Proof. intros env s. exists s. auto. Qed.

Lemma keeps_new_Client fields : keeps R (new_Client fields).
Proof. intros env s. exists s. auto. Qed.

Lemma keeps_new_Reservation fields : keeps R (new_Reservation fields).
Proof. intros env s. exists s. auto. Qed.

Lemma keeps_read {A} (q : Store -> Result A) : keeps R (read q).
Proof. intros env s. exists s. auto. Qed.

Lemma keeps_await {A} (op : Store -> Result A * Store) :
  (forall s, R s (snd (op s))) -> keeps R (await op).
Proof.
  intros Hop env s. exists (snd (op s)). rewrite await_alone. auto.
Qed.

Lemma keeps_bind {A B} (m : M A) (k : A -> M B) :
  keeps R m -> (forall a, keeps R (k a)) -> keeps R (bind m k).
Proof.
  intros Hm Hk env s. rewrite bind_eq. destruct (Hm env s) as (s1 & Hs1 & H1).
  destruct (m env (alone s)) as [[e|a] w]; cbn [snd] in *; subst w.
  - now exists s1.
  - destruct (Hk a env s1) as (s2 & Hs2 & H2). exists s2. eauto.
Qed.

Lemma keeps_try_catch {A} (m : M A) (h : JsError -> M A) :
  keeps R m -> (forall e, keeps R (h e)) -> keeps R (try_catch m h).
Proof.
  intros Hm Hh env s. unfold try_catch. destruct (Hm env s) as (s1 & Hs1 & H1).
  destruct (m env (alone s)) as [[e|a] w]; cbn [snd] in *; subst w.
  - destruct (Hh e env s1) as (s2 & Hs2 & H2). exists s2. eauto.
  - now exists s1.
Qed.

Lemma keeps_serve (h : M Response) env s : keeps R h -> R s (snd (serve h env s)).
Proof.
  intros Hh. unfold serve, run. fold (alone s). destruct (Hh env s) as (s1 & Hs1 & H1).
  destruct (h env (alone s)) as [[e|r] w]; cbn [snd] in *; now subst w.
Qed.

End Frame.

Ltac frame R_refl R_trans :=
  repeat first
    [ apply (keeps_ret _ R_refl) | apply (keeps_throw _ R_refl)
    | apply (keeps_read _ R_refl) | apply (keeps_ask _ R_refl)
    | apply (keeps_new_Date _ R_refl) | apply (keeps_new_Client _ R_refl)
    | apply (keeps_new_Reservation _ R_refl)
    | apply (keeps_try_catch _ R_trans); [|intros ?]
    | apply (keeps_bind _ R_trans); [|intros ?]
    | match goal with
      | |- keeps _ (if ?b then _ else _) => destruct b eqn:?
      | |- keeps _ (match ?x with _ => _ end) => destruct x eqn:?
      | |- keeps _ (let (_, _) := ?x in _) => destruct x eqn:?
      end ].

Ltac unfold_models :=
  repeat progress
    unfold Client_findOne, Client_findById, Client_find, Client_countDocuments,
      Client_save, Client_findByIdAndUpdate, Client_findByIdAndDelete,
      clientSchema_preSave, Reservation_countDocuments, Reservation_find,
      Reservation_findById, Reservation_findWhere, Reservation_countWhere,
      Reservation_save, Reservation_findByIdAndUpdate,
      Reservation_findByIdAndDelete, reservationSchema_preSave, populateOne,
      populate, updateClient_write, updateReservation_fromDate,
      updateReservation_write, getAllReservations_list;
  cbv zeta.

Lemma sameReservations_refl s : sameReservations s s.
Proof. reflexivity. Qed.

Lemma sameReservations_trans a b c :
  sameReservations a b -> sameReservations b c -> sameReservations a c.
Proof. unfold sameReservations. congruence. Qed.

Lemma sameClients_refl s : sameClients s s.
Proof. reflexivity. Qed.

Lemma sameClients_trans a b c : sameClients a b -> sameClients b c -> sameClients a c.
Proof. unfold sameClients. congruence. Qed.

Ltac keeps_await_by tac :=
  match goal with
  | |- keeps ?R (await _) => apply keeps_await; intros ?; tac
  end.

Lemma createClient_keeps_reservations h body : keeps sameReservations (createClient h body).
Proof.
  unfold createClient. unfold_models.
  frame sameReservations_refl sameReservations_trans.
  apply keeps_await. intros s. unfold insertClient.
  repeat destruct (existsb _ _); reflexivity.
Qed.

Lemma updateClient_keeps_reservations params u :
  keeps sameReservations (updateClient params u).
Proof.
  unfold updateClient. unfold_models.
  frame sameReservations_refl sameReservations_trans;
    (apply keeps_await; intros s; unfold updateClientById;
     destruct (clientById _ s); [destruct (_ && _)|]; reflexivity).
Qed.

Lemma deleteClient_keeps_reservations params : keeps sameReservations (deleteClient params).
Proof.
  unfold deleteClient. unfold_models.
  frame sameReservations_refl sameReservations_trans.
  apply keeps_await. intros s. destruct (clientById _ s); reflexivity.
Qed.

Lemma createReservation_keeps_clients body : keeps sameClients (createReservation body).
Proof.
  unfold createReservation. unfold_models.
  frame sameClients_refl sameClients_trans.
  apply keeps_await. intros s. unfold insertReservation.
  destruct (existsb _ _); reflexivity.
Qed.

Lemma updateReservation_keeps_clients params u :
  keeps sameClients (updateReservation params u).
Proof.
  unfold updateReservation. unfold_models.
  frame sameClients_refl sameClients_trans;
    (apply keeps_await; intros s; destruct (reservationById _ s); reflexivity).
Qed.

Lemma deleteReservation_keeps_clients params : keeps sameClients (deleteReservation params).
Proof.
  unfold deleteReservation. unfold_models.
  frame sameClients_refl sameClients_trans.
  apply keeps_await. intros s. destruct (reservationById _ s); reflexivity.
Qed.

(** X2.  The three handlers that write clients never touch a reservation (in
    particular deleting a client deletes none of its reservations), and the
    three that write reservations never touch a client. *)
Theorem writes_stay_in_their_collection h env s :
  (forall body, reservations (snd (serve (createClient h body) env s)) = reservations s)
  /\ (forall params patch,
         reservations (snd (serve (updateClient params patch) env s)) = reservations s)
  /\ (forall params,
         reservations (snd (serve (deleteClient params) env s)) = reservations s)
  /\ (forall body, clients (snd (serve (createReservation body) env s)) = clients s)
  /\ (forall params patch,
         clients (snd (serve (updateReservation params patch) env s)) = clients s)
  /\ (forall params,
         clients (snd (serve (deleteReservation params) env s)) = clients s).
Proof.
  repeat split; intros.
  - apply (keeps_serve sameReservations), createClient_keeps_reservations.
  - apply (keeps_serve sameReservations), updateClient_keeps_reservations.
  - apply (keeps_serve sameReservations), deleteClient_keeps_reservations.
  - apply (keeps_serve sameClients), createReservation_keeps_clients.
  - apply (keeps_serve sameClients), updateReservation_keeps_clients.
  - apply (keeps_serve sameClients), deleteReservation_keeps_clients.
Qed.

(* ---------------------------------------------------------------------- *)
(** * Invariants under interleaving                                         *)
(* ---------------------------------------------------------------------- *)

Section Invariant.

Variable I : Store -> Prop.

Lemma invariant_ret {A} (a : A) : invariant I (ret a).
Proof. intros env w Hw. exact Hw. Qed.

Lemma invariant_throw {A} (e : JsError) : invariant I (@throw A e).
Proof. intros env w Hw. exact Hw. Qed.

Lemma invariant_ask : invariant I ask.
Proof. intros env w Hw. exact Hw. Qed.

Lemma invariant_new_Date : invariant I new_Date.
Proof. intros env w Hw. exact Hw. Qed.

Lemma invariant_new_Client fields : invariant I (new_Client fields).
Proof. intros env w Hw. exact Hw. Qed.

Lemma invariant_new_Reservation fields : invariant I (new_Reservation fields).
Proof. intros env w Hw. exact Hw. Qed.

Lemma invariant_await {A} (op : Store -> Result A * Store) :
  (forall s, I s -> I (snd (op s))) -> invariant I (await op).
Proof.
  intros Hop env [s pend] [Hs Hp]. unfold await. cbn [store pending] in *.
  destruct pend as [|g rest].
  - destruct (op s) as [r s'] eqn:E. split; [|constructor].
    cbn [snd store]. specialize (Hop s Hs). now rewrite E in Hop.
  - inversion Hp as [|? ? Hg Hrest]; subst.
    destruct (op (g s)) as [r s'] eqn:E. split; [|exact Hrest].
    cbn [snd store]. specialize (Hop (g s) (Hg s Hs)). now rewrite E in Hop.
Qed.

Lemma invariant_read {A} (q : Store -> Result A) : invariant I (read q).
Proof. apply invariant_await. auto. Qed.

Lemma invariant_bind {A B} (m : M A) (k : A -> M B) :
  invariant I m -> (forall a, invariant I (k a)) -> invariant I (bind m k).
Proof.
  intros Hm Hk env w Hw. rewrite bind_eq. specialize (Hm env w Hw).
  destruct (m env w) as [[e|a] w1]; cbn [snd] in *; [exact Hm|].
  now apply Hk.
Qed.

Lemma invariant_try_catch {A} (m : M A) (h : JsError -> M A) :
  invariant I m -> (forall e, invariant I (h e)) -> invariant I (try_catch m h).
Proof.
  intros Hm Hh env w Hw. unfold try_catch. specialize (Hm env w Hw).
  destruct (m env w) as [[e|a] w1]; cbn [snd] in *; [|exact Hm].
  now apply Hh.
Qed.

Lemma invariant_run (h : M Response) env w :
  invariant I h -> safe I w -> I (snd (run h env w)).
Proof.
  intros Hh Hw. unfold run. specialize (Hh env w Hw).
  destruct (h env w) as [[e|r] w1]; exact (proj1 Hh).
Qed.

Lemma invariant_serve (h : M Response) env s :
  invariant I h -> I s -> I (snd (serve h env s)).
Proof.
  intros Hh Hs. apply invariant_run; [exact Hh|]. split; [exact Hs|constructor].
Qed.

End Invariant.

Ltac invariant_steps :=
  repeat first
    [ apply invariant_ret | apply invariant_throw | apply invariant_read
    | apply invariant_ask | apply invariant_new_Date | apply invariant_new_Client
    | apply invariant_new_Reservation
    | apply invariant_try_catch; [|intros ?]
    | apply invariant_bind; [|intros ?]
    | match goal with
      | |- invariant _ (if ?b then _ else _) => destruct b eqn:?
      | |- invariant _ (match ?x with _ => _ end) => destruct x eqn:?
      | |- invariant _ (let (_, _) := ?x in _) => destruct x eqn:?
      end ].

(** The store operations that write, one by one. *)

Lemma In_map_id_removeFirst {A B} (f : A -> B) (p : A -> bool) l :
  NoDup (map f l) -> NoDup (map f (removeFirst p l)).
Proof.
  induction l as [|x r IH]; simpl; [auto|].
  intros H. inversion H as [|? ? Hnotin Hr]; subst.
  destruct (p x); [exact Hr|]. simpl. constructor; [|now apply IH].
  intros Hin. apply Hnotin. apply in_map_iff in Hin as (y & Hy & Hin).
  apply in_map_iff. exists y. split; [exact Hy|]. now apply In_removeFirst in Hin.
Qed.

Lemma map_replaceFirst {A B} (f : A -> B) (p : A -> bool) x l :
  (forall y, p y = true -> f y = f x) ->
  map f (replaceFirst p x l) = map f l.
Proof.
  intros Hp. induction l as [|y r IH]; simpl; [reflexivity|].
  destruct (p y) eqn:E; simpl; [now rewrite (Hp y E)|now rewrite IH].
Qed.

Lemma NoDup_snoc {A} (l : list A) x : NoDup l -> ~ In x l -> NoDup (l ++ [x]).
Proof.
  intros Hl Hx. apply NoDup_app; [exact Hl|repeat constructor; auto|].
  intros a Ha [<-|[]]. contradiction.
Qed.

Lemma existsb_sameId_false {A} (f : A -> ObjectId) l oid :
  existsb (fun x => sameId (f x) oid) l = false -> ~ In oid (map f l).
Proof.
  intros H Hin. apply in_map_iff in Hin as (x & Hx & Hin).
  assert (existsb (fun x => sameId (f x) oid) l = true) as Ht.
  { apply existsb_exists. exists x. split; [exact Hin|]. now apply sameId_eq. }
  congruence.
Qed.

Lemma insertClient_uniqueKeys doc s :
  uniqueKeys s -> uniqueKeys (snd (insertClient doc s)).
Proof.
  intros (He & Hc & Hr). unfold insertClient.
  destruct (existsb (fun c => sameId (Client._id c) (Client._id doc)) (clients s))
    eqn:Hid; [now repeat split|].
  destruct (existsb (fun c => (Client.email c =? Client.email doc)%string) (clients s))
    eqn:Hem; [now repeat split|].
  cbn [snd]. repeat split; [| |exact Hr].
  - intros c d Hc' Hd' Heq. cbn [clients] in Hc', Hd'.
    apply in_app_or in Hc', Hd'.
    fold (emailHeld (Client.email doc) s) in Hem.
    destruct Hc' as [Hc'|[<-|[]]], Hd' as [Hd'|[<-|[]]].
    + now apply He.
    + exfalso. now apply (emailHeld_false _ _ _ Hem Hc').
    + exfalso. now apply (emailHeld_false _ _ _ Hem Hd').
    + reflexivity.
  - unfold clientIdsUnique. cbn [clients]. rewrite map_app. cbn [map].
    apply NoDup_snoc; [exact Hc|]. now apply existsb_sameId_false.
Qed.

Lemma updateClientById_uniqueKeys oid u today s :
  uniqueKeys s -> uniqueKeys (snd (updateClientById oid u today s)).
Proof.
  intros (He & Hc & Hr). unfold updateClientById.
  destruct (clientById oid s) as [c|] eqn:Hfind; [|now repeat split].
  cbv zeta. fold (emailTaken oid c (applyClientPatch u today c) s).
  destruct (emailTaken _ _ _ _) eqn:Ht; [now repeat split|].
  set (c' := applyClientPatch u today c) in *.
  destruct (clientById_some _ _ _ Hfind) as [Hin Hid].
  cbn [snd]. repeat split; [| |exact Hr].
  - intros a b Ha Hb Heq. cbn [clients] in Ha, Hb.
    apply In_replaceFirst in Ha, Hb.
    assert (Client._id c' = oid) as Hid' by exact Hid.
    destruct Ha as [->|Ha], Hb as [->|Hb].
    + reflexivity.
    + rewrite Hid'. symmetry in Heq.
      destruct (emailTaken_false _ _ _ _ _ Ht Hb Heq) as [Hsame|Hb']; [|now symmetry].
      rewrite Hsame in Heq. rewrite (He b c Hb Hin Heq). now symmetry.
    + rewrite Hid'.
      destruct (emailTaken_false _ _ _ _ _ Ht Ha Heq) as [Hsame|Ha']; [|exact Ha'].
      rewrite Hsame in Heq. rewrite (He a c Ha Hin Heq). exact Hid.
    + now apply He.
  - unfold clientIdsUnique. cbn [clients]. rewrite map_replaceFirst; [exact Hc|].
    intros y Hy. apply sameId_eq in Hy. rewrite Hy. now symmetry.
Qed.

Lemma deleteClientById_uniqueKeys oid s :
  uniqueKeys s -> uniqueKeys (withoutClient oid s).
Proof.
  intros (He & Hc & Hr). repeat split; [| |exact Hr].
  - intros a b Ha Hb. cbn [withoutClient clients] in Ha, Hb.
    apply In_removeFirst in Ha, Hb. now apply He.
  - unfold clientIdsUnique. cbn [withoutClient clients].
    now apply In_map_id_removeFirst.
Qed.

Lemma insertReservation_uniqueKeys doc s :
  uniqueKeys s -> uniqueKeys (snd (insertReservation doc s)).
Proof.
  intros (He & Hc & Hr). unfold insertReservation.
  destruct (existsb _ (reservations s)) eqn:Hid; [now repeat split|].
  cbn [snd]. repeat split; [exact He|exact Hc|].
  unfold reservationIdsUnique. cbn [reservations]. rewrite map_app. cbn [map].
  apply NoDup_snoc; [exact Hr|]. now apply existsb_sameId_false.
Qed.

Lemma withReservation_uniqueKeys oid r s :
  Reservation._id r = oid -> uniqueKeys s -> uniqueKeys (withReservation oid r s).
Proof.
  intros Hid (He & Hc & Hr). repeat split; [exact He|exact Hc|].
  unfold reservationIdsUnique. cbn [withReservation reservations].
  rewrite map_replaceFirst; [exact Hr|].
  intros y Hy. apply sameId_eq in Hy. now rewrite Hy, Hid.
Qed.

Lemma withoutReservation_uniqueKeys oid s :
  uniqueKeys s -> uniqueKeys (withoutReservation oid s).
Proof.
  intros (He & Hc & Hr). repeat split; [exact He|exact Hc|].
  unfold reservationIdsUnique. cbn [withoutReservation reservations].
  now apply In_map_id_removeFirst.
Qed.

Lemma reservationById_some oid s r :
  reservationById oid s = Some r -> In r (reservations s) /\ Reservation._id r = oid.
Proof.
  unfold reservationById. intros H. apply find_some in H. now rewrite sameId_eq in H.
Qed.

Ltac unfold_handlers :=
  unfold getAllClients, getClientById, createClient, updateClient, deleteClient,
    getAllReservations, getReservationById, createReservation, updateReservation,
    deleteReservation, getReservationsByClient;
  unfold_models.

Lemma handler_uniqueKeys h rx call : invariant uniqueKeys (handler h rx call).
Proof.
  destruct call; cbn [handler]; unfold_handlers; invariant_steps;
    apply invariant_await; intros s Hs;
    first
      [ now apply insertClient_uniqueKeys
      | now apply updateClientById_uniqueKeys
      | now apply insertReservation_uniqueKeys
      | destruct (clientById _ s); cbn [snd];
        [now apply deleteClientById_uniqueKeys|exact Hs]
      | destruct (reservationById _ s) as [r|] eqn:Hr; cbn [snd]; [|exact Hs];
        first
          [ now apply withoutReservation_uniqueKeys
          | apply withReservation_uniqueKeys; [|exact Hs];
            unfold applyReservationPatch; cbn [Reservation._id];
            now destruct (reservationById_some _ _ _ Hr) ] ].
Qed.

(** X3.  The calls of the handlers keep the unique indexes: client emails,
    client identifiers and reservation identifiers stay unique under every
    interleaving with writes that keep them unique, and in every store
    reached from the empty one. *)
Theorem unique_keys_are_kept h rx :
  uniqueKeys empty
  /\ (forall call env w,
         safe uniqueKeys w -> uniqueKeys (snd (run (handler h rx call) env w)))
  /\ (forall calls s, uniqueKeys s -> uniqueKeys (served h rx calls s)).
Proof.
  split; [|split].
  - repeat split; [intros c d []|constructor|constructor].
  - intros call env w Hw. apply invariant_run; [apply handler_uniqueKeys|exact Hw].
  - induction calls as [|[env call] rest IH]; intros s Hs; [exact Hs|].
    cbn [served]. apply IH. apply invariant_serve; [apply handler_uniqueKeys|exact Hs].
Qed.

(* ---------------------------------------------------------------------- *)
(** * What the patterns of the client schema accept                         *)
(* ---------------------------------------------------------------------- *)

Lemma test_Void s : test Void s = false.
Proof. induction s; simpl; auto. Qed.

Lemma cat_Void_l b : cat Void b = Void.
Proof. reflexivity. Qed.

Lemma occurs_cat a b x : occurs (cat a b) x = true -> occurs a x || occurs b x = true.
Proof.
  destruct a, b; simpl; auto; try discriminate;
    rewrite ?orb_false_r, ?orb_false_l; auto.
Qed.

Lemma occurs_alt a b x : occurs (alt a b) x = true -> occurs a x || occurs b x = true.
Proof.
  destruct a, b; simpl; auto; try discriminate;
    rewrite ?orb_false_r, ?orb_false_l; auto.
Qed.

Lemma deriv_unread c r : occurs r c = false -> deriv c r = Void.
Proof.
  induction r as [| |p|a IHa b IHb|a IHa b IHb|a IHa]; simpl; auto.
  - now intros ->.
  - intros H. apply orb_false_iff in H as [Ha Hb].
    rewrite (IHa Ha), (IHb Hb). now destruct (nullable a).
  - intros H. apply orb_false_iff in H as [Ha Hb]. now rewrite (IHa Ha), (IHb Hb).
  - intros H. now rewrite (IHa H).
Qed.

Lemma occurs_deriv c r x : occurs (deriv c r) x = true -> occurs r x = true.
Proof.
  induction r as [| |p|a IHa b IHb|a IHa b IHb|a IHa]; simpl; try discriminate.
  - now destruct (p c).
  - destruct (nullable a).
    + intros H. apply occurs_alt in H. apply orb_true_iff in H as [H|H].
      * apply occurs_cat in H. apply orb_true_iff in H as [H|H].
        -- now rewrite (IHa H).
        -- now rewrite H, orb_true_r.
      * now rewrite (IHb H), orb_true_r.
    + intros H. apply occurs_cat in H. apply orb_true_iff in H as [H|H].
      * now rewrite (IHa H).
      * now rewrite H, orb_true_r.
  - intros H. apply occurs_alt in H. apply orb_true_iff in H as [H|H].
    + now rewrite (IHa H).
    + now rewrite (IHb H), orb_true_r.
  - intros H. apply occurs_cat in H. simpl in H. apply orb_true_iff in H as [H|H]; auto.
Qed.

(** A string a pattern accepts is made of characters the pattern reads. *)
Lemma test_alphabet r s : test r s = true -> allChars (occurs r) s = true.
Proof.
  unfold allChars. revert r. induction s as [|c rest IH]; intros r; simpl; [auto|].
  intros H. destruct (occurs r c) eqn:Hc.
  - simpl. apply forallb_forall. intros x Hx.
    pose proof (IH _ H) as Hrest. rewrite forallb_forall in Hrest.
    apply (occurs_deriv c). now apply Hrest.
  - rewrite (deriv_unread _ _ Hc), test_Void in H. discriminate.
Qed.

Lemma allChars_weaken (p q : ascii -> bool) s :
  (forall c, p c = true -> q c = true) -> allChars p s = true -> allChars q s = true.
Proof.
  unfold allChars. intros Hpq H. rewrite forallb_forall in *. auto.
Qed.

Lemma emailPattern_reads c : occurs emailPattern c = true -> emailChar c = true.
Proof. destruct c as [[] [] [] [] [] [] [] []]; vm_compute; auto. Qed.

Lemma phonePattern_reads c : occurs phonePattern c = true -> phoneChar c = true.
Proof. destruct c as [[] [] [] [] [] [] [] []]; vm_compute; auto. Qed.

Lemma alt_Void_r a : alt a Void = a.
Proof. now destruct a. Qed.

Lemma starFree_cat a b :
  starFree a = true -> starFree b = true -> starFree (cat a b) = true.
Proof.
  intros Ha Hb. assert (H : starFree (Cat a b) = true) by (simpl; now rewrite Ha, Hb).
  destruct a, b; simpl in *; auto.
Qed.

Lemma starFree_alt a b :
  starFree a = true -> starFree b = true -> starFree (alt a b) = true.
Proof.
  intros Ha Hb. assert (H : starFree (Cat a b) = true) by (simpl; now rewrite Ha, Hb).
  destruct a, b; simpl in *; auto.
Qed.

Lemma width_cat a b : (width (cat a b) <= width a + width b)%nat.
Proof. destruct a, b; simpl; lia. Qed.

Lemma width_alt a b : (width (alt a b) <= Nat.max (width a) (width b))%nat.
Proof. destruct a, b; simpl; lia. Qed.

Lemma width_deriv c r :
  starFree r = true ->
  deriv c r = Void
  \/ (starFree (deriv c r) = true /\ (S (width (deriv c r)) <= width r)%nat).
Proof.
  induction r as [| |p|a IHa b IHb|a IHa b IHb|a IHa]; simpl; auto; try discriminate.
  - intros _. destruct (p c); simpl; auto.
  - intros H. apply andb_true_iff in H as [Ha Hb].
    destruct (IHa Ha) as [Da|[Fa Wa]], (IHb Hb) as [Db|[Fb Wb]], (nullable a);
      rewrite ?Da, ?Db; cbn [cat alt]; try (progress rewrite alt_Void_r); auto; right.
    + split; [exact Fb|lia].
    + split; [now apply starFree_cat|].
      pose proof (width_cat (deriv c a) b). lia.
    + split; [now apply starFree_cat|].
      pose proof (width_cat (deriv c a) b). lia.
    + split; [apply starFree_alt; [now apply starFree_cat|exact Fb]|].
      pose proof (width_cat (deriv c a) b).
      pose proof (width_alt (cat (deriv c a) b) (deriv c b)). lia.
    + split; [now apply starFree_cat|].
      pose proof (width_cat (deriv c a) b). lia.
  - intros H. apply andb_true_iff in H as [Ha Hb].
    destruct (IHa Ha) as [Da|[Fa Wa]], (IHb Hb) as [Db|[Fb Wb]];
      rewrite ?Da, ?Db; cbn [alt]; try (progress rewrite alt_Void_r); auto; right.
    + split; [exact Fb|lia].
    + split; [exact Fa|lia].
    + split; [now apply starFree_alt|].
      pose proof (width_alt (deriv c a) (deriv c b)). lia.
Qed.

(** A pattern without a star accepts no string longer than its width. *)
Lemma test_width r s :
  starFree r = true -> test r s = true -> (String.length s <= width r)%nat.
Proof.
  revert r. induction s as [|c rest IH]; intros r Hr; simpl; [lia|].
  destruct (width_deriv c r Hr) as [D|[F W]].
  - rewrite D, test_Void. discriminate.
  - intros H. specialize (IH _ F H). lia.
Qed.

Lemma allChars_reverse p s : allChars p s = true -> allChars p (reverse s) = true.
Proof.
  unfold allChars, reverse. rewrite list_ascii_of_string_of_list_ascii.
  rewrite !forallb_forall. intros H x Hx. apply H. now apply in_rev.
Qed.

Lemma reverse_reverse s : reverse (reverse s) = s.
Proof.
  unfold reverse. rewrite list_ascii_of_string_of_list_ascii, rev_involutive.
  apply string_of_list_ascii_of_string.
Qed.

Lemma trimStart_no_space s :
  allChars (fun c => negb (isSpace c)) s = true -> trimStart s = s.
Proof.
  destruct s as [|c r]; [reflexivity|]. unfold allChars. simpl.
  intros H. apply andb_true_iff in H as [H _]. now destruct (isSpace c).
Qed.

(** [trim] leaves a string without white space as it is. *)
Lemma trim_no_space s : allChars (fun c => negb (isSpace c)) s = true -> trim s = s.
Proof.
  intros H. unfold trim, trimEnd. rewrite (trimStart_no_space s H).
  rewrite (trimStart_no_space _ (allChars_reverse _ _ H)). apply reverse_reverse.
Qed.

Lemma emailChar_no_space c : emailChar c = true -> negb (isSpace c) = true.
Proof. destruct c as [[] [] [] [] [] [] [] []]; vm_compute; auto. Qed.

Lemma emailPattern_trimmed v : test emailPattern v = true -> trim v = v.
Proof.
  intros H. apply trim_no_space.
  apply (allChars_weaken emailChar); [exact emailChar_no_space|].
  apply (allChars_weaken (occurs emailPattern)); [exact emailPattern_reads|].
  now apply test_alphabet.
Qed.

Lemma firstFailure_cons b m r :
  firstFailure ((b, m) :: r) = None -> b = true /\ firstFailure r = None.
Proof. destruct b; simpl; [auto|discriminate]. Qed.

Lemma truthy_length v : truthy v = true -> (1 <= String.length v)%nat.
Proof. destruct v; simpl; [discriminate|lia]. Qed.

(** X4.  An email the client schema accepts is not empty, is made of letters,
    digits, [_], [.], [-] and [@], and has no white space around it. *)
Theorem accepted_email_shape v :
  clientSchema.email v = None ->
  v <> "" /\ allChars emailChar v = true /\ trim v = v.
Proof.
  unfold clientSchema.email. intros H.
  apply firstFailure_cons in H as [Ht H]. apply firstFailure_cons in H as [Hp _].
  split; [|split].
  - intros ->. discriminate.
  - apply (allChars_weaken (occurs emailPattern)); [exact emailPattern_reads|].
    now apply test_alphabet.
  - now apply emailPattern_trimmed.
Qed.

(** X5.  A phone number the client schema accepts has between 1 and 17
    characters, each of them a digit or [+]. *)
Theorem accepted_phone_shape v :
  clientSchema.phone v = None ->
  (1 <= String.length v <= 17)%nat /\ allChars phoneChar v = true.
Proof.
  unfold clientSchema.phone. intros H.
  apply firstFailure_cons in H as [Ht H]. apply firstFailure_cons in H as [Hp _].
  split; [split|].
  - now apply truthy_length.
  - now apply (test_width phonePattern v).
  - apply (allChars_weaken (occurs phonePattern)); [exact phonePattern_reads|].
    now apply test_alphabet.
Qed.

(* ---------------------------------------------------------------------- *)
(** * Stored documents satisfy their schema                                 *)
(* ---------------------------------------------------------------------- *)

Lemma onPath_nil p f rest :
  (onPath p f ++ rest)%list = [] -> f = None /\ rest = [].
Proof. destruct f; simpl; [discriminate|auto]. Qed.

Lemma client_onPresent_nil {A} p (v : A -> option string) o rest :
  (clientSchema.onPresent p v o ++ rest)%list = [] ->
  (forall x, o = Some x -> v x = None) /\ rest = [].
Proof.
  destruct o as [x|]; simpl.
  - intros H. apply onPath_nil in H as [H ->]. split; [|reflexivity].
    now intros y [= <-].
  - intros ->. split; [discriminate|reflexivity].
Qed.

Lemma reservation_onPresent_nil {A} p (v : A -> option string) o rest :
  (reservationSchema.onPresent p v o ++ rest)%list = [] ->
  (forall x, o = Some x -> v x = None) /\ rest = [].
Proof.
  destruct o as [x|]; simpl.
  - intros H. apply onPath_nil in H as [H ->]. split; [|reflexivity].
    now intros y [= <-].
  - intros ->. split; [discriminate|reflexivity].
Qed.

Ltac checks H :=
  repeat (let Hb := fresh "Hb" in apply firstFailure_cons in H as [Hb H]).

Lemma setEmail_normal v :
  test emailPattern (clientSchema.setEmail v) = true ->
  normalized (clientSchema.setEmail v) = clientSchema.setEmail v.
Proof.
  intros H. unfold normalized. unfold clientSchema.setEmail at 1.
  rewrite (emailPattern_trimmed _ H). unfold clientSchema.setEmail.
  apply toLowerCase_idem.
Qed.

Lemma validate_clientAccepted b id pw t t' :
  clientSchema.validate b = [] ->
  clientAccepted
    (Client.mk id (ClientInput.name b) (ClientInput.email b) pw
       (ClientInput.phone b) (ClientInput.age b) t t') = true.
Proof.
  unfold clientSchema.validate. intros H.
  apply onPath_nil in H as [Hn H]. apply onPath_nil in H as [He H].
  apply onPath_nil in H as [_ H]. apply onPath_nil in H as [Hp H].
  destruct (clientSchema.age _) eqn:Ha; [discriminate|].
  unfold clientSchema.name in Hn. unfold clientSchema.email in He.
  unfold clientSchema.phone in Hp. unfold clientSchema.age in Ha.
  checks Hn. checks He. checks Hp. checks Ha.
  unfold clientAccepted. cbn [Client.name Client.email Client.phone Client.age].
  repeat (apply andb_true_iff; split); assumption.
Qed.

Lemma validateUpdate_clientAccepted u today c :
  clientSchema.validateUpdate u = [] ->
  clientAccepted c = true -> clientAccepted (applyClientPatch u today c) = true.
Proof.
  unfold clientSchema.validateUpdate. intros H Hc.
  apply client_onPresent_nil in H as [Hn H]. apply client_onPresent_nil in H as [He H].
  apply client_onPresent_nil in H as [_ H]. apply client_onPresent_nil in H as [Hp H].
  assert (Ha : forall x, ClientPatch.age u = Some x -> clientSchema.age x = None).
  { intros x Hx. rewrite Hx in H. simpl in H. now destruct (clientSchema.age x). }
  clear H. unfold clientAccepted in *.
  cbn [applyClientPatch Client.name Client.email Client.phone Client.age].
  repeat (apply andb_true_iff in Hc as [Hc ?]).
  destruct (ClientPatch.name u) as [n|]; [specialize (Hn n eq_refl)|clear Hn];
    destruct (ClientPatch.email u) as [e|]; [specialize (He e eq_refl)|clear He| |];
    destruct (ClientPatch.phone u) as [p|];
    try specialize (Hp p eq_refl); try specialize (He e eq_refl);
    destruct (ClientPatch.age u) as [a|]; try specialize (Ha a eq_refl);
    cbn [orElse];
    try (unfold clientSchema.name in Hn; checks Hn);
    try (unfold clientSchema.email in He; checks He);
    try (unfold clientSchema.phone in Hp; checks Hp);
    try (unfold clientSchema.age in Ha; checks Ha);
    repeat (apply andb_true_iff; split); assumption.
Qed.

Lemma validate_reservationAccepted today b id t t' :
  reservationSchema.validate today b = [] ->
  reservationAccepted
    (Reservation.mk id (toLowerCase (ReservationInput.clientId b))
       (ReservationInput.vehicle b) (ReservationInput.service b)
       (orElse (ReservationInput.status b) reservationSchema.defaultStatus)
       (ReservationInput.scheduledDate b) (ReservationInput.notes b) t t') = true.
Proof.
  unfold reservationSchema.validate. intros H.
  apply onPath_nil in H as [Hc H]. apply onPath_nil in H as [Hv H].
  apply onPath_nil in H as [Hs H]. apply reservation_onPresent_nil in H as [Hst H].
  apply onPath_nil in H as [_ H].
  assert (Hn : forall x, ReservationInput.notes b = Some x ->
                         reservationSchema.notes x = None).
  { intros x Hx. rewrite Hx in H. simpl in H.
    now destruct (reservationSchema.notes x). }
  clear H. unfold reservationAccepted.
  cbn [Reservation.clientId Reservation.vehicle Reservation.service
       Reservation.status Reservation.notes].
  unfold reservationSchema.clientId in Hc. unfold reservationSchema.vehicle in Hv.
  unfold reservationSchema.service in Hs. checks Hc. checks Hv. checks Hs.
  rewrite !andb_true_iff; repeat split; try assumption.
  - change (ObjectId_isValid (toLowerCase (ReservationInput.clientId b)) = true).
    now rewrite isValid_toLowerCase.
  - destruct (ReservationInput.status b) as [st|]; cbn [orElse]; [|reflexivity].
    specialize (Hst st eq_refl). unfold reservationSchema.status in Hst.
    checks Hst. assumption.
  - destruct (ReservationInput.notes b) as [n|]; [|reflexivity].
    specialize (Hn n eq_refl). unfold reservationSchema.notes in Hn.
    checks Hn. assumption.
Qed.

Lemma validateUpdate_reservationAccepted today u stamp r :
  reservationSchema.validateUpdate today u = [] ->
  reservationAccepted r = true ->
  reservationAccepted (applyReservationPatch u stamp r) = true.
Proof.
  unfold reservationSchema.validateUpdate. intros H Hr.
  apply reservation_onPresent_nil in H as [Hc H].
  apply reservation_onPresent_nil in H as [Hv H].
  apply reservation_onPresent_nil in H as [Hs H].
  apply reservation_onPresent_nil in H as [Hst H].
  apply reservation_onPresent_nil in H as [_ H].
  assert (Hn : forall x, ReservationPatch.notes u = Some x ->
                         reservationSchema.notes x = None).
  { intros x Hx. rewrite Hx in H. simpl in H.
    now destruct (reservationSchema.notes x). }
  clear H. unfold reservationAccepted in *.
  cbn [applyReservationPatch Reservation.clientId Reservation.vehicle
       Reservation.service Reservation.status Reservation.notes].
  rewrite !andb_true_iff in Hr.
  destruct Hr as (((((Hr1 & Hr2) & Hr3) & Hr4) & Hr5) & Hr6).
  rewrite !andb_true_iff; repeat split.
  - destruct (ReservationPatch.clientId u) as [c|]; cbn [option_map orElse];
      [|assumption].
    specialize (Hc c eq_refl). unfold reservationSchema.clientId in Hc. checks Hc.
    change (ObjectId_isValid (toLowerCase c) = true). now rewrite isValid_toLowerCase.
  - destruct (ReservationPatch.vehicle u) as [v|]; cbn [orElse]; [|assumption].
    specialize (Hv v eq_refl). unfold reservationSchema.vehicle in Hv. checks Hv.
    assumption.
  - destruct (ReservationPatch.vehicle u) as [v|]; cbn [orElse]; [|assumption].
    specialize (Hv v eq_refl). unfold reservationSchema.vehicle in Hv. checks Hv.
    assumption.
  - destruct (ReservationPatch.service u) as [v|]; cbn [orElse]; [|assumption].
    specialize (Hs v eq_refl). unfold reservationSchema.service in Hs. checks Hs.
    assumption.
  - destruct (ReservationPatch.status u) as [v|]; cbn [orElse]; [|assumption].
    specialize (Hst v eq_refl). unfold reservationSchema.status in Hst. checks Hst.
    assumption.
  - destruct (ReservationPatch.notes u) as [v|]; [|assumption].
    specialize (Hn v eq_refl). unfold reservationSchema.notes in Hn. checks Hn.
    assumption.
Qed.

Lemma Forall_snoc {A} (P : A -> Prop) l x : Forall P l -> P x -> Forall P (l ++ [x]).
Proof. intros Hl Hx. apply Forall_app. split; [exact Hl|now constructor]. Qed.

Lemma Forall_replaceFirst {A} (P : A -> Prop) (p : A -> bool) x l :
  Forall P l -> P x -> Forall P (replaceFirst p x l).
Proof.
  intros Hl Hx. rewrite Forall_forall in *. intros y Hy.
  apply In_replaceFirst in Hy as [->|Hy]; auto.
Qed.

Lemma Forall_removeFirst {A} (P : A -> Prop) (p : A -> bool) l :
  Forall P l -> Forall P (removeFirst p l).
Proof.
  intros Hl. rewrite Forall_forall in *. intros y Hy.
  apply In_removeFirst in Hy. auto.
Qed.

Lemma insertClient_schemasHold doc s :
  clientAccepted doc = true -> normalized (Client.email doc) = Client.email doc ->
  schemasHold s -> schemasHold (snd (insertClient doc s)).
Proof.
  intros Ha Hn [Hc Hr]. unfold insertClient.
  destruct (existsb _ (clients s)); [now split|].
  destruct (existsb _ (clients s)); [now split|].
  split; [|exact Hr]. cbn [snd clients]. apply Forall_snoc; auto.
Qed.

Lemma updateClientById_schemasHold oid update today s :
  clientSchema.validateUpdate (clientSchema.castUpdate update) = [] ->
  schemasHold s ->
  schemasHold (snd (updateClientById oid (clientSchema.castUpdate update) today s)).
Proof.
  intros Hv [Hc Hr]. unfold updateClientById.
  destruct (clientById oid s) as [c|] eqn:Hfind; [|now split].
  cbv zeta. destruct (_ && _); [now split|].
  split; [|exact Hr]. cbn [snd clients].
  destruct (clientById_some _ _ _ Hfind) as [Hin _].
  rewrite Forall_forall in Hc. destruct (Hc c Hin) as [Hac Hnc].
  apply Forall_replaceFirst; [now apply Forall_forall|]. split.
  - now apply validateUpdate_clientAccepted.
  - cbn [applyClientPatch Client.email clientSchema.castUpdate ClientPatch.email].
    destruct (ClientPatch.email update) as [e|] eqn:He; cbn [option_map orElse];
      [|exact Hnc].
    apply setEmail_normal.
    unfold clientSchema.validateUpdate in Hv.
    apply client_onPresent_nil in Hv as [_ Hv].
    apply client_onPresent_nil in Hv as [Hv _].
    cbn [clientSchema.castUpdate ClientPatch.email] in Hv. rewrite He in Hv.
    specialize (Hv _ eq_refl). unfold clientSchema.email in Hv. checks Hv.
    assumption.
Qed.

Lemma withoutClient_schemasHold oid s : schemasHold s -> schemasHold (withoutClient oid s).
Proof.
  intros [Hc Hr]. split; [|exact Hr]. cbn [withoutClient clients].
  now apply Forall_removeFirst.
Qed.

Lemma insertReservation_schemasHold doc s :
  reservationAccepted doc = true ->
  schemasHold s -> schemasHold (snd (insertReservation doc s)).
Proof.
  intros Ha [Hc Hr]. unfold insertReservation.
  destruct (existsb _ (reservations s)); [now split|].
  split; [exact Hc|]. cbn [snd reservations]. apply Forall_snoc; auto.
Qed.

Lemma withReservation_schemasHold oid r s :
  reservationAccepted r = true ->
  schemasHold s -> schemasHold (withReservation oid r s).
Proof.
  intros Ha [Hc Hr]. split; [exact Hc|]. cbn [withReservation reservations].
  now apply Forall_replaceFirst.
Qed.

Lemma withoutReservation_schemasHold oid s :
  schemasHold s -> schemasHold (withoutReservation oid s).
Proof.
  intros [Hc Hr]. split; [exact Hc|]. cbn [withoutReservation reservations].
  now apply Forall_removeFirst.
Qed.

Lemma handler_schemasHold h rx call : invariant schemasHold (handler h rx call).
Proof.
  destruct call; cbn [handler]; unfold_handlers; invariant_steps;
    apply invariant_await; intros s Hs;
    first
      [ apply insertClient_schemasHold; [| |exact Hs];
        [ now apply validate_clientAccepted
        | cbn [Client.email clientSchema.cast ClientInput.email];
          apply setEmail_normal;
          match goal with
          | H : clientSchema.validate _ = [] |- _ =>
              unfold clientSchema.validate in H;
              apply onPath_nil in H as [_ H]; apply onPath_nil in H as [H _];
              unfold clientSchema.email in H; checks H; assumption
          end ]
      | now apply updateClientById_schemasHold
      | apply insertReservation_schemasHold; [|exact Hs];
        eapply validate_reservationAccepted; eassumption
      | destruct (clientById _ s); cbn [snd];
        [now apply withoutClient_schemasHold|exact Hs]
      | destruct (reservationById _ s) as [r|] eqn:Hr; cbn [snd]; [|exact Hs];
        first
          [ now apply withoutReservation_schemasHold
          | apply withReservation_schemasHold; [|exact Hs];
            match goal with
            | H : reservationSchema.validateUpdate _ _ = [] |- _ =>
                apply (validateUpdate_reservationAccepted _ _ _ _ H)
            end;
            destruct (reservationById_some _ _ _ Hr) as [Hin _];
            destruct Hs as [_ Hrs]; rewrite Forall_forall in Hrs; now apply Hrs ] ].
Qed.

(** X6.  What [save] and the deletions leave in the store satisfies the
    schemas.  For bodies whose texts are ASCII, every call of a handler
    other than the two updates keeps this true of every stored document:
    a client has a name of 2 to 50 characters, an email and a phone that
    match their patterns, an age from 18 to 120, and its email trimmed and
    in lower case; a reservation has the identifier of a client, a vehicle
    of 2 to 100 characters, a service and a status of the schema, and notes
    of at most 500 characters.  It holds of the empty store and is kept
    under every interleaving with writes that keep it. *)
Theorem stored_documents_satisfy_their_schema h rx :
  schemasHold empty
  /\ (forall call env w,
         plainCall call = true -> isUpdate call = false ->
         safe schemasHold w -> schemasHold (snd (run (handler h rx call) env w)))
  /\ (forall calls s,
         Forall (fun c => plainCall (snd c) = true /\ isUpdate (snd c) = false) calls ->
         schemasHold s -> schemasHold (served h rx calls s)).
Proof.
  split; [|split].
  - split; constructor.
  - intros call env w _ _ Hw.
    apply invariant_run; [apply handler_schemasHold|exact Hw].
  - induction calls as [|[env call] rest IH]; intros s Hcalls Hs; [exact Hs|].
    inversion Hcalls as [|? ? _ Hrest]; subst.
    cbn [served]. apply IH; [exact Hrest|].
    apply invariant_serve; [apply handler_schemasHold|exact Hs].
Qed.

(** X20.  An update whose body sets fields of the schema, with texts in
    ASCII, keeps the schemas true of the stored documents, under every
    interleaving with writes that keep them true: [runValidators] makes
    [findByIdAndUpdate] validate the fields the body sets, and the others
    stay as they were.  (A body made of update operators is not such a
    body, and nothing is said of it.) *)
Theorem field_updates_keep_the_schema h rx call env w :
  plainCall call = true -> isUpdate call = true ->
  safe schemasHold w -> schemasHold (snd (run (handler h rx call) env w)).
Proof.
  intros _ _ Hw. apply invariant_run; [apply handler_schemasHold|exact Hw].
Qed.

(* ---------------------------------------------------------------------- *)
(** * A refused write changes nothing                                       *)
(* ---------------------------------------------------------------------- *)

Lemma updateClient_params params u :
  updateClient params u = updateClient [("id", param "id" params)] u.
Proof. reflexivity. Qed.

Lemma deleteClient_params params :
  deleteClient params = deleteClient [("id", param "id" params)].
Proof. reflexivity. Qed.

Lemma updateReservation_params params u :
  updateReservation params u = updateReservation [("id", param "id" params)] u.
Proof. reflexivity. Qed.

Ltac by_cases :=
  repeat match goal with
         | |- context [if ?b then _ else _] => destruct b
         | |- context [match ?x with _ => _ end] => destruct x
         end.

Ltac not_refused :=
  cbn [fst snd]; intros H; try reflexivity; exfalso;
  unfold refused, turnedDown, ClientCreated, ClientUpdated, ClientDeleted,
    ReservationCreated, ReservationUpdated, ReservationDeleted, serverError in H;
  cbn [status] in H; lia.

(** Results of a program, whatever the store and the other requests. *)

Lemma yields_ret {A} (P : A -> Prop) a : P a -> yields P (ret a).
Proof. intros Ha env w a' w' [= <- _]. exact Ha. Qed.

Lemma yields_bind {A B} (P : B -> Prop) (m : M A) (k : A -> M B) :
  (forall a, yields P (k a)) -> yields P (bind m k).
Proof.
  intros Hk env w b w'. rewrite bind_eq.
  destruct (m env w) as [[e|a] w1]; [discriminate|]. apply Hk.
Qed.

Lemma yields_try_catch {A} (P : A -> Prop) (m : M A) (h : JsError -> M A) :
  yields P m -> (forall e, yields P (h e)) -> yields P (try_catch m h).
Proof.
  intros Hm Hh env w a w'. unfold try_catch.
  destruct (m env w) as [[e|a'] w1] eqn:E.
  - apply Hh.
  - intros [= <- _]. exact (Hm _ _ _ _ E).
Qed.

Lemma yields_run (P : Response -> Prop) (h : M Response) env w r :
  yields P h -> fst (run h env w) = Some r -> P r.
Proof.
  intros Hh. unfold run. destruct (h env w) as [[e|a] w1] eqn:E; [discriminate|].
  intros [= <-]. exact (Hh _ _ _ _ E).
Qed.

Ltac yields_steps :=
  repeat first
    [ apply yields_try_catch; [|intros ?]
    | apply yields_bind; intros ?
    | match goal with
      | |- yields _ (if ?b then _ else _) => destruct b
      | |- yields _ (match ?x with _ => _ end) => destruct x
      end
    | apply yields_ret ].

(** After its checks [createReservation] answers 201, or 500 from the
    [catch]. *)
Lemma createReservation_turned_down env s body :
  turnedDown (fst (serve (createReservation body) env s)) ->
  snd (serve (createReservation body) env s) = s.
Proof.
  unfold createReservation. rewrite serve_try_catch. cbv zeta.
  destruct (ObjectId_isValid (ReservationInput.clientId body)) eqn:Hv; cbn [negb];
    [|reflexivity].
  rewrite bind_eq, (Client_findById_alone _ _ _ Hv).
  destruct (clientById _ s) as [c|]; [|reflexivity].
  rewrite bind_eq. unfold new_Date. cbv beta iota.
  destruct (ReservationInput.scheduledDate body <=? now env); [reflexivity|].
  match goal with
  | |- context [match ?m env (alone s) with _ => _ end] =>
      assert (yields (fun r => status r = 201) m) as Hy
        by (yields_steps; reflexivity);
      destruct (m env (alone s)) as [[e|r] w] eqn:E
  end.
  - cbn [fst]. intros [H|H]; discriminate H.
  - cbn [fst]. pose proof (Hy _ _ _ _ E) as H201. cbn beta in H201.
    intros [H|H]; rewrite H201 in H; discriminate H.
Qed.

(** X7.  A refused write changes nothing.  The handlers whose write is
    their last store operation ([createClient], [updateClient],
    [deleteClient], [deleteReservation]), served alone, leave the store as
    it was whenever they answer with an error status, be it 400, 404 or
    500.  [createReservation] and [updateReservation] query the store
    again after their write, and an error there is answered 500 with the
    write made; they leave the store as it was whenever they answer 400 or
    404, the answers of their own checks. *)
Theorem refused_writes_change_nothing h env s :
  (forall body,
      refused (fst (serve (createClient h body) env s)) ->
      snd (serve (createClient h body) env s) = s)
  /\ (forall params patch,
         refused (fst (serve (updateClient params patch) env s)) ->
         snd (serve (updateClient params patch) env s) = s)
  /\ (forall params,
         refused (fst (serve (deleteClient params) env s)) ->
         snd (serve (deleteClient params) env s) = s)
  /\ (forall params,
         refused (fst (serve (deleteReservation params) env s)) ->
         snd (serve (deleteReservation params) env s) = s)
  /\ (forall body,
         turnedDown (fst (serve (createReservation body) env s)) ->
         snd (serve (createReservation body) env s) = s)
  /\ (forall params patch,
         turnedDown (fst (serve (updateReservation params patch) env s)) ->
         snd (serve (updateReservation params patch) env s) = s).
Proof.
  split; [|split; [|split; [|split; [|split]]]].
  - intros body. rewrite createClient_eq. cbv zeta. by_cases; not_refused.
  - intros params patch. rewrite updateClient_params, updateClient_is_outcome.
    unfold updateClient_outcome, updateClient_written. cbv zeta.
    by_cases; not_refused.
  - intros params. rewrite deleteClient_params.
    destruct (ObjectId_isValid (param "id" params)) eqn:Hv.
    + rewrite (deleteClient_eq _ _ _ Hv). by_cases; not_refused.
    + rewrite (deleteClient_invalid _ _ _ Hv). not_refused.
  - intros params. rewrite deleteReservation_eq. by_cases; not_refused.
  - intros body. apply createReservation_turned_down.
  - intros params patch. rewrite updateReservation_params, updateReservation_is_outcome.
    unfold updateReservation_outcome, updateReservation_written. cbv zeta.
    by_cases; not_refused.
Qed.

(* ---------------------------------------------------------------------- *)
(** * The listing of reservations                                           *)
(* ---------------------------------------------------------------------- *)

Lemma getAllReservations_eq rx query env s :
  let page := orElse (ReservationsQuery.page query) 1 in
  let limit := orElse (ReservationsQuery.limit query) 10 in
  serve (getAllReservations rx query) env s =
  if negb (clientFilterValid query) then (Some InvalidClientId, s)
  else if (page - 1) * limit <? 0
  then (Some (serverError "Error al obtener las reservas" negativeSkip), s)
  else
    (Some (ReservationsListed
             (map (populatedIn s)
                (cursorLimit (limit * 1)
                   (cursorSkip ((page - 1) * limit) (matchingReservations rx query s))))
             (pagination "totalReservations" page limit
                (Z.of_nat (length (filter (reservationListMatches
                                             (listingFilterOf rx query))
                                     (reservations s)))))),
     s).
Proof.
  intros page limit. unfold getAllReservations. rewrite serve_try_catch. cbv zeta.
  unfold clientFilterValid, matchingReservations, listingFilterOf.
  destruct (ReservationsQuery.clientId query) as [id|] eqn:Hid;
    cbn [truthy_opt orElse negb orb].
  - destruct (truthy id) eqn:Ht; cbn [negb orb].
    + destruct (ObjectId_isValid id) eqn:Hv; cbn [negb]; [|reflexivity].
      unfold getAllReservations_list. cbv zeta. fold page. fold limit.
      rewrite bind_eq. unfold Reservation_findWhere. rewrite read_alone.
      unfold selectReservationList.
      cbn [castId whereReservation whereClientId]. rewrite Hv.
      destruct ((page - 1) * limit <? 0); [reflexivity|].
      rewrite bind_eq. unfold populate. rewrite read_alone, bind_eq.
      unfold Reservation_countWhere. rewrite read_alone.
      unfold selectReservationList.
      cbn [castId whereReservation whereClientId]. rewrite Hv. reflexivity.
    + unfold getAllReservations_list. cbv zeta. fold page. fold limit.
      rewrite bind_eq. unfold Reservation_findWhere. rewrite read_alone.
      unfold selectReservationList.
      cbn [castId whereReservation whereClientId].
      destruct ((page - 1) * limit <? 0); [reflexivity|].
      rewrite bind_eq. unfold populate. rewrite read_alone, bind_eq.
      unfold Reservation_countWhere. rewrite read_alone. reflexivity.
  - unfold getAllReservations_list. cbv zeta. fold page. fold limit.
    rewrite bind_eq. unfold Reservation_findWhere. rewrite read_alone.
    unfold selectReservationList.
    cbn [castId whereReservation whereClientId].
    destruct ((page - 1) * limit <? 0); [reflexivity|].
    rewrite bind_eq. unfold populate. rewrite read_alone, bind_eq.
    unfold Reservation_countWhere. rewrite read_alone. reflexivity.
Qed.

(** ** Sorting *)

Section Sorting.

Context {A : Type}.
Variable le : A -> A -> bool.
Hypothesis le_total : forall a b, le a b = false -> le b a = true.
Hypothesis le_trans : forall a b c, le a b = true -> le b c = true -> le a c = true.

Lemma In_insertBy x l y : In y (insertBy le x l) <-> y = x \/ In y l.
Proof.
  induction l as [|z r IH]; simpl.
  - intuition.
  - destruct (le x z); simpl; [intuition|]. rewrite IH. intuition.
Qed.

Lemma In_sortBy l y : In y (sortBy le l) <-> In y l.
Proof.
  induction l as [|x r IH]; simpl; [tauto|].
  change (sortBy le (x :: r)) with (insertBy le x (sortBy le r)).
  rewrite In_insertBy, IH. intuition.
Qed.

Lemma insertBy_sorted x l :
  StronglySorted (fun a b => le a b = true) l ->
  StronglySorted (fun a b => le a b = true) (insertBy le x l).
Proof.
  induction l as [|z r IH]; simpl; intros H.
  - repeat constructor.
  - inversion H as [|? ? Hr Hz]; subst. destruct (le x z) eqn:E.
    + constructor; [exact H|]. constructor; [exact E|].
      rewrite Forall_forall in *. intros y Hy. apply (le_trans _ z); auto.
    + constructor; [now apply IH|]. rewrite Forall_forall in *.
      intros y Hy. apply In_insertBy in Hy as [->|Hy]; auto.
Qed.

Lemma sortBy_sorted l : StronglySorted (fun a b => le a b = true) (sortBy le l).
Proof.
  induction l as [|x r IH]; [constructor|].
  change (sortBy le (x :: r)) with (insertBy le x (sortBy le r)).
  now apply insertBy_sorted.
Qed.

End Sorting.

Lemma StronglySorted_skipn {A} (R : A -> A -> Prop) n l :
  StronglySorted R l -> StronglySorted R (skipn n l).
Proof.
  revert l. induction n as [|n IH]; intros l H; [exact H|].
  destruct l as [|x r]; [constructor|]. simpl. apply IH.
  now inversion H.
Qed.

Lemma In_firstn {A} n (l : list A) x : In x (firstn n l) -> In x l.
Proof.
  revert l. induction n as [|n IH]; intros [|y r]; simpl; try tauto.
  intros [->|H]; auto.
Qed.

Lemma StronglySorted_firstn {A} (R : A -> A -> Prop) n l :
  StronglySorted R l -> StronglySorted R (firstn n l).
Proof.
  revert l. induction n as [|n IH]; intros l H; [constructor|].
  destruct l as [|x r]; [constructor|]. simpl.
  inversion H as [|? ? Hr Hx]; subst. constructor; [now apply IH|].
  rewrite Forall_forall in *. intros y Hy. apply Hx.
  now apply (In_firstn n).
Qed.

Lemma In_firstn_skipn {A} n m (l : list A) x : In x (firstn n (skipn m l)) -> In x l.
Proof.
  intros H. apply In_firstn in H. rewrite <- (firstn_skipn m l).
  apply in_or_app. now right.
Qed.

Lemma StronglySorted_weaken {A} (R S : A -> A -> Prop) l :
  (forall a b, R a b -> S a b) -> StronglySorted R l -> StronglySorted S l.
Proof.
  intros HRS. induction 1 as [|x r Hr IH Hx]; constructor; [exact IH|].
  rewrite Forall_forall in *. auto.
Qed.

Lemma soonestFirst_sorted rs :
  StronglySorted
    (fun a b => Reservation.scheduledDate a <= Reservation.scheduledDate b)
    (soonestFirst rs).
Proof.
  unfold soonestFirst.
  apply (StronglySorted_weaken
           (fun a b => (Reservation.scheduledDate a <=? Reservation.scheduledDate b)
                       = true)).
  - intros a b. apply Z.leb_le.
  - apply sortBy_sorted.
    + intros a b H. apply Z.leb_gt in H. apply Z.leb_le. lia.
    + intros a b c H1 H2. apply Z.leb_le in H1, H2. apply Z.leb_le. lia.
Qed.

Lemma In_matchingReservations rx query s r :
  In r (matchingReservations rx query s) <->
  In r (reservations s) /\ reservationListMatches (listingFilterOf rx query) r = true.
Proof.
  unfold matchingReservations, soonestFirst. rewrite In_sortBy. apply filter_In.
Qed.

(** X8.  The listing of reservations.  A filter on the client that is not an
    identifier is answered 400.  Otherwise, with positive page and limit,
    the answer is the page asked for of the matching reservations in the
    order of their dates, soonest first, each with its client; every
    reservation listed is in the store, belongs to the client asked for,
    has the status asked for, offers a service that matches the pattern
    asked for, and has its date within the bounds given, both included. *)
Theorem getAllReservations_lists rx query env s :
  let page := orElse (ReservationsQuery.page query) 1 in
  let limit := orElse (ReservationsQuery.limit query) 10 in
  let all := matchingReservations rx query s in
  (clientFilterValid query = false ->
   serve (getAllReservations rx query) env s = (Some InvalidClientId, s))
  /\
  (clientFilterValid query = true -> 0 < page -> 0 < limit ->
   exists slice,
     serve (getAllReservations rx query) env s
     = (Some (ReservationsListed (map (populatedIn s) slice)
                (pagination "totalReservations" page limit (Z.of_nat (length all)))),
        s)
     /\ slice = firstn (Z.to_nat limit) (skipn (Z.to_nat ((page - 1) * limit)) all)
     /\ StronglySorted
          (fun a b => Reservation.scheduledDate a <= Reservation.scheduledDate b)
          slice
     /\ forall r, In r slice ->
          In r (reservations s)
          /\ (forall id, ReservationsQuery.clientId query = Some id ->
                truthy id = true -> Reservation.clientId r = toLowerCase id)
          /\ (forall st, ReservationsQuery.status query = Some st ->
                truthy st = true -> Reservation.status r = st)
          /\ (forall p, ReservationsQuery.service query = Some p ->
                truthy p = true -> rx p (Reservation.service r) = true)
          /\ (forall d, ReservationsQuery.startDate query = Some d ->
                d <= Reservation.scheduledDate r)
          /\ (forall d, ReservationsQuery.endDate query = Some d ->
                Reservation.scheduledDate r <= d)).
Proof.
  intros page limit all.
  pose proof (getAllReservations_eq rx query env s) as Heq. cbv zeta in Heq.
  fold page limit all in Heq. split.
  - intros Hv. rewrite Heq, Hv. reflexivity.
  - intros Hv Hp Hl.
    exists (firstn (Z.to_nat limit) (skipn (Z.to_nat ((page - 1) * limit)) all)).
    split; [|split; [reflexivity|split]].
    + rewrite Heq, Hv. cbn [negb].
      destruct (Z.ltb_spec ((page - 1) * limit) 0); [nia|].
      rewrite (cursorLimit_positive _ _ Hl). unfold cursorSkip.
      unfold all, matchingReservations, soonestFirst. now rewrite length_sortBy.
    + apply StronglySorted_firstn, StronglySorted_skipn, soonestFirst_sorted.
    + intros r Hr. apply In_firstn_skipn in Hr.
      apply In_matchingReservations in Hr as [Hin Hm]. split; [exact Hin|].
      unfold reservationListMatches, reservationMatches, listingFilterOf in Hm.
      cbn [whereReservation whereClientId whereStatus whereService whereFrom
           whereTo] in Hm.
      rewrite !andb_true_iff in Hm. destruct Hm as ((((Hc & Hst) & Hsv) & Hf) & Ht).
      repeat split.
      * intros id Hid Hty. rewrite Hid in Hc. cbn [truthy_opt] in Hc.
        rewrite Hty in Hc. now apply sameId_eq in Hc.
      * intros st Hq Hty. rewrite Hq in Hst. cbn [truthy_opt] in Hst.
        rewrite Hty in Hst. cbn [option_map holdsOpt holds] in Hst.
        now apply String.eqb_eq in Hst.
      * intros p Hq Hty. rewrite Hq in Hsv. cbn [truthy_opt] in Hsv.
        rewrite Hty in Hsv. exact Hsv.
      * intros d Hd. rewrite Hd in Hf. now apply Z.leb_le.
      * intros d Hd. rewrite Hd in Ht. now apply Z.leb_le.
Qed.

(* ---------------------------------------------------------------------- *)
(** * The pages of a listing                                                *)
(* ---------------------------------------------------------------------- *)

Lemma firstn_add_skipn {A} a b (l : list A) :
  firstn (a + b) l = (firstn a l ++ firstn b (skipn a l))%list.
Proof.
  revert l. induction a as [|a IH]; intros l; [reflexivity|].
  destruct l as [|x r]; simpl; [now rewrite firstn_nil|]. now rewrite IH.
Qed.

Lemma pages_concat {A B} (g : A -> B) k (l : list A) n :
  concat (map (fun p => map g (firstn k (skipn ((p - 1) * k) l))) (seq 1 n))
  = map g (firstn (n * k) l).
Proof.
  induction n as [|n IH]; [reflexivity|].
  rewrite seq_S, map_app, concat_app, IH. cbn [map concat].
  rewrite app_nil_r, <- map_app. f_equal.
  replace (1 + n - 1)%nat with n by lia.
  replace (S n * k)%nat with (n * k + k)%nat by lia.
  now rewrite firstn_add_skipn.
Qed.

Lemma page_offset p limit :
  0 < limit -> (1 <= p)%nat ->
  Z.to_nat ((Z.of_nat p - 1) * limit) = ((p - 1) * Z.to_nat limit)%nat.
Proof.
  intros Hl Hp. replace (Z.of_nat p - 1) with (Z.of_nat (p - 1)) by lia.
  rewrite Z2Nat.inj_mul by lia. now rewrite Nat2Z.id.
Qed.

Lemma getAllClients_listed rx query env s p :
  let limit := orElse (ClientsQuery.limit query) 10 in
  0 < limit -> (1 <= p)%nat ->
  listed (fst (serve (getAllClients rx (clientsPage query (Z.of_nat p))) env s))
  = map (fun c => Client.toJSON (Client.selectMinusPassword c))
      (firstn (Z.to_nat limit)
         (skipn ((p - 1) * Z.to_nat limit) (matchingClients rx query s))).
Proof.
  intros limit Hl Hp.
  pose proof (getAllClients_page rx (clientsPage query (Z.of_nat p)) env s) as H.
  cbv zeta in H. cbn [clientsPage ClientsQuery.page ClientsQuery.limit orElse] in H.
  fold limit in H. rewrite H by lia.
  unfold listed, bodyField, ClientsListed. cbn [fst json get String.eqb].
  change (matchingClients rx (clientsPage query (Z.of_nat p)) s)
    with (matchingClients rx query s).
  rewrite map_map, page_offset by assumption. reflexivity.
Qed.

Lemma getAllReservations_listed rx query env s p :
  let limit := orElse (ReservationsQuery.limit query) 10 in
  clientFilterValid query = true -> 0 < limit -> (1 <= p)%nat ->
  listed (fst (serve (getAllReservations rx (reservationsPage query (Z.of_nat p)))
                 env s))
  = map (fun r => Reservation.toJSON (populatedIn s r))
      (firstn (Z.to_nat limit)
         (skipn ((p - 1) * Z.to_nat limit) (matchingReservations rx query s))).
Proof.
  intros limit Hv Hl Hp.
  pose proof (getAllReservations_eq rx (reservationsPage query (Z.of_nat p)) env s)
    as H.
  cbv zeta in H.
  change (clientFilterValid (reservationsPage query (Z.of_nat p)))
    with (clientFilterValid query) in H.
  cbn [reservationsPage ReservationsQuery.page ReservationsQuery.limit orElse] in H.
  fold limit in H. rewrite H, Hv. cbn [negb].
  destruct (Z.ltb_spec ((Z.of_nat p - 1) * limit) 0); [nia|].
  unfold listed, bodyField, ReservationsListed. cbn [fst json get String.eqb].
  rewrite (cursorLimit_positive _ _ Hl). unfold cursorSkip.
  change (matchingReservations rx (reservationsPage query (Z.of_nat p)) s)
    with (matchingReservations rx query s).
  rewrite map_map, page_offset by assumption. reflexivity.
Qed.

(** With no two records on the same sort key, a listing has one order. *)

Lemma Permutation_insertBy {A} (le : A -> A -> bool) x l :
  Permutation (insertBy le x l) (x :: l).
Proof.
  induction l as [|y r IH]; simpl; [reflexivity|].
  destruct (le x y); [reflexivity|].
  rewrite IH. apply perm_swap.
Qed.

Lemma Permutation_sortBy {A} (le : A -> A -> bool) l : Permutation (sortBy le l) l.
Proof.
  induction l as [|x r IH]; [reflexivity|].
  change (sortBy le (x :: r)) with (insertBy le x (sortBy le r)).
  rewrite Permutation_insertBy. now constructor.
Qed.

Lemma NoDup_map_inj_in {A B} (f : A -> B) l a b :
  NoDup (map f l) -> In a l -> In b l -> f a = f b -> a = b.
Proof.
  induction l as [|x r IH]; simpl; [intros _ []|].
  intros H Ha Hb Hab. inversion H as [|? ? Hx Hr]; subst.
  destruct Ha as [->|Ha], Hb as [->|Hb]; auto.
  - exfalso. apply Hx. rewrite Hab. now apply in_map.
  - exfalso. apply Hx. rewrite <- Hab. now apply in_map.
Qed.

Lemma sorted_unique {A} (R : A -> A -> Prop) (l1 l2 : list A) :
  (forall a b, In a l1 -> In b l1 -> R a b -> R b a -> a = b) ->
  Permutation l1 l2 -> StronglySorted R l1 -> StronglySorted R l2 -> l1 = l2.
Proof.
  revert l2. induction l1 as [|x r IH]; intros l2 Hanti Hperm H1 H2.
  - apply Permutation_nil in Hperm. now subst.
  - destruct l2 as [|y r2];
      [symmetry in Hperm; now apply Permutation_nil_cons in Hperm|].
    inversion H1 as [|? ? Hr Hx]; subst. inversion H2 as [|? ? Hr2 Hy]; subst.
    rewrite Forall_forall in Hx, Hy.
    assert (x = y) as ->.
    { assert (In y (x :: r)) as Hyin
          by (apply (Permutation_in y (Permutation_sym Hperm)); now left).
      assert (In x (y :: r2)) as Hxin by (apply (Permutation_in x Hperm); now left).
      destruct Hyin as [Hyx|Hyr]; [exact Hyx|].
      destruct Hxin as [Hxy|Hxr]; [now symmetry|].
      apply Hanti; [now left|now right|now apply Hx|now apply Hy]. }
    f_equal. apply IH; [|now apply Permutation_cons_inv in Hperm|exact Hr|exact Hr2].
    intros a b Ha Hb. apply Hanti; now right.
Qed.

Lemma distinct_NoDup l : distinct l = true -> NoDup l.
Proof.
  induction l as [|x r IH]; simpl; [constructor|].
  intros H. apply andb_true_iff in H as [Hx Hr]. constructor; [|now apply IH].
  intros Hin. apply negb_true_iff in Hx.
  assert (existsb (Z.eqb x) r = true) as Ht
      by (apply existsb_exists; exists x; split; [exact Hin|apply Z.eqb_refl]).
  congruence.
Qed.

Lemma newestFirst_sorted cs :
  StronglySorted (fun a b => Client.createdAt b <= Client.createdAt a) (newestFirst cs).
Proof.
  unfold newestFirst.
  apply (StronglySorted_weaken
           (fun a b => (Client.createdAt b <=? Client.createdAt a) = true)).
  - intros a b. apply Z.leb_le.
  - apply sortBy_sorted.
    + intros a b H. apply Z.leb_gt in H. apply Z.leb_le. lia.
    + intros a b c H1 H2. apply Z.leb_le in H1, H2. apply Z.leb_le. lia.
Qed.

Lemma matchingClients_only_order rx query s l :
  NoDup (map Client.createdAt
           (filter (clientMatches (listingFilter rx query)) (clients s))) ->
  Permutation l (filter (clientMatches (listingFilter rx query)) (clients s)) ->
  StronglySorted (fun a b => Client.createdAt b <= Client.createdAt a) l ->
  l = matchingClients rx query s.
Proof.
  intros Hkeys Hperm Hsorted.
  apply (sorted_unique (fun a b => Client.createdAt b <= Client.createdAt a));
    [| |exact Hsorted|apply newestFirst_sorted].
  - intros a b Ha Hb Hab Hba.
    apply (NoDup_map_inj_in Client.createdAt _ a b Hkeys);
      [now apply (Permutation_in a Hperm)|now apply (Permutation_in b Hperm)|lia].
  - rewrite Hperm. symmetry. apply Permutation_sortBy.
Qed.

Lemma matchingReservations_only_order rx query s l :
  NoDup (map Reservation.scheduledDate
           (filter (reservationListMatches (listingFilterOf rx query))
              (reservations s))) ->
  Permutation l (filter (reservationListMatches (listingFilterOf rx query))
                   (reservations s)) ->
  StronglySorted
    (fun a b => Reservation.scheduledDate a <= Reservation.scheduledDate b) l ->
  l = matchingReservations rx query s.
Proof.
  intros Hkeys Hperm Hsorted.
  apply (sorted_unique
           (fun a b => Reservation.scheduledDate a <= Reservation.scheduledDate b));
    [| |exact Hsorted|apply soonestFirst_sorted].
  - intros a b Ha Hb Hab Hba.
    apply (NoDup_map_inj_in Reservation.scheduledDate _ a b Hkeys);
      [now apply (Permutation_in a Hperm)|now apply (Permutation_in b Hperm)|lia].
  - rewrite Hperm. symmetry. apply Permutation_sortBy.
Qed.

(** X9.  Pages do not overlap and skip nothing, when no two matching
    records have the same sort key.  Then the matching records have one
    order by that key, the order of the listing, and on a store that does
    not change, for pages 1 to [n] that are each answered 200, the records
    of the pages put end to end are the first [n * limit] records of the
    listing in that order.  (Records with the same key are in no fixed
    order from one query to the next, and nothing is said of them.) *)
Theorem pages_tile_the_listing rx env s n :
  (forall query,
      let limit := orElse (ClientsQuery.limit query) 10 in
      let matching := filter (clientMatches (listingFilter rx query)) (clients s) in
      0 < limit ->
      NoDup (map Client.createdAt matching) ->
      (forall p, In p (seq 1 n) ->
         answered 200
           (fst (serve (getAllClients rx (clientsPage query (Z.of_nat p))) env s))
         = true) ->
      (forall l,
          Permutation l matching ->
          StronglySorted (fun a b => Client.createdAt b <= Client.createdAt a) l ->
          l = matchingClients rx query s)
      /\ concat (map (fun p => listed (fst (serve (getAllClients rx
                                                    (clientsPage query (Z.of_nat p)))
                                             env s)))
                  (seq 1 n))
         = map (fun c => Client.toJSON (Client.selectMinusPassword c))
             (firstn (n * Z.to_nat limit) (matchingClients rx query s)))
  /\
  (forall query,
      let limit := orElse (ReservationsQuery.limit query) 10 in
      let matching :=
        filter (reservationListMatches (listingFilterOf rx query)) (reservations s) in
      0 < limit ->
      NoDup (map Reservation.scheduledDate matching) ->
      (forall p, In p (seq 1 n) ->
         answered 200
           (fst (serve (getAllReservations rx (reservationsPage query (Z.of_nat p)))
                   env s))
         = true) ->
      (forall l,
          Permutation l matching ->
          StronglySorted
            (fun a b => Reservation.scheduledDate a <= Reservation.scheduledDate b) l ->
          l = matchingReservations rx query s)
      /\ concat (map (fun p => listed (fst (serve (getAllReservations rx
                                                    (reservationsPage query
                                                       (Z.of_nat p)))
                                             env s)))
                  (seq 1 n))
         = map (fun r => Reservation.toJSON (populatedIn s r))
             (firstn (n * Z.to_nat limit) (matchingReservations rx query s))).
Proof.
  split.
  - intros query limit matching Hl Hkeys _. split.
    + intros l. now apply matchingClients_only_order.
    + rewrite <- pages_concat. f_equal.
      apply map_ext_in. intros p Hp. apply in_seq in Hp.
      apply getAllClients_listed; [exact Hl|lia].
  - intros query limit matching Hl Hkeys Hok. split.
    + intros l. now apply matchingReservations_only_order.
    + destruct n as [|n]; [reflexivity|].
      assert (clientFilterValid query = true) as Hv.
      { specialize (Hok 1%nat (or_introl eq_refl)).
        pose proof (getAllReservations_eq rx (reservationsPage query (Z.of_nat 1))
                      env s) as Heq.
        cbv zeta in Heq. rewrite Heq in Hok.
        change (clientFilterValid (reservationsPage query (Z.of_nat 1)))
          with (clientFilterValid query) in Hok.
        destruct (clientFilterValid query); [reflexivity|discriminate Hok]. }
      rewrite <- pages_concat. f_equal.
      apply map_ext_in. intros p Hp. apply in_seq in Hp.
      apply getAllReservations_listed; [exact Hv|exact Hl|lia].
Qed.

(* ---------------------------------------------------------------------- *)
(** * Writing, then reading                                                 *)
(* ---------------------------------------------------------------------- *)

Lemma fresh_canonical oid :
  castObjectId oid = Some oid -> ObjectId_isValid oid = true /\ toLowerCase oid = oid.
Proof.
  unfold castObjectId. destruct (ObjectId_isValid oid); [|discriminate].
  now intros [= H].
Qed.

Lemma updateClient_then_get params patch env env' s :
  let updated := serve (updateClient params patch) env s in
  let read := serve (getClientById params) env' (snd updated) in
  answered 200 (fst updated) = true ->
  answered 200 (fst read) = true
  /\ dataOf (fst read) = dataOf (fst updated)
  /\ snd read = snd updated.
Proof.
  cbv zeta. rewrite updateClient_params, updateClient_is_outcome.
  unfold updateClient_outcome, updateClient_written.
  destruct (ObjectId_isValid (param "id" params)) eqn:Hv; cbn [negb];
    [|discriminate].
  destruct (emailHeldByOther _ _ s); [discriminate|].
  destruct (clientSchema.validateUpdate _); [|discriminate].
  destruct (clientById _ s) as [c|] eqn:Hc; [|discriminate].
  cbv zeta. destruct (emailTaken _ _ _ _); [discriminate|].
  intros _. cbn [fst snd]. rewrite getClientById_eq, Hv. cbn [negb].
  assert (clientById (toLowerCase (param "id" params))
            (withClient (toLowerCase (param "id" params))
               (applyClientPatch (clientSchema.castUpdate patch) (now env) c) s)
          = Some (applyClientPatch (clientSchema.castUpdate patch) (now env) c))
    as ->.
  { unfold clientById, withClient. cbn [clients].
    apply (find_replaceFirst _ _ _ c); [exact Hc|].
    unfold applyClientPatch. cbn [Client._id].
    destruct (clientById_some _ _ _ Hc) as [_ ->]. apply sameId_refl. }
  repeat split.
Qed.

Lemma createReservation_then_get body env env' s :
  let created := serve (createReservation body) env s in
  let read := serve (getReservationById [("id", freshId env)]) env' (snd created) in
  castObjectId (freshId env) = Some (freshId env) ->
  answered 201 (fst created) = true ->
  answered 200 (fst read) = true
  /\ dataOf (fst read) = dataOf (fst created)
  /\ snd read = snd created.
Proof.
  cbv zeta. intros Hfresh. rewrite (createReservation_eq _ _ _ Hfresh).
  destruct (fresh_canonical _ Hfresh) as [Hv Hlow].
  destruct (negb (ObjectId_isValid (ReservationInput.clientId body)));
    [discriminate|].
  destruct (clientById _ s) as [c|] eqn:Hc; [|discriminate].
  destruct (_ <=? now env); [discriminate|].
  destruct (reservationSchema.validate _ _); [|discriminate].
  destruct (reservationIdTaken _ s) eqn:Htaken; [discriminate|].
  intros _. cbn [fst snd]. rewrite getReservationById_eq.
  change (param "id" [("id", freshId env)]) with (freshId env).
  rewrite Hv, Hlow. cbn [negb].
  assert (reservationById (freshId env)
            (withNewReservation (newReservationDoc env body) s)
          = Some (newReservationDoc env body)) as ->.
  { unfold reservationById, withNewReservation. cbn [reservations].
    apply find_last; [now apply existsb_false_find|apply sameId_refl]. }
  unfold populatedIn, withNewReservation, newReservationDoc.
  cbn [Reservation.clientId]. unfold clientById in *. cbn [clients]. rewrite Hc.
  repeat split.
Qed.

Lemma updateReservation_then_get params patch env env' s :
  let updated := serve (updateReservation params patch) env s in
  let read := serve (getReservationById params) env' (snd updated) in
  answered 200 (fst updated) = true ->
  answered 200 (fst read) = true
  /\ dataOf (fst read) = dataOf (fst updated)
  /\ snd read = snd updated.
Proof.
  cbv zeta. rewrite updateReservation_params, updateReservation_is_outcome.
  unfold updateReservation_outcome.
  destruct (ObjectId_isValid (param "id" params)) eqn:Hv; cbn [negb];
    [|discriminate].
  assert (forall o,
             o = updateReservation_written (param "id" params) patch env s ->
             answered 200 (fst o) = true ->
             answered 200 (fst (serve (getReservationById params) env' (snd o))) = true
             /\ dataOf (fst (serve (getReservationById params) env' (snd o)))
                = dataOf (fst o)
             /\ snd (serve (getReservationById params) env' (snd o)) = snd o) as Hw.
  { intros o ->. unfold updateReservation_written.
    destruct (reservationSchema.validateUpdate _ _); [|discriminate].
    destruct (reservationById _ s) as [r|] eqn:Hr; [|discriminate].
    cbv zeta. intros _. cbn [fst snd]. rewrite getReservationById_eq, Hv.
    cbn [negb].
    assert (reservationById (toLowerCase (param "id" params))
              (withReservation (toLowerCase (param "id" params))
                 (applyReservationPatch (reservationSchema.castUpdate patch)
                    (now env) r) s)
            = Some (applyReservationPatch (reservationSchema.castUpdate patch)
                      (now env) r)) as ->.
    { unfold reservationById, withReservation. cbn [reservations].
      apply (find_replaceFirst _ _ _ r); [exact Hr|].
      unfold applyReservationPatch. cbn [Reservation._id].
      destruct (reservationById_some _ _ _ Hr) as [_ ->]. apply sameId_refl. }
    repeat split. }
  destruct (referenceResolves _ s).
  - destruct (ReservationPatch.scheduledDate patch) as [date|].
    + destruct (date <=? now env); [discriminate|]. now apply Hw.
    + now apply Hw.
  - destruct (ObjectId_isValid (orElse (ReservationPatch.clientId patch) ""));
      discriminate.
Qed.

(** X10.  What a write answers is what a read then finds.  After a client or a
    reservation was updated (200), and after a reservation was created
    (201), a fetch under the same identifier is answered 200, with the
    very [data] the write answered with, and changes nothing. *)
Theorem writes_are_read_back env env' s :
  (forall params patch,
      let updated := serve (updateClient params patch) env s in
      let read := serve (getClientById params) env' (snd updated) in
      answered 200 (fst updated) = true ->
      answered 200 (fst read) = true
      /\ dataOf (fst read) = dataOf (fst updated)
      /\ snd read = snd updated)
  /\
  (forall body,
      let created := serve (createReservation body) env s in
      let read := serve (getReservationById [("id", freshId env)]) env' (snd created) in
      castObjectId (freshId env) = Some (freshId env) ->
      answered 201 (fst created) = true ->
      answered 200 (fst read) = true
      /\ dataOf (fst read) = dataOf (fst created)
      /\ snd read = snd created)
  /\
  (forall params patch,
      let updated := serve (updateReservation params patch) env s in
      let read := serve (getReservationById params) env' (snd updated) in
      answered 200 (fst updated) = true ->
      answered 200 (fst read) = true
      /\ dataOf (fst read) = dataOf (fst updated)
      /\ snd read = snd updated).
Proof.
  split; [|split].
  - intros params patch. apply updateClient_then_get.
  - intros body. apply createReservation_then_get.
  - intros params patch. apply updateReservation_then_get.
Qed.

Lemma find_removeFirst_unique {A} (f : A -> ObjectId) oid l :
  NoDup (map f l) ->
  find (fun x => sameId (f x) oid) (removeFirst (fun x => sameId (f x) oid) l) = None.
Proof.
  induction l as [|x r IH]; simpl; [reflexivity|].
  intros H. inversion H as [|? ? Hx Hr]; subst.
  destruct (sameId (f x) oid) eqn:E.
  - apply sameId_eq in E. apply existsb_false_find.
    destruct (existsb _ r) eqn:Ex; [|reflexivity].
    apply existsb_exists in Ex as (y & Hy & Hid). apply sameId_eq in Hid.
    exfalso. apply Hx. apply in_map_iff. exists y. split; [congruence|exact Hy].
  - simpl. rewrite E. now apply IH.
Qed.

Lemma deleteClient_then_get params env s :
  clientIdsUnique s ->
  answered 200 (fst (serve (deleteClient params) env s)) = true ->
  clientById (toLowerCase (param "id" params)) (snd (serve (deleteClient params) env s))
  = None
  /\ ObjectId_isValid (param "id" params) = true
  /\ activeReservationsOf (toLowerCase (param "id" params))
       (snd (serve (deleteClient params) env s)) = [].
Proof.
  intros Hu. rewrite deleteClient_params.
  destruct (ObjectId_isValid (param "id" params)) eqn:Hv.
  - rewrite (deleteClient_eq _ _ _ Hv).
    destruct (activeReservationsOf _ s) as [|r rest] eqn:Ha;
      [|replace (Z.of_nat (length (r :: rest)) >? 0) with true
          by (symmetry; apply Z.gtb_lt; cbn [length]; lia);
        discriminate].
    cbn [length Z.of_nat Z.gtb Z.compare].
    destruct (clientById _ s) as [c|] eqn:Hc; [|discriminate].
    intros _. cbn [snd]. split; [|split; [reflexivity|exact Ha]].
    unfold clientById, withoutClient. cbn [clients].
    now apply find_removeFirst_unique.
  - rewrite (deleteClient_invalid _ _ _ Hv). discriminate.
Qed.

(** X11.  What was deleted is gone.  In a store whose identifiers are unique,
    after a client or a reservation was deleted (200), a fetch under the
    same identifier is answered 404 and so is a second deletion, and
    neither changes the store. *)
Theorem deleted_documents_are_gone env env' s :
  (forall params,
      let s' := snd (serve (deleteClient params) env s) in
      clientIdsUnique s ->
      answered 200 (fst (serve (deleteClient params) env s)) = true ->
      serve (getClientById params) env' s' = (Some ClientNotFound, s')
      /\ serve (deleteClient params) env' s' = (Some ClientNotFound, s'))
  /\
  (forall params,
      let s' := snd (serve (deleteReservation params) env s) in
      reservationIdsUnique s ->
      answered 200 (fst (serve (deleteReservation params) env s)) = true ->
      serve (getReservationById params) env' s' = (Some ReservationNotFound, s')
      /\ serve (deleteReservation params) env' s' = (Some ReservationNotFound, s')).
Proof.
  split.
  - intros params s' Hu Hok.
    destruct (deleteClient_then_get params env s Hu Hok) as (Hgone & Hv & Ha).
    fold s' in Hgone, Ha. split.
    + now rewrite getClientById_eq, Hv, Hgone.
    + rewrite deleteClient_params, (deleteClient_eq _ _ _ Hv), Ha, Hgone.
      reflexivity.
  - intros params s' Hu. subst s'. rewrite (deleteReservation_eq params env s).
    destruct (ObjectId_isValid (param "id" params)) eqn:Hv; cbn [negb];
      [|discriminate].
    destruct (reservationById _ s) as [r|] eqn:Hr; [|discriminate].
    intros _. cbn [snd].
    assert (reservationById (toLowerCase (param "id" params))
              (withoutReservation (toLowerCase (param "id" params)) s) = None)
      as Hgone.
    { unfold reservationById, withoutReservation. cbn [reservations].
      now apply find_removeFirst_unique. }
    rewrite getReservationById_eq, deleteReservation_eq, Hv, Hgone. now split.
Qed.

(* ---------------------------------------------------------------------- *)
(** * Checks and writes of one request, writes of another in between        *)
(* ---------------------------------------------------------------------- *)

Lemma createReservation_client_lost_before_hook env s other body c :
  ObjectId_isValid (ReservationInput.clientId body) = true ->
  clientById (toLowerCase (ReservationInput.clientId body)) s = Some c ->
  now env < ReservationInput.scheduledDate body ->
  reservationSchema.validate (now env)
    (reservationSchema.cast (constructorArguments body)) = [] ->
  clientById (toLowerCase (ReservationInput.clientId body)) (other s) = None ->
  run (createReservation body) env (mkWorld s [quiet; other])
  = (Some (serverError "Error al crear la reserva"
             (mkError None "Cliente no encontrado")),
     other s).
Proof.
  intros Hv Hc Hd Hval Hgone.
  unfold run, createReservation, try_catch. cbv zeta. rewrite Hv. cbn [negb].
  rewrite bind_eq. unfold Client_findById, read. rewrite await_pending.
  unfold quiet. cbn [fst snd]. rewrite (castObjectId_valid _ Hv), Hc.
  rewrite bind_eq. unfold new_Date. cbv beta iota.
  destruct (Z.leb_spec (ReservationInput.scheduledDate body) (now env)); [lia|].
  rewrite bind_eq. unfold new_Reservation. rewrite bind_eq.
  fold (constructorArguments body).
  unfold Reservation_save. rewrite bind_eq. unfold ask. rewrite Hval.
  rewrite bind_eq. unfold reservationSchema_preSave. cbn [orb].
  rewrite bind_eq. unfold Client_findById, read. rewrite await_pending.
  change (ReservationInput.clientId (reservationSchema.cast (constructorArguments body)))
    with (ReservationInput.clientId body).
  cbn [fst snd]. rewrite castObjectId_valid by now rewrite isValid_toLowerCase.
  rewrite toLowerCase_idem, Hgone. reflexivity.
Qed.

Lemma createReservation_client_lost_after_hook env s other body c :
  ObjectId_isValid (ReservationInput.clientId body) = true ->
  clientById (toLowerCase (ReservationInput.clientId body)) s = Some c ->
  now env < ReservationInput.scheduledDate body ->
  reservationSchema.validate (now env)
    (reservationSchema.cast (constructorArguments body)) = [] ->
  castObjectId (freshId env) = Some (freshId env) ->
  reservationIdTaken (freshId env) (other s) = false ->
  clientById (toLowerCase (ReservationInput.clientId body)) (other s) = None ->
  run (createReservation body) env (mkWorld s [quiet; quiet; other])
  = (Some (ReservationCreated (newReservationDoc env body, None)),
     withNewReservation (newReservationDoc env body) (other s)).
Proof.
  intros Hv Hc Hd Hval Hfresh Htaken Hgone.
  destruct (fresh_canonical _ Hfresh) as [Hfv Hlow].
  unfold run, createReservation, try_catch. cbv zeta. rewrite Hv. cbn [negb].
  rewrite bind_eq. unfold Client_findById, read. rewrite await_pending.
  unfold quiet. cbn [fst snd]. rewrite (castObjectId_valid _ Hv), Hc.
  rewrite bind_eq. unfold new_Date. cbv beta iota.
  destruct (Z.leb_spec (ReservationInput.scheduledDate body) (now env)); [lia|].
  rewrite bind_eq. unfold new_Reservation. rewrite bind_eq.
  fold (constructorArguments body).
  unfold Reservation_save. rewrite bind_eq. unfold ask. rewrite Hval.
  rewrite bind_eq. unfold reservationSchema_preSave. cbn [orb].
  rewrite bind_eq. unfold Client_findById, read. rewrite await_pending.
  change (ReservationInput.clientId (reservationSchema.cast (constructorArguments body)))
    with (ReservationInput.clientId body).
  cbn [fst snd]. rewrite castObjectId_valid by now rewrite isValid_toLowerCase.
  rewrite toLowerCase_idem, Hc. unfold ret. rewrite await_pending.
  unfold insertReservation. cbn [Reservation._id].
  fold (reservationIdTaken (freshId env) (other s)). rewrite Htaken.
  cbn [fst snd]. rewrite bind_eq.
  change (Reservation.mk (freshId env) _ _ _ _ _ _ _ _)
    with (newReservationDoc env body).
  change (mkWorld (mkStore (clients (other s))
                     (reservations (other s) ++ [newReservationDoc env body])) [])
    with (alone (withNewReservation (newReservationDoc env body) (other s))).
  change (Reservation._id (newReservationDoc env body)) with (freshId env).
  unfold Reservation_findById. rewrite read_alone, Hfresh, bind_eq.
  rewrite populateOne_alone.
  assert (reservationById (freshId env)
            (withNewReservation (newReservationDoc env body) (other s))
          = Some (newReservationDoc env body)) as ->.
  { unfold reservationById, withNewReservation. cbn [reservations].
    apply find_last; [now apply existsb_false_find|apply sameId_refl]. }
  cbn [option_map]. unfold withNewReservation at 1.
  change (Reservation.clientId (newReservationDoc env body))
    with (toLowerCase (ReservationInput.clientId body)).
  unfold clientById in *. cbn [clients]. rewrite Hgone. reflexivity.
Qed.

Lemma updateReservation_client_lost env s other id patch cid c r :
  ObjectId_isValid id = true ->
  ReservationPatch.clientId patch = Some cid ->
  truthy cid = true ->
  ObjectId_isValid cid = true ->
  clientById (toLowerCase cid) s = Some c ->
  match ReservationPatch.scheduledDate patch with
  | Some date => now env < date
  | None => True
  end ->
  reservationSchema.validateUpdate (now env) (reservationSchema.castUpdate patch) = [] ->
  reservationById (toLowerCase id) (other s) = Some r ->
  clientById (toLowerCase cid) (other s) = None ->
  let r' := applyReservationPatch (reservationSchema.castUpdate patch) (now env) r in
  run (updateReservation [("id", id)] patch) env (mkWorld s [quiet; other])
  = (Some (ReservationUpdated (r', None)), withReservation (toLowerCase id) r' (other s))
  /\ Reservation.clientId r' = toLowerCase cid.
Proof.
  intros Hv Hcid Ht Hcv Hc Hd Hval Hr Hgone r'. split.
  - unfold run, updateReservation, try_catch. cbv zeta.
    change (param "id" [("id", id)]) with id. rewrite Hv, Hcid.
    cbn [negb truthy_opt orElse]. rewrite Ht, Hcv. cbn [negb].
    rewrite bind_eq. unfold Client_findById, read. rewrite await_pending.
    unfold quiet. cbn [fst snd]. rewrite (castObjectId_valid _ Hcv), Hc.
    assert (updateReservation_write id patch env (mkWorld s [other])
            = (inr (ReservationUpdated (r', None)),
               alone (withReservation (toLowerCase id) r' (other s)))) as Hw.
    { unfold updateReservation_write, Reservation_findByIdAndUpdate.
      rewrite (castObjectId_valid _ Hv), bind_eq, bind_eq. unfold ask. rewrite Hval.
      rewrite await_pending, Hr. cbv zeta. cbn [fst snd]. fold r'.
      change (mkWorld (mkStore (clients (other s)) _) [])
        with (alone (withReservation (toLowerCase id) r' (other s))).
      rewrite bind_eq, populateOne_alone. cbn [option_map].
      assert (clientById (Reservation.clientId r')
                (withReservation (toLowerCase id) r' (other s)) = None) as ->.
      { unfold r', applyReservationPatch. cbn [Reservation.clientId].
        change (ReservationPatch.clientId (reservationSchema.castUpdate patch))
          with (ReservationPatch.clientId patch).
        rewrite Hcid. cbn [option_map orElse]. exact Hgone. }
      reflexivity. }
    unfold updateReservation_fromDate.
    destruct (ReservationPatch.scheduledDate patch) as [date|].
    + rewrite bind_eq. unfold new_Date. cbv beta iota.
      destruct (Z.leb_spec date (now env)); [lia|]. now rewrite Hw.
    + now rewrite Hw.
  - unfold r', applyReservationPatch. cbn [Reservation.clientId].
    change (ReservationPatch.clientId (reservationSchema.castUpdate patch))
      with (ReservationPatch.clientId patch).
    now rewrite Hcid.
Qed.

Lemma deleteClient_guard_passed env s other id c :
  ObjectId_isValid id = true ->
  activeReservationsOf (toLowerCase id) s = [] ->
  clientById (toLowerCase id) (other s) = Some c ->
  run (deleteClient [("id", id)]) env (mkWorld s [quiet; other])
  = (Some ClientDeleted, withoutClient (toLowerCase id) (other s)).
Proof.
  intros Hv Ha Hc. unfold run, deleteClient, try_catch. cbv zeta.
  change (param "id" [("id", id)]) with id. rewrite Hv. cbn [negb].
  rewrite bind_eq. unfold Reservation_countDocuments, read. rewrite await_pending.
  unfold quiet, selectReservations. cbn [castId whereClientId fst snd]. rewrite Hv.
  rewrite (filter_ext _ _ (activeFilter_matches id)).
  fold (activeReservationsOf (toLowerCase id) s). rewrite Ha.
  cbn [length Z.of_nat Z.gtb Z.compare].
  rewrite bind_eq. unfold Client_findByIdAndDelete.
  rewrite (castObjectId_valid _ Hv), await_pending, Hc. reflexivity.
Qed.

(** X12.  A reference to a client is checked when a reservation is written, but
    the check and the write are separate store operations, and the client
    may be deleted by another request in between.  On creation, a client
    lost after the handler's check but before the check of the [save] hook
    makes the hook fail: the answer is 500 and nothing is inserted.  A
    client lost after the hook's check is not missed: the answer is 201,
    with a null client, and the reservation stored refers to no client.
    On update, which runs no hook, a client lost after the handler's check
    is not missed either: the answer is 200 and the reservation is left
    referring to no client. *)
Theorem reference_checks_are_not_atomic env s other :
  (forall body c,
      ObjectId_isValid (ReservationInput.clientId body) = true ->
      clientById (toLowerCase (ReservationInput.clientId body)) s = Some c ->
      now env < ReservationInput.scheduledDate body ->
      reservationSchema.validate (now env)
        (reservationSchema.cast (constructorArguments body)) = [] ->
      clientById (toLowerCase (ReservationInput.clientId body)) (other s) = None ->
      run (createReservation body) env (mkWorld s [quiet; other])
      = (Some (serverError "Error al crear la reserva"
                 (mkError None "Cliente no encontrado")),
         other s))
  /\
  (forall body c,
      ObjectId_isValid (ReservationInput.clientId body) = true ->
      clientById (toLowerCase (ReservationInput.clientId body)) s = Some c ->
      now env < ReservationInput.scheduledDate body ->
      reservationSchema.validate (now env)
        (reservationSchema.cast (constructorArguments body)) = [] ->
      castObjectId (freshId env) = Some (freshId env) ->
      reservationIdTaken (freshId env) (other s) = false ->
      clientById (toLowerCase (ReservationInput.clientId body)) (other s) = None ->
      run (createReservation body) env (mkWorld s [quiet; quiet; other])
      = (Some (ReservationCreated (newReservationDoc env body, None)),
         withNewReservation (newReservationDoc env body) (other s))
      /\ clientById (Reservation.clientId (newReservationDoc env body))
           (withNewReservation (newReservationDoc env body) (other s)) = None)
  /\
  (forall id patch cid c r,
      ObjectId_isValid id = true ->
      ReservationPatch.clientId patch = Some cid ->
      truthy cid = true ->
      ObjectId_isValid cid = true ->
      clientById (toLowerCase cid) s = Some c ->
      match ReservationPatch.scheduledDate patch with
      | Some date => now env < date
      | None => True
      end ->
      reservationSchema.validateUpdate (now env) (reservationSchema.castUpdate patch)
      = [] ->
      reservationById (toLowerCase id) (other s) = Some r ->
      clientById (toLowerCase cid) (other s) = None ->
      let r' := applyReservationPatch (reservationSchema.castUpdate patch) (now env) r in
      run (updateReservation [("id", id)] patch) env (mkWorld s [quiet; other])
      = (Some (ReservationUpdated (r', None)),
         withReservation (toLowerCase id) r' (other s))
      /\ clientById (Reservation.clientId r')
           (withReservation (toLowerCase id) r' (other s)) = None).
Proof.
  split; [|split].
  - intros body c. apply createReservation_client_lost_before_hook.
  - intros body c Hv Hc Hd Hval Hfresh Htaken Hgone. split; [|exact Hgone].
    now apply (createReservation_client_lost_after_hook env s other body c).
  - intros id patch cid c r Hv Hcid Ht Hcv Hc Hd Hval Hr Hgone r'.
    destruct (updateReservation_client_lost env s other id patch cid c r
                Hv Hcid Ht Hcv Hc Hd Hval Hr Hgone) as [Hrun Hclient].
    split; [exact Hrun|]. fold r' in Hclient. rewrite Hclient. exact Hgone.
Qed.

(** X13.  The guard on the deletion of a client and the deletion are separate
    store operations.  A client without active reservations when they are
    counted is deleted even if another request gives it one before the
    deletion; the reservations are left as that request wrote them. *)
Theorem deletion_guard_is_not_atomic env s other id c :
  ObjectId_isValid id = true ->
  activeReservationsOf (toLowerCase id) s = [] ->
  clientById (toLowerCase id) (other s) = Some c ->
  let left := snd (run (deleteClient [("id", id)]) env (mkWorld s [quiet; other])) in
  run (deleteClient [("id", id)]) env (mkWorld s [quiet; other])
  = (Some ClientDeleted, withoutClient (toLowerCase id) (other s))
  /\ activeReservationsOf (toLowerCase id) left
     = activeReservationsOf (toLowerCase id) (other s).
Proof.
  intros Hv Ha Hc left. subst left.
  rewrite (deleteClient_guard_passed env s other id c Hv Ha Hc).
  split; reflexivity.
Qed.

(* ---------------------------------------------------------------------- *)
(** * The routes that bind an identifier                                    *)
(* ---------------------------------------------------------------------- *)







(* ---------------------------------------------------------------------- *)
(** * A deleted client and its reservations                                 *)
(* ---------------------------------------------------------------------- *)

(** X15.  Deleting a client deletes none of its reservations.  Those it has are
    not active, or the deletion would have been refused; they stay in the
    store and, in a store whose client identifiers are unique, are then
    shown with a null client. *)
Theorem deleted_client_leaves_its_reservations env env' s params rid r :
  let s' := snd (serve (deleteClient params) env s) in
  clientIdsUnique s ->
  answered 200 (fst (serve (deleteClient params) env s)) = true ->
  ObjectId_isValid rid = true ->
  reservationById (toLowerCase rid) s = Some r ->
  Reservation.clientId r = toLowerCase (param "id" params) ->
  isActive r = false
  /\ serve (getReservationById [("id", rid)]) env' s'
     = (Some (ReservationFound (r, None)), s').
Proof.
  intros s' Hu Hok Hv Hr Hown.
  destruct (deleteClient_then_get params env s Hu Hok) as (Hgone & Hpv & Ha).
  fold s' in Hgone, Ha.
  assert (reservations s' = reservations s) as Hres.
  { apply (keeps_serve sameReservations), deleteClient_keeps_reservations. }
  split.
  - destruct (isActive r) eqn:Hact; [|reflexivity]. exfalso.
    destruct (reservationById_some _ _ _ Hr) as [Hin _].
    assert (In r (activeReservationsOf (toLowerCase (param "id" params)) s')) as Hin'.
    { unfold activeReservationsOf. rewrite Hres. apply filter_In. split; [exact Hin|].
      rewrite Hown, sameId_refl. exact Hact. }
    now rewrite Ha in Hin'.
  - rewrite getReservationById_eq. change (param "id" [("id", rid)]) with rid.
    rewrite Hv. cbn [negb]. unfold reservationById. rewrite Hres.
    fold (reservationById (toLowerCase rid) s). rewrite Hr.
    unfold populatedIn. now rewrite Hown, Hgone.
Qed.

(* ---------------------------------------------------------------------- *)
(** * No answer carries a password                                          *)
(* ---------------------------------------------------------------------- *)

Lemma client_toJSON_no_password c : mentions "password" (Client.toJSON c) = false.
Proof. destruct c as [? ? ? [p|] ? ? ? ?]; reflexivity. Qed.

Lemma clients_toJSON_no_password cs :
  mentions "password" (JArr (map Client.toJSON cs)) = false.
Proof.
  induction cs as [|c r IH]; [reflexivity|].
  cbn [map]. change (mentions "password" (JArr (Client.toJSON c :: map Client.toJSON r)))
    with (mentions "password" (Client.toJSON c)
          || mentions "password" (JArr (map Client.toJSON r))).
  now rewrite client_toJSON_no_password, IH.
Qed.

Lemma reservation_toJSON_no_password p :
  mentions "password" (Reservation.toJSON p) = false.
Proof. destruct p as [[? ? ? ? ? ? [n|] ? ?] [c|]]; reflexivity. Qed.

Lemma reservations_toJSON_no_password ps :
  mentions "password" (JArr (map Reservation.toJSON ps)) = false.
Proof.
  induction ps as [|p r IH]; [reflexivity|].
  cbn [map].
  change (mentions "password"
            (JArr (Reservation.toJSON p :: map Reservation.toJSON r)))
    with (mentions "password" (Reservation.toJSON p)
          || mentions "password" (JArr (map Reservation.toJSON r))).
  now rewrite reservation_toJSON_no_password, IH.
Qed.

Lemma mentions_cons k kv o :
  mentions k (JObj (kv :: o))
  = (fst kv =? k)%string || mentions k (snd kv) || mentions k (JObj o).
Proof. now destruct kv. Qed.

Lemma pagination_no_password key page limit total :
  mentions "password" (pagination key page limit total)
  = (key =? "password")%string.
Proof.
  unfold pagination, Math_ceil_div. destruct (limit =? 0).
  - cbn. now destruct (key =? "password")%string.
  - cbn. now destruct (key =? "password")%string.
Qed.

Ltac no_password :=
  cbn [json]; rewrite ?mentions_cons; cbn [fst snd];
  rewrite ?client_toJSON_no_password, ?clients_toJSON_no_password,
    ?reservation_toJSON_no_password, ?reservations_toJSON_no_password,
    ?pagination_no_password;
  reflexivity.

Lemma handler_no_password h rx call :
  yields (fun r => mentions "password" (json r) = false) (handler h rx call).
Proof.
  destruct call; cbn [handler];
    unfold getAllClients, getClientById, createClient, updateClient, updateClient_write,
      deleteClient, getAllReservations, getAllReservations_list, getReservationById,
      createReservation, updateReservation, updateReservation_fromDate,
      updateReservation_write, deleteReservation, getReservationsByClient;
    cbv zeta; yields_steps;
    try reflexivity;
    try match goal with
        | |- context [match ?x with Some _ => _ | None => JNull end] => destruct x
        end;
    no_password.
Qed.

(** X16.  No answer of a handler has a [password] key, in any object at any
    depth: not the answers of the reads and the listings, not those of the
    writes, not those to a request that failed, whatever other requests
    write in between. *)
Theorem no_answer_carries_a_password h rx call env w r :
  fst (run (handler h rx call) env w) = Some r ->
  mentions "password" (json r) = false.
Proof.
  apply (yields_run (fun r => mentions "password" (json r) = false)).
  apply handler_no_password.
Qed.

(* ---------------------------------------------------------------------- *)
(** * The check of the email on the update route                            *)
(* ---------------------------------------------------------------------- *)



(* ---------------------------------------------------------------------- *)
(** * The order of the other listings                                       *)
(* ---------------------------------------------------------------------- *)

(** X18.  The listing of clients gives the page asked for of the clients whose
    name and email match the patterns asked for, in the order of their
    creation, newest first; the listing of the reservations of a client
    gives those of that client with the status asked for, in the order of
    their dates, soonest first. *)
Theorem listings_are_in_order env s :
  (forall rx query,
      let page := orElse (ClientsQuery.page query) 1 in
      let limit := orElse (ClientsQuery.limit query) 10 in
      0 < page -> 0 < limit ->
      exists slice pages,
        serve (getAllClients rx query) env s = (Some (ClientsListed slice pages), s)
        /\ slice = firstn (Z.to_nat limit)
                     (skipn (Z.to_nat ((page - 1) * limit)) (matchingClients rx query s))
        /\ StronglySorted (fun a b => Client.createdAt b <= Client.createdAt a) slice
        /\ forall c, In c slice ->
             In c (clients s)
             /\ (forall p, ClientsQuery.name query = Some p -> truthy p = true ->
                   rx p (Client.name c) = true)
             /\ (forall p, ClientsQuery.email query = Some p -> truthy p = true ->
                   rx p (Client.email c) = true))
  /\
  (forall id c query,
      let page := orElse (ClientReservationsQuery.page query) 1 in
      let limit := orElse (ClientReservationsQuery.limit query) 10 in
      ObjectId_isValid id = true ->
      clientById (toLowerCase id) s = Some c ->
      0 < page -> 0 < limit ->
      exists slice pages,
        serve (getReservationsByClient [("clientId", id)] query) env s
        = (Some (ReservationsListed (map (populatedIn s) slice) pages), s)
        /\ StronglySorted
             (fun a b => Reservation.scheduledDate a <= Reservation.scheduledDate b)
             slice
        /\ forall r, In r slice ->
             In r (reservations s)
             /\ Reservation.clientId r = toLowerCase id
             /\ (forall st, ClientReservationsQuery.status query = Some st ->
                   truthy st = true -> Reservation.status r = st)).
Proof.
  split.
  - intros rx query page limit Hp Hl.
    eexists. eexists. split; [now apply getAllClients_page|].
    split; [reflexivity|]. split.
    + apply StronglySorted_firstn, StronglySorted_skipn, newestFirst_sorted.
    + intros c Hc. apply In_firstn_skipn in Hc.
      unfold matchingClients, newestFirst in Hc. apply In_sortBy in Hc.
      apply filter_In in Hc as [Hin Hm]. split; [exact Hin|].
      unfold clientMatches, listingFilter in Hm.
      cbn [whereIdNot whereName whereEmail] in Hm.
      rewrite !andb_true_iff in Hm. destruct Hm as [[_ Hn] He]. split.
      * intros p Hq Ht. rewrite Hq in Hn. cbn [truthy_opt] in Hn.
        now rewrite Ht in Hn.
      * intros p Hq Ht. rewrite Hq in He. cbn [truthy_opt] in He.
        now rewrite Ht in He.
  - intros id c query page limit Hv Hc Hp Hl.
    eexists. eexists.
    split; [exact (getReservationsByClient_lists env s id c query Hv Hc Hp Hl)|].
    split.
    + apply StronglySorted_firstn, StronglySorted_skipn, soonestFirst_sorted.
    + intros r Hr. apply In_firstn_skipn in Hr.
      unfold soonestFirst in Hr. apply In_sortBy in Hr.
      apply filter_In in Hr as [Hin Hm]. split; [exact Hin|].
      unfold reservationMatches, clientReservationsFilter in Hm.
      cbn [whereClientId whereStatus] in Hm.
      rewrite andb_true_iff in Hm. destruct Hm as [Hid Hst]. split.
      * now apply sameId_eq.
      * intros st Hq Ht. rewrite Hq in Hst. cbn [truthy_opt] in Hst.
        rewrite Ht in Hst. cbn [option_map holdsOpt holds] in Hst.
        now apply String.eqb_eq in Hst.
Qed.

(* ---------------------------------------------------------------------- *)
(** * The summary of a page                                                 *)
(* ---------------------------------------------------------------------- *)

Lemma isEmpty_map {A B} (f : A -> B) l : isEmpty (map f l) = isEmpty l.
Proof. now destruct l. Qed.

Lemma isEmpty_page {A} (l : list A) k n :
  (0 < k)%nat -> isEmpty (firstn k (skipn n l)) = (length l <=? n)%nat.
Proof.
  intros Hk. destruct (Nat.leb_spec (length l) n) as [Hle|Hgt].
  - rewrite skipn_all2 by exact Hle. now rewrite firstn_nil.
  - assert (length (skipn n l) <> 0%nat) as Hlen by (rewrite length_skipn; lia).
    destruct (skipn n l) as [|x r]; [contradiction|].
    destruct k; [lia|reflexivity].
Qed.

Lemma page_product p limit :
  0 < limit -> Z.of_nat (p * Z.to_nat limit) = Z.of_nat p * limit.
Proof. intros Hl. rewrite Nat2Z.inj_mul, Z2Nat.id; lia. Qed.

Lemma hasNext_clients rx query env s p :
  let limit := orElse (ClientsQuery.limit query) 10 in
  0 < limit -> (1 <= p)%nat ->
  paginationField "hasNext"
    (fst (serve (getAllClients rx (clientsPage query (Z.of_nat p))) env s))
  = Some (JBool (negb (isEmpty
       (listed (fst (serve (getAllClients rx (clientsPage query (Z.of_nat (S p))))
                       env s)))))).
Proof.
  intros limit Hl Hp.
  rewrite (getAllClients_listed rx query env s (S p) Hl) by lia.
  pose proof (getAllClients_page rx (clientsPage query (Z.of_nat p)) env s) as H.
  cbv zeta in H. cbn [clientsPage ClientsQuery.page ClientsQuery.limit orElse] in H.
  fold limit in H. rewrite H by lia.
  change (matchingClients rx (clientsPage query (Z.of_nat p)) s)
    with (matchingClients rx query s).
  unfold paginationField, bodyField, ClientsListed.
  cbn [fst json get String.eqb Ascii.eqb Bool.eqb].
  rewrite isEmpty_map, isEmpty_page by lia. do 2 f_equal.
  replace (S p - 1)%nat with p by lia.
  pose proof (page_product p limit Hl) as Hprod. fold limit. clear H.
  destruct (Z.ltb_spec0 (Z.of_nat p * limit)
              (Z.of_nat (length (matchingClients rx query s))));
    destruct (Nat.leb_spec0 (length (matchingClients rx query s))
                (p * Z.to_nat limit));
    cbn [negb]; try reflexivity; exfalso; lia.
Qed.

Lemma hasNext_reservations rx query env s p :
  let limit := orElse (ReservationsQuery.limit query) 10 in
  clientFilterValid query = true -> 0 < limit -> (1 <= p)%nat ->
  paginationField "hasNext"
    (fst (serve (getAllReservations rx (reservationsPage query (Z.of_nat p))) env s))
  = Some (JBool (negb (isEmpty
       (listed (fst (serve (getAllReservations rx
                              (reservationsPage query (Z.of_nat (S p)))) env s)))))).
Proof.
  intros limit Hv Hl Hp.
  rewrite (getAllReservations_listed rx query env s (S p) Hv Hl) by lia.
  pose proof (getAllReservations_eq rx (reservationsPage query (Z.of_nat p)) env s)
    as H.
  cbv zeta in H.
  change (clientFilterValid (reservationsPage query (Z.of_nat p)))
    with (clientFilterValid query) in H.
  cbn [reservationsPage ReservationsQuery.page ReservationsQuery.limit orElse] in H.
  fold limit in H. rewrite H, Hv. cbn [negb]. clear H.
  destruct (Z.ltb_spec ((Z.of_nat p - 1) * limit) 0); [nia|].
  unfold paginationField, bodyField, ReservationsListed, pagination.
  cbn [fst json get String.eqb Ascii.eqb Bool.eqb].
  rewrite isEmpty_map, isEmpty_page by lia. do 2 f_equal.
  replace (S p - 1)%nat with p by lia.
  change (listingFilterOf rx (reservationsPage query (Z.of_nat p)))
    with (listingFilterOf rx query).
  assert (length (matchingReservations rx query s)
          = length (filter (reservationListMatches (listingFilterOf rx query))
                      (reservations s))) as <-
      by (unfold matchingReservations, soonestFirst; apply length_sortBy).
  pose proof (page_product p limit Hl) as Hprod. fold limit.
  destruct (Z.ltb_spec0 (Z.of_nat p * limit)
              (Z.of_nat (length (matchingReservations rx query s))));
    destruct (Nat.leb_spec0 (length (matchingReservations rx query s))
                (p * Z.to_nat limit));
    cbn [negb]; try reflexivity; exfalso; lia.
Qed.

(** X19.  The [hasNext] of a page tells the truth: on a store that does not
    change, it is [true] exactly when the next page has a record. *)
Theorem hasNext_announces_the_next_page rx env s :
  (forall query p,
      (1 <= p)%nat ->
      0 < orElse (ClientsQuery.limit query) 10 ->
      paginationField "hasNext"
        (fst (serve (getAllClients rx (clientsPage query (Z.of_nat p))) env s))
      = Some (JBool (negb (isEmpty
           (listed (fst (serve (getAllClients rx (clientsPage query (Z.of_nat (S p))))
                           env s)))))))
  /\
  (forall query p,
      (1 <= p)%nat ->
      clientFilterValid query = true ->
      0 < orElse (ReservationsQuery.limit query) 10 ->
      paginationField "hasNext"
        (fst (serve (getAllReservations rx (reservationsPage query (Z.of_nat p)))
                env s))
      = Some (JBool (negb (isEmpty
           (listed (fst (serve (getAllReservations rx
                                  (reservationsPage query (Z.of_nat (S p))))
                           env s))))))).
Proof.
  split.
  - intros query p Hp Hl. now apply hasNext_clients.
  - intros query p Hp Hv Hl. now apply hasNext_reservations.
Qed.

(* ---------------------------------------------------------------------- *)
(** * The properties above, on the sample data                              *)
(* ---------------------------------------------------------------------- *)

(** Ana registers while another request registers her too; and a day of
    three calls. *)
Lemma unique_keys_are_kept_sample :
  uniqueKeys
    (snd (run (handler sampleHash sampleRegexI (CreateClient anaRuiz)) noon
            (mkWorld withLuis [quiet; anaRegisters])))
  /\ uniqueKeys (served sampleHash sampleRegexI threeCalls empty).
Proof.
  destruct (unique_keys_are_kept sampleHash sampleRegexI) as (Hempty & Hrun & Hserved).
  split.
  - apply Hrun. split.
    + exact (Hserved [(noon, CreateClient luisDiaz)] empty Hempty).
    + constructor; [intros s Hs; exact Hs|]. constructor; [|constructor].
      intros s Hs. exact (Hserved [(morning, CreateClient anaRuiz)] s Hs).
  - exact (Hserved threeCalls empty Hempty).
Defined.

Lemma accepted_email_shape_sample :
  "ana@x.com" <> "" /\ allChars emailChar "ana@x.com" = true
  /\ trim "ana@x.com" = "ana@x.com".
Proof. apply (accepted_email_shape "ana@x.com"). vm_compute. reflexivity. Defined.

Lemma accepted_phone_shape_sample :
  (1 <= String.length "+573000000" <= 17)%nat
  /\ allChars phoneChar "+573000000" = true.
Proof. apply (accepted_phone_shape "+573000000"). vm_compute. reflexivity. Defined.

Lemma stored_documents_satisfy_their_schema_sample :
  schemasHold
    (snd (run (handler sampleHash sampleRegexI (CreateClient anaRuiz)) noon
            (mkWorld withLuis [quiet; anaRegisters])))
  /\ schemasHold (served sampleHash sampleRegexI threeCalls empty).
Proof.
  destruct (stored_documents_satisfy_their_schema sampleHash sampleRegexI)
    as (Hempty & Hrun & Hserved).
  assert (forall (env : Env) body,
             plainCall (CreateClient body) = true ->
             Forall (fun c : Env * Call =>
                       plainCall (snd c) = true /\ isUpdate (snd c) = false)
               [(env, CreateClient body)]) as Hone
      by (intros env body Hb; apply Forall_cons; [now split|apply Forall_nil]).
  split.
  - apply Hrun.
    + vm_compute. reflexivity.
    + reflexivity.
    + split.
      * apply (Hserved [(noon, CreateClient luisDiaz)] empty); [|exact Hempty].
        apply Hone. vm_compute. reflexivity.
      * constructor; [intros s Hs; exact Hs|]. constructor; [|constructor].
        intros s Hs.
        apply (Hserved [(morning, CreateClient anaRuiz)] s); [|exact Hs].
        apply Hone. vm_compute. reflexivity.
  - apply (Hserved threeCalls empty); [|exact Hempty].
    repeat (constructor; [split; [vm_compute; reflexivity|reflexivity]|]).
    constructor.
Defined.

(** Ana changes her phone while another request registers Luis. *)
Lemma field_updates_keep_the_schema_sample :
  schemasHold
    (snd (run (handler sampleHash sampleRegexI (UpdateClient [("id", anaId)] newPhone))
            noon (mkWorld withAna [quiet; fun s =>
                                     snd (serve (createClient sampleHash luisDiaz)
                                            noon s)]))).
Proof.
  apply (field_updates_keep_the_schema sampleHash sampleRegexI
           (UpdateClient [("id", anaId)] newPhone) noon).
  - vm_compute. reflexivity.
  - reflexivity.
  - split.
    + apply (invariant_serve schemasHold (createClient sampleHash anaRuiz) morning
               empty).
      * apply (handler_schemasHold sampleHash sampleRegexI (CreateClient anaRuiz)).
      * split; constructor.
    + constructor; [intros s Hs; exact Hs|]. constructor; [|constructor].
      intros s Hs.
      apply (invariant_serve schemasHold (createClient sampleHash luisDiaz) noon s);
        [|exact Hs].
      apply (handler_schemasHold sampleHash sampleRegexI (CreateClient luisDiaz)).
Defined.

(** Ana registers twice; her email is given to Luis; she is deleted while
    she has a booking; a booking that is not there is deleted; a booking
    is made for a client who is not one; a booking is moved to the past. *)
Lemma refused_writes_change_nothing_sample :
  snd (serve (createClient sampleHash anaRuiz) noon withAna) = withAna
  /\ snd (serve (updateClient [("id", luisId)] toAnasEmail) evening withAnaAndLuis)
     = withAnaAndLuis
  /\ snd (serve (deleteClient [("id", anaId)]) noon withBooking) = withBooking
  /\ snd (serve (deleteReservation [("id", bookingId)]) noon withAna) = withAna
  /\ snd (serve (createReservation tyres) evening withAna) = withAna
  /\ snd (serve (updateReservation [("id", bookingId)] toYesterday) evening withBooking)
     = withBooking.
Proof.
  split; [|split; [|split; [|split; [|split]]]].
  - apply (proj1 (refused_writes_change_nothing sampleHash noon withAna)).
    vm_compute. discriminate.
  - apply (proj1 (proj2 (refused_writes_change_nothing sampleHash evening
                           withAnaAndLuis))).
    vm_compute. discriminate.
  - apply (proj1 (proj2 (proj2 (refused_writes_change_nothing sampleHash noon
                                  withBooking)))).
    vm_compute. discriminate.
  - apply (proj1 (proj2 (proj2 (proj2 (refused_writes_change_nothing sampleHash noon
                                         withAna))))).
    vm_compute. discriminate.
  - apply (proj1 (proj2 (proj2 (proj2 (proj2
             (refused_writes_change_nothing sampleHash evening withAna)))))).
    vm_compute. right. reflexivity.
  - apply (proj2 (proj2 (proj2 (proj2 (proj2
             (refused_writes_change_nothing sampleHash evening withBooking)))))).
    vm_compute. left. reflexivity.
Defined.

(** The reservations of a client that is not an identifier, and Ana's. *)
Lemma getAllReservations_lists_sample :
  serve (getAllReservations sampleRegexI
           (ReservationsQuery.mk None None (Some "ana") None None None None))
    noon withBooking
  = (Some InvalidClientId, withBooking)
  /\ exists slice,
       serve (getAllReservations sampleRegexI anasReservations) noon withBooking
       = (Some (ReservationsListed (map (populatedIn withBooking) slice)
                  (pagination "totalReservations" 1 10 1)),
          withBooking)
       /\ slice = [booking].
Proof.
  split.
  - apply (proj1 (getAllReservations_lists sampleRegexI
                    (ReservationsQuery.mk None None (Some "ana") None None None None)
                    noon withBooking)).
    vm_compute. reflexivity.
  - destruct (proj2 (getAllReservations_lists sampleRegexI anasReservations noon
                       withBooking))
      as (slice & Hserve & Hslice & _).
    + vm_compute. reflexivity.
    + reflexivity.
    + reflexivity.
    + exists slice. split; [exact Hserve|]. rewrite Hslice. vm_compute. reflexivity.
Defined.

(** The three pages of ten of the 25 clients, registered at 25 different
    times, end to end. *)
Lemma pages_tile_the_listing_sample :
  (forall l,
      Permutation l (registered 25) ->
      StronglySorted (fun a b => Client.createdAt b <= Client.createdAt a) l ->
      l = registered 25)
  /\ concat (map (fun p => listed (fst (serve (getAllClients sampleRegexI
                                                 (clientsPage tenByTen (Z.of_nat p)))
                                          noon crowded)))
               (seq 1 3))
     = map (fun c => Client.toJSON (Client.selectMinusPassword c)) (registered 25).
Proof.
  pose proof (proj1 (pages_tile_the_listing sampleRegexI noon crowded 3) tenByTen) as H.
  cbv zeta in H.
  assert (filter (clientMatches (listingFilter sampleRegexI tenByTen)) (clients crowded)
          = registered 25) as Hall by (vm_compute; reflexivity).
  assert (matchingClients sampleRegexI tenByTen crowded = registered 25) as Hsorted
      by (vm_compute; reflexivity).
  rewrite Hall, Hsorted in H.
  destruct H as [Honly Htile].
  - reflexivity.
  - apply distinct_NoDup. vm_compute. reflexivity.
  - intros p [<-|[<-|[<-|[]]]]; vm_compute; reflexivity.
  - split; [exact Honly|]. etransitivity; [exact Htile|]. vm_compute. reflexivity.
Defined.

(** Ana changes her phone, books an oil change, and the booking is
    completed; each is then read. *)
Lemma writes_are_read_back_sample :
  (let updated := serve (updateClient [("id", anaId)] newPhone) noon withAna in
   let read := serve (getClientById [("id", anaId)]) evening (snd updated) in
   answered 200 (fst read) = true
   /\ dataOf (fst read) = dataOf (fst updated)
   /\ snd read = snd updated)
  /\
  (let created := serve (createReservation oilChange) evening withAna in
   let read := serve (getReservationById [("id", freshId evening)]) noon (snd created) in
   answered 200 (fst read) = true
   /\ dataOf (fst read) = dataOf (fst created)
   /\ snd read = snd created)
  /\
  (let updated := serve (updateReservation [("id", bookingId)] toCompleted) evening
                    withBooking in
   let read := serve (getReservationById [("id", bookingId)]) noon (snd updated) in
   answered 200 (fst read) = true
   /\ dataOf (fst read) = dataOf (fst updated)
   /\ snd read = snd updated).
Proof.
  split; [|split].
  - apply (proj1 (writes_are_read_back noon evening withAna) [("id", anaId)] newPhone).
    vm_compute. reflexivity.
  - apply (proj1 (proj2 (writes_are_read_back evening noon withAna)) oilChange).
    + vm_compute. reflexivity.
    + vm_compute. reflexivity.
  - apply (proj2 (proj2 (writes_are_read_back evening noon withBooking))
             [("id", bookingId)] toCompleted).
    vm_compute. reflexivity.
Defined.

(** Ana is deleted before she books; her booking is deleted. *)
Lemma deleted_documents_are_gone_sample :
  (let s' := snd (serve (deleteClient [("id", anaId)]) noon withAna) in
   serve (getClientById [("id", anaId)]) evening s' = (Some ClientNotFound, s')
   /\ serve (deleteClient [("id", anaId)]) evening s' = (Some ClientNotFound, s'))
  /\
  (let s' := snd (serve (deleteReservation [("id", bookingId)]) noon withBooking) in
   serve (getReservationById [("id", bookingId)]) evening s'
   = (Some ReservationNotFound, s')
   /\ serve (deleteReservation [("id", bookingId)]) evening s'
      = (Some ReservationNotFound, s')).
Proof.
  split.
  - apply (proj1 (deleted_documents_are_gone noon evening withAna) [("id", anaId)]).
    + unfold clientIdsUnique. vm_compute. constructor; [intros []|constructor].
    + vm_compute. reflexivity.
  - apply (proj2 (deleted_documents_are_gone noon evening withBooking)
             [("id", bookingId)]).
    + unfold reservationIdsUnique. vm_compute. constructor; [intros []|constructor].
    + vm_compute. reflexivity.
Defined.

(** Luis is deleted while a booking is made for him, before the check of
    the hook and after it, and while Ana's booking is handed over to him. *)
Lemma reference_checks_are_not_atomic_sample :
  run (createReservation tyres) evening (mkWorld withAnaAndLuis [quiet; luisLeaves])
  = (Some (serverError "Error al crear la reserva"
             (mkError None "Cliente no encontrado")),
     luisLeaves withAnaAndLuis)
  /\
  (run (createReservation tyres) evening
     (mkWorld withAnaAndLuis [quiet; quiet; luisLeaves])
   = (Some (ReservationCreated (newReservationDoc evening tyres, None)),
      withNewReservation (newReservationDoc evening tyres) (luisLeaves withAnaAndLuis))
   /\ clientById (Reservation.clientId (newReservationDoc evening tyres))
        (withNewReservation (newReservationDoc evening tyres)
           (luisLeaves withAnaAndLuis)) = None)
  /\
  (let r' := applyReservationPatch (reservationSchema.castUpdate toLuis) (now noon)
               booking in
   run (updateReservation [("id", bookingId)] toLuis) noon
     (mkWorld busy [quiet; luisLeaves])
   = (Some (ReservationUpdated (r', None)),
      withReservation (toLowerCase bookingId) r' (luisLeaves busy))
   /\ clientById (Reservation.clientId r')
        (withReservation (toLowerCase bookingId) r' (luisLeaves busy)) = None).
Proof.
  split; [|split].
  - apply (proj1 (reference_checks_are_not_atomic evening withAnaAndLuis luisLeaves)
             tyres (newClientDoc sampleHash noon luisDiaz)).
    + vm_compute. reflexivity.
    + vm_compute. reflexivity.
    + vm_compute. reflexivity.
    + vm_compute. reflexivity.
    + vm_compute. reflexivity.
  - apply (proj1 (proj2 (reference_checks_are_not_atomic evening withAnaAndLuis
                           luisLeaves))
             tyres (newClientDoc sampleHash noon luisDiaz)).
    + vm_compute. reflexivity.
    + vm_compute. reflexivity.
    + vm_compute. reflexivity.
    + vm_compute. reflexivity.
    + vm_compute. reflexivity.
    + vm_compute. reflexivity.
    + vm_compute. reflexivity.
  - apply (proj2 (proj2 (reference_checks_are_not_atomic noon busy luisLeaves))
             bookingId toLuis luisId (newClientDoc sampleHash noon luisDiaz) booking).
    + vm_compute. reflexivity.
    + reflexivity.
    + vm_compute. reflexivity.
    + vm_compute. reflexivity.
    + vm_compute. reflexivity.
    + exact I.
    + vm_compute. reflexivity.
    + vm_compute. reflexivity.
    + vm_compute. reflexivity.
Defined.

(** Ana books an oil change while she is being deleted. *)
Lemma deletion_guard_is_not_atomic_sample :
  (let left := snd (run (deleteClient [("id", anaId)]) noon
                      (mkWorld withAna [quiet; anaBooks])) in
   run (deleteClient [("id", anaId)]) noon (mkWorld withAna [quiet; anaBooks])
   = (Some ClientDeleted, withoutClient (toLowerCase anaId) (anaBooks withAna))
   /\ activeReservationsOf (toLowerCase anaId) left
      = activeReservationsOf (toLowerCase anaId) (anaBooks withAna))
  /\ activeReservationsOf (toLowerCase anaId) (anaBooks withAna) = [booking].
Proof.
  split.
  - apply (deletion_guard_is_not_atomic noon withAna anaBooks anaId ana).
    + vm_compute. reflexivity.
    + vm_compute. reflexivity.
    + vm_compute. reflexivity.
  - vm_compute. reflexivity.
Defined.


(** Ana is deleted after her booking was completed; the booking stays. *)
Lemma deleted_client_leaves_its_reservations_sample :
  let s' := snd (serve (deleteClient [("id", anaId)]) noon settled) in
  isActive bookingDone = false
  /\ serve (getReservationById [("id", bookingId)]) evening s'
     = (Some (ReservationFound (bookingDone, None)), s').
Proof.
  apply (deleted_client_leaves_its_reservations noon evening settled [("id", anaId)]
           bookingId bookingDone).
  - unfold clientIdsUnique. vm_compute. constructor; [intros []|constructor].
  - vm_compute. reflexivity.
  - vm_compute. reflexivity.
  - vm_compute. reflexivity.
  - vm_compute. reflexivity.
Defined.

(** The answer to Ana's registration. *)
Lemma no_answer_carries_a_password_sample :
  mentions "password" (json (ClientCreated ana)) = false.
Proof.
  apply (no_answer_carries_a_password sampleHash sampleRegexI (CreateClient anaRuiz)
           morning (alone empty)).
  vm_compute. reflexivity.
Defined.


(** The third page of ten of the 25 clients, and Ana's reservations. *)
Lemma listings_are_in_order_sample :
  (exists slice pages,
      serve (getAllClients sampleRegexI (clientsPage tenByTen 3)) noon crowded
      = (Some (ClientsListed slice pages), crowded)
      /\ slice = skipn 20 (registered 25)
      /\ StronglySorted (fun a b => Client.createdAt b <= Client.createdAt a) slice)
  /\
  (exists slice pages,
      serve (getReservationsByClient [("clientId", anaId)]
               (ClientReservationsQuery.mk None None None)) noon withBooking
      = (Some (ReservationsListed (map (populatedIn withBooking) slice) pages),
         withBooking)
      /\ forall r, In r slice -> Reservation.clientId r = toLowerCase anaId).
Proof.
  split.
  - destruct (proj1 (listings_are_in_order noon crowded) sampleRegexI
                (clientsPage tenByTen 3))
      as (slice & pages & Hserve & Hslice & Hsorted & _).
    + reflexivity.
    + reflexivity.
    + exists slice, pages. split; [exact Hserve|]. split; [|exact Hsorted].
      rewrite Hslice. vm_compute. reflexivity.
  - destruct (proj2 (listings_are_in_order noon withBooking) anaId ana
                (ClientReservationsQuery.mk None None None))
      as (slice & pages & Hserve & _ & Hin).
    + vm_compute. reflexivity.
    + vm_compute. reflexivity.
    + reflexivity.
    + reflexivity.
    + exists slice, pages. split; [exact Hserve|].
      intros r Hr. exact (proj1 (proj2 (Hin r Hr))).
Defined.

(** Of the 25 clients ten by ten, page 2 has a next page and page 3 has
    none. *)
Lemma hasNext_announces_the_next_page_sample :
  paginationField "hasNext"
    (fst (serve (getAllClients sampleRegexI (clientsPage tenByTen 2)) noon crowded))
  = Some (JBool true)
  /\ paginationField "hasNext"
       (fst (serve (getAllClients sampleRegexI (clientsPage tenByTen 3)) noon crowded))
     = Some (JBool false).
Proof.
  split.
  - etransitivity.
    + apply (proj1 (hasNext_announces_the_next_page sampleRegexI noon crowded)
               tenByTen 2%nat); [lia|reflexivity].
    + vm_compute. reflexivity.
  - etransitivity.
    + apply (proj1 (hasNext_announces_the_next_page sampleRegexI noon crowded)
               tenByTen 3%nat); [lia|reflexivity].
    + vm_compute. reflexivity.
Defined.
